(** * Copyright / open-access admission control of the Uzei extension

    A shallow embedding of the copyright checker of [src/content.js]
    (domain classifier, the DOI extractors for pages and for PDF URLs, OA
    status cache, Unpaywall resolver and the [checkCopyright] decision
    procedure), together with the properties the specification states about
    it, and of the functions around it: the maintenance of the cache
    ([clearOACache]), PDF page detection ([isPDFPage]) and the extraction of
    keywords, title and main content of a page.

    Conventions of the embedding.
    - A JavaScript string is a [string]; a character is read as a UTF-16 code
      unit in the range U+0000..U+00FF.  Code units above that range are not
      represented.
    - [null] and [undefined] are both [None] of an [option]; a field holds a
      value of its documented type or is absent.
    - Asynchronous functions are functions of a small monad [M] that threads the
      mutable state of the page (the module-level [academicDatabases] object and
      [chrome.storage.local]) and an event log, reads the platform and the
      network from a [World], and may raise an exception.
    - [console.log], [console.warn] and [console.error] have no effect on any
      value the code computes and are left out. *)

From Stdlib Require Import ZArith Ascii String List Bool Lia.
From stdpp Require Import gmap strings pretty.
Import ListNotations.
Open Scope string_scope.
Open Scope Z_scope.

(** ** Characters and strings *)

Module Js.

Definition code (c : ascii) : N := N_of_ascii c.

Definition is_digit (c : ascii) : bool :=
  ((48 <=? code c) && (code c <=? 57))%N.

(** [\s] of a regular expression and the characters [trim] strips:
    WhiteSpace and LineTerminator, here TAB, LF, VT, FF, CR, SPACE, NBSP. *)
Definition is_space (c : ascii) : bool :=
  (((9 <=? code c) && (code c <=? 13)) || (code c =? 32) || (code c =? 160))%N.

(** [String.prototype.toLowerCase] on one code unit: A-Z and the upper-case
    letters of Latin-1 (U+00C0..U+00DE without the multiplication sign). *)
Definition lower_char (c : ascii) : ascii :=
  let n := code c in
  if (((65 <=? n) && (n <=? 90))
      || ((192 <=? n) && (n <=? 222) && negb (n =? 215)))%N
  then ascii_of_N (n + 32) else c.

Definition chars (s : string) : list ascii := list_ascii_of_string s.
Definition str (l : list ascii) : string := string_of_list_ascii l.

Definition toLowerCase (s : string) : string := str (map lower_char (chars s)).

(** A string is truthy when it is not empty; an absent value is falsy. *)
Definition truthy (s : string) : bool :=
  match s with EmptyString => false | _ => true end.

Definition truthy_opt (o : option string) : bool :=
  match o with Some s => truthy s | None => false end.

Fixpoint starts_with (p s : list ascii) : bool :=
  match p, s with
  | [], _ => true
  | a :: p', b :: s' => if Ascii.eqb a b then starts_with p' s' else false
  | _ :: _, [] => false
  end.

(** [hay.includes(needle)] *)
Fixpoint includes_chars (hay needle : list ascii) : bool :=
  starts_with needle hay
  || match hay with
     | [] => false
     | _ :: hay' => includes_chars hay' needle
     end.

Definition includes (hay needle : string) : bool :=
  includes_chars (chars hay) (chars needle).

Fixpoint drop_spaces (l : list ascii) : list ascii :=
  match l with
  | c :: l' => if is_space c then drop_spaces l' else l
  | [] => []
  end.

(** [String.prototype.trim] *)
Definition trim_chars (l : list ascii) : list ascii :=
  rev (drop_spaces (rev (drop_spaces l))).

Definition trim (s : string) : string := str (trim_chars (chars s)).

(** The text a template literal inserts for a possibly undefined string. *)
Definition show (o : option string) : string :=
  match o with Some s => s | None => "undefined" end.

Definition hex_digit (n : N) : ascii :=
  if (n <? 10)%N then ascii_of_N (48 + n) else ascii_of_N (55 + n).

Definition percent (n : N) : list ascii :=
  ["%"%char; hex_digit (n / 16); hex_digit (n mod 16)].

Definition is_alpha (c : ascii) : bool :=
  let n := code c in
  (((65 <=? n) && (n <=? 90)) || ((97 <=? n) && (n <=? 122)))%N.

(** Characters [encodeURIComponent] leaves alone: letters, digits and
    [- _ . ! ~ * ' ( )]. *)
Definition uri_unreserved (c : ascii) : bool :=
  is_alpha c || is_digit c
  || existsb (Ascii.eqb c)
       ["-"; "_"; "."; "!"; "~"; "*"; "'"; "("; ")"]%char.

(** [encodeURIComponent]: every other code unit is written as the percent
    escapes of its UTF-8 bytes (one byte below U+0080, two up to U+00FF). *)
Definition encode_char (c : ascii) : list ascii :=
  let n := code c in
  if uri_unreserved c then [c]
  else if (n <? 128)%N then percent n
  else percent (192 + n / 64) ++ percent (128 + n mod 64).

Definition encodeURIComponent (s : string) : string :=
  str (flat_map encode_char (chars s)).

End Js.

(** ** Regular expressions

    The fragment of JavaScript regular expressions the checker uses, with the
    backtracking order of the language: alternatives left to right, a greedy
    quantifier tries one more iteration first, a lazy one tries to stop first,
    and an iteration that consumes nothing is rejected.  The patterns of the
    source have at most one capturing group, so a match carries one capture. *)

Module Re.

Inductive regex : Type :=
| Eps
| Chr (p : ascii -> bool)
| Seq (r1 r2 : regex)
| Alt (r1 r2 : regex)
| Star (greedy : bool) (r : regex)
| Group (r : regex).

Definition capture := option (list ascii).

Definition orelse {A} (x : option A) (y : unit -> option A) : option A :=
  match x with Some a => Some a | None => y tt end.

(** The iterations of a quantifier over [step], the matcher of its body.
    [fuel] bounds their number; the length of the text is enough, since each
    iteration consumes a character. *)
Fixpoint star_loop {A} (greedy : bool)
    (step : list ascii -> capture -> (list ascii -> capture -> option A) -> option A)
    (k : list ascii -> capture -> option A)
    (fuel : nat) (s : list ascii) (cap : capture) : option A :=
  match fuel with
  | O => k s cap
  | S fuel' =>
      let again (_ : unit) :=
        step s cap (fun s' cap' =>
          if (length s' <? length s)%nat
          then star_loop greedy step k fuel' s' cap'
          else None) in
      if greedy then orelse (again tt) (fun _ => k s cap)
      else orelse (k s cap) again
  end.

(** [run r s cap k] matches [r] at the head of [s] and hands the rest of the
    text and the capture to [k]; when [k] fails the matcher backtracks. *)
Fixpoint run {A} (r : regex) (s : list ascii) (cap : capture)
    (k : list ascii -> capture -> option A) {struct r} : option A :=
  match r with
  | Eps => k s cap
  | Chr p =>
      match s with
      | c :: s' => if p c then k s' cap else None
      | [] => None
      end
  | Seq r1 r2 => run r1 s cap (fun s1 cap1 => run r2 s1 cap1 k)
  | Alt r1 r2 => orelse (run r1 s cap k) (fun _ => run r2 s cap k)
  | Star greedy r1 =>
      star_loop greedy (fun s1 cap1 k1 => run r1 s1 cap1 k1) k (length s) s cap
  | Group r1 =>
      run r1 s cap (fun s' _ =>
        k s' (Some (firstn (length s - length s') s)))
  end.

(** The text matched and the capture of a match that starts at the head of
    [s] (a pattern anchored with [^]). *)
Definition match_here (r : regex) (s : list ascii)
    : option (list ascii * list ascii * capture) :=
  run r s None (fun rest cap =>
    Some (firstn (length s - length rest) s, rest, cap)).

(** [s.match(r)] for a pattern without the [g] flag: the leftmost match. *)
Fixpoint search (r : regex) (s : list ascii) : option (list ascii * capture) :=
  match match_here r s with
  | Some (m, _, cap) => Some (m, cap)
  | None =>
      match s with
      | [] => None
      | _ :: s' => search r s'
      end
  end.

(** [r.test(s)] for a pattern that begins with [^]. *)
Definition test_anchored (r : regex) (s : string) : bool :=
  match match_here r (Js.chars s) with Some _ => true | None => false end.

(** Capture group 1 of [s.match(r)]. *)
Definition match_group (r : regex) (s : string) : option string :=
  match search r (Js.chars s) with
  | Some (_, Some g) => Some (Js.str g)
  | _ => None
  end.

(** [s.replace(r, '')] for a pattern that begins with [^]. *)
Definition strip_anchored (r : regex) (s : string) : string :=
  match match_here r (Js.chars s) with
  | Some (_, rest, _) => Js.str rest
  | None => s
  end.

(** Building blocks. *)
Definition ch (c : ascii) : regex := Chr (Ascii.eqb c).
Definition chi (c : ascii) : regex :=
  Chr (fun x => Ascii.eqb (Js.lower_char x) (Js.lower_char c)).
Definition digit : regex := Chr Js.is_digit.
Definition space : regex := Chr Js.is_space.
Definition not_space : regex := Chr (fun c => negb (Js.is_space c)).
Definition plus (greedy : bool) (r : regex) : regex := Seq r (Star greedy r).

Fixpoint seqs (rs : list regex) : regex :=
  match rs with
  | [] => Eps
  | [r] => r
  | r :: rs' => Seq r (seqs rs')
  end.

Definition lit (s : string) : regex := seqs (map ch (Js.chars s)).
Definition liti (s : string) : regex := seqs (map chi (Js.chars s)).

(** [\d{4,}] *)
Definition digits4 : regex := seqs [digit; digit; digit; digit; Star true digit].

(** The whole text [s.match(r)] matched, [match[0]]. *)
Definition match_text (r : regex) (s : string) : option string :=
  match search r (Js.chars s) with
  | Some (m, _) => Some (Js.str m)
  | None => None
  end.

(** The word characters of [\b]: letters, digits and the underscore. *)
Definition is_word (c : ascii) : bool :=
  Js.is_alpha c || Js.is_digit c || Ascii.eqb c "_".

(** [\b] between the character before the position and the text after it. *)
Definition at_boundary (prev : option ascii) (s : list ascii) : bool :=
  xorb (match prev with Some c => is_word c | None => false end)
       (match s with c :: _ => is_word c | [] => false end).

(** [s.match(/\b r/)]: the leftmost match of [r] that starts on a word
    boundary. *)
Fixpoint search_boundary (r : regex) (prev : option ascii) (s : list ascii)
    : option (list ascii * capture) :=
  match (if at_boundary prev s then match_here r s else None) with
  | Some (m, _, cap) => Some (m, cap)
  | None =>
      match s with
      | [] => None
      | c :: s' => search_boundary r (Some c) s'
      end
  end.

Definition match_group_boundary (r : regex) (s : string) : option string :=
  match search_boundary r None (Js.chars s) with
  | Some (_, Some g) => Some (Js.str g)
  | _ => None
  end.

(** [s.replace(/[...]$/, '')]: drops the last character when it is in the
    class. *)
Definition strip_last_chars (p : ascii -> bool) (l : list ascii) : list ascii :=
  match rev l with
  | c :: l' => if p c then rev l' else l
  | [] => l
  end.

Definition strip_last (p : ascii -> bool) (s : string) : string :=
  Js.str (strip_last_chars p (Js.chars s)).

(** The language of a pattern: the texts it can match.  Every iteration of a
    quantifier consumes at least one character. *)
Inductive denotes : regex -> list ascii -> Prop :=
| DEps : denotes Eps []
| DChr p c : p c = true -> denotes (Chr p) [c]
| DSeq r1 r2 m1 m2 :
    denotes r1 m1 -> denotes r2 m2 -> denotes (Seq r1 r2) (m1 ++ m2)
| DAltL r1 r2 m : denotes r1 m -> denotes (Alt r1 r2) m
| DAltR r1 r2 m : denotes r2 m -> denotes (Alt r1 r2) m
| DStarNil g r : denotes (Star g r) []
| DStarCons g r m1 m2 :
    m1 <> [] -> denotes r m1 -> denotes (Star g r) m2 ->
    denotes (Star g r) (m1 ++ m2)
| DGroup r m : denotes r m -> denotes (Group r) m.

End Re.

(** ** Data model *)

(** An exception value: the [name] and [message] of an [Error] object. *)
Record Exn : Type := MkExn { exn_name : string; exn_message : string }.

Definition TypeError (msg : string) : Exn := MkExn "TypeError" msg.

(** What [new URL(u)] exposes to the checker. *)
Record Location : Type := MkLocation {
  hostname : string;
  searchParams : list (string * string)
}.

(** The module-level [academicDatabases] object. *)
Record AcademicDatabases : Type := MkDatabases {
  whitelist : list string;
  blacklist : list string;
  conditional : list string
}.

(** The document [academic_dblist.json].  [blacklist] holds the values of the
    [blacklist] object in the order [Object.values] lists them; a value is an
    array of domains, an object whose values are arrays (or anything else),
    [null], or a value that is not an object. *)
Record Allowlist : Type := MkAllowlist {
  preprint_servers : list string;
  open_access_publishers : list string;
  open_access_repositories : list string;
  institutional_repositories : list string
}.

Inductive Subcategory : Type :=
| SubArray (domains : list string)
| SubOther.

Inductive BlacklistCategory : Type :=
| CatArray (domains : list string)
| CatObject (subcategories : list Subcategory)
| CatNull
| CatOther.

Record Dataset : Type := MkDataset {
  ds_allowlist : option Allowlist;
  ds_blacklist : option (list BlacklistCategory);
  ds_mixed_content : option (list string)
}.

(** The normalized record the resolver returns and caches. *)
Record OAStatus : Type := MkOAStatus {
  oa_doi : option string;
  is_oa : bool;
  oa_status : option string;
  oa_url : option string;
  host_type : option string;
  version : option string;
  license : option string;
  oa_error : option string
}.

Record CacheEntry : Type := MkCacheEntry {
  data : OAStatus;
  timestamp : Z
}.

(** The body of a registry response. *)
Record BestLocation : Type := MkBestLocation {
  loc_url : option string;
  loc_host_type : option string;
  loc_version : option string;
  loc_license : option string
}.

Record RegistryData : Type := MkRegistryData {
  reg_doi : option string;
  reg_is_oa : bool;
  reg_oa_status : option string;
  best_oa_location : option BestLocation
}.

Inductive Body : Type :=
| BodyInvalid (msg : string)   (* [response.json()] rejects *)
| BodyNull                     (* the JSON text [null] *)
| BodyData (d : RegistryData).

Inductive FetchResult : Type :=
| FetchAborted                 (* the abort signal fired: the 10 s timeout *)
| FetchFailed (msg : string)   (* the connection failed *)
| FetchResponse (status : Z) (body : Body).

Inductive StorageOp : Type := OpGet | OpSet | OpRemove.

(** Everything outside the page that the checker reads: the clock, the
    platform's URL parser, the bundled dataset ([None] when fetching or parsing
    it fails), the registry's answer to a request URL, and whether an operation
    of [chrome.storage.local] on a key rejects. *)
Record World : Type := MkWorld {
  now : Z;
  url_parse : string -> option Location;
  dataset : option Dataset;
  registry : string -> FetchResult;
  storage_fails : StorageOp -> string -> bool
}.

Inductive Event : Type :=
| EvLoadDataset
| EvStorageGet (key : string)
| EvStorageRemove (key : string)
| EvStorageSet (key : string) (entry : CacheEntry)
| EvFetch (url : string).

Record State : Type := MkState {
  academicDatabases : AcademicDatabases;
  storage : gmap string CacheEntry;
  events : list Event
}.

Inductive Category : Type :=
| whitelist_cat | blacklist_cat | unknown_pdf | unknown_html
| oa_verified | paywalled | verification_failed | error_cat.

Inductive Confidence : Type := high | medium | low.

(** The object [checkCopyright] returns. *)
Record Decision : Type := MkDecision {
  allowed : bool;
  reason : string;
  category : Category;
  confidence : Confidence;
  suggestion : option string;
  warning : option string;
  d_oa_status : option string;
  d_doi : option string;
  d_oa_url : option string;
  d_oa_host : option string;
  d_error : option string
}.

(** The argument of [checkCopyright]. *)
Record PageData : Type := MkPageData {
  pd_url : option string;
  pd_domain : option string;
  pd_doi : option string;
  pd_isPDF : bool;
  pd_contentType : option string
}.

(** ** The monad of asynchronous functions *)

Inductive Outcome (A : Type) : Type :=
| Ok (a : A)
| Throw (e : Exn).
Arguments Ok {A} a.
Arguments Throw {A} e.

Definition M (A : Type) : Type := World -> State -> Outcome A * State.

#[global] Instance M_ret : MRet M := fun A a _ st => (Ok a, st).

#[global] Instance M_bind : MBind M := fun A B f m w st =>
  match m w st with
  | (Ok a, st') => f a w st'
  | (Throw e, st') => (Throw e, st')
  end.

Definition throw {A} (e : Exn) : M A := fun _ st => (Throw e, st).

(** [try { body } catch (error) { handler }]: the effects of [body] up to the
    throw stay in place. *)
Definition try_catch {A} (body : M A) (handler : Exn -> M A) : M A :=
  fun w st =>
    match body w st with
    | (Ok a, st') => (Ok a, st')
    | (Throw e, st') => handler e w st'
    end.

Definition ask {A} (f : World -> A) : M A := fun w st => (Ok (f w), st).

Definition emit (e : Event) : M unit := fun _ st =>
  (Ok tt, MkState (academicDatabases st) (storage st) (events st ++ [e])).

(** Reads and assignments of the fields of [academicDatabases]. *)
Definition read {A} (field : AcademicDatabases -> A) : M A :=
  fun _ st => (Ok (field (academicDatabases st)), st).

Definition update (f : AcademicDatabases -> AcademicDatabases) : M unit :=
  fun _ st => (Ok tt, MkState (f (academicDatabases st)) (storage st) (events st)).

Definition assign_whitelist (l : list string) : M unit :=
  update (fun d => MkDatabases l (blacklist d) (conditional d)).

Definition assign_blacklist (l : list string) : M unit :=
  update (fun d => MkDatabases (whitelist d) l (conditional d)).

Definition assign_conditional (l : list string) : M unit :=
  update (fun d => MkDatabases (whitelist d) (blacklist d) l).

Definition storage_error : Exn := MkExn "Error" "storage operation failed".

(** [chrome.storage.local.get(key)], [.remove(key)] and [.set({[key]: entry})] *)
Definition storage_get (key : string) : M (option CacheEntry) := fun w st =>
  let st' := MkState (academicDatabases st) (storage st) (events st ++ [EvStorageGet key]) in
  if storage_fails w OpGet key then (Throw storage_error, st')
  else (Ok (storage st !! key), st').

Definition storage_remove (key : string) : M unit := fun w st =>
  if storage_fails w OpRemove key
  then (Throw storage_error,
        MkState (academicDatabases st) (storage st) (events st ++ [EvStorageRemove key]))
  else (Ok tt,
        MkState (academicDatabases st) (delete key (storage st))
                (events st ++ [EvStorageRemove key])).

Definition storage_set (key : string) (entry : CacheEntry) : M unit := fun w st =>
  if storage_fails w OpSet key
  then (Throw storage_error,
        MkState (academicDatabases st) (storage st) (events st ++ [EvStorageSet key entry]))
  else (Ok tt,
        MkState (academicDatabases st) (<[key := entry]> (storage st))
                (events st ++ [EvStorageSet key entry])).

(** [new URL(u)]: throws a [TypeError] when [u] does not parse. *)
Definition new_URL (u : string) : M Location := fun w st =>
  match url_parse w u with
  | Some l => (Ok l, st)
  | None => (Throw (TypeError "Failed to construct 'URL': Invalid URL"), st)
  end.

(** ** Configuration *)

Module COPYRIGHT_CONFIG.
Definition UNPAYWALL_API : string := "https://api.unpaywall.org/v2".
Definition UNPAYWALL_EMAIL : string := "wangzifeng157@gmail.com".
(** 30 days, in milliseconds *)
Definition CACHE_DURATION : Z := 30 * 24 * 60 * 60 * 1000.
Definition API_TIMEOUT : Z := 10000.
End COPYRIGHT_CONFIG.

(** ** Domain classifier *)

(** [list.some(entry => lowerDomain.includes(entry.toLowerCase()))] behind the
    guard [if (!domain) return false]. *)
Definition domain_in (entries : list string) (domain : string) : bool :=
  if negb (Js.truthy domain) then false
  else
    let lowerDomain := Js.toLowerCase domain in
    existsb (fun entry => Js.includes lowerDomain (Js.toLowerCase entry)) entries.

Definition isWhitelisted (domain : string) : M bool :=
  entries ← read whitelist; mret (domain_in entries domain).

Definition isBlacklisted (domain : string) : M bool :=
  entries ← read blacklist; mret (domain_in entries domain).

Definition isConditional (domain : string) : M bool :=
  entries ← read conditional; mret (domain_in entries domain).

(** [academicDatabases.blacklist.push(...domains)] *)
Definition push_blacklist (domains : list string) : M unit :=
  entries ← read blacklist; assign_blacklist (entries ++ domains).

Fixpoint push_subcategories (subs : list Subcategory) : M unit :=
  match subs with
  | [] => mret tt
  | SubArray domains :: rest => push_blacklist domains;; push_subcategories rest
  | SubOther :: rest => push_subcategories rest
  end.

Fixpoint push_categories (cats : list BlacklistCategory) : M unit :=
  match cats with
  | [] => mret tt
  | CatArray domains :: rest => push_blacklist domains;; push_categories rest
  | CatObject subs :: rest => push_subcategories subs;; push_categories rest
  | CatNull :: _ =>
      (* [typeof null === 'object'], and [Object.values(null)] throws *)
      throw (TypeError "Cannot convert undefined or null to object")
  | CatOther :: rest => push_categories rest
  end.

Definition loadAcademicDatabases : M bool :=
  try_catch
    (emit EvLoadDataset;;
     fetched ← ask dataset;
     data ← match fetched with
            | Some d => mret d
            | None => throw (TypeError "Failed to fetch")
            end;
     allow ← match ds_allowlist data with
             | Some a => mret a
             | None => throw (TypeError "Cannot read properties of undefined (reading 'preprint_servers')")
             end;
     assign_whitelist
       (preprint_servers allow ++ open_access_publishers allow
        ++ open_access_repositories allow ++ institutional_repositories allow);;
     assign_blacklist [];;
     cats ← match ds_blacklist data with
            | Some c => mret c
            | None => throw (TypeError "Cannot convert undefined or null to object")
            end;
     push_categories cats;;
     assign_conditional (match ds_mixed_content data with Some l => l | None => [] end);;
     mret true)
    (fun _ => mret false).

(** ** DOI extraction from a PDF URL *)

(** [/\/([10]\.\d{4,}\/[^\s]+?)\.pdf/i] *)
Definition doiInPath_re : Re.regex :=
  Re.seqs
    [ Re.ch "/";
      Re.Group
        (Re.seqs
           [ Re.Chr (fun c => Ascii.eqb c "1" || Ascii.eqb c "0");
             Re.ch "."; Re.digits4; Re.ch "/"; Re.plus false Re.not_space ]);
      Re.ch "."; Re.liti "pdf" ].

(** [/(10\.\d{4,}\/[^\s\/]+)/] *)
Definition springer_re : Re.regex :=
  Re.Group
    (Re.seqs
       [ Re.lit "10."; Re.digits4; Re.ch "/";
         Re.plus true (Re.Chr (fun c => negb (Js.is_space c || Ascii.eqb c "/"))) ]).

(** [/arxiv\.org\/pdf\/(\d+\.\d+)/i] *)
Definition arxiv_pdf_re : Re.regex :=
  Re.seqs
    [ Re.liti "arxiv.org/pdf/";
      Re.Group (Re.seqs [ Re.plus true Re.digit; Re.ch "."; Re.plus true Re.digit ]) ].

(** [urlObj.searchParams.get(name)]: the first value stored under [name]. *)
Fixpoint searchParams_get (params : list (string * string)) (name : string)
    : option string :=
  match params with
  | [] => None
  | (k, v) :: rest => if String.eqb k name then Some v else searchParams_get rest name
  end.

Definition extractDOIFromPDFUrl (url : option string) : M (option string) :=
  if negb (Js.truthy_opt url) then mret None
  else
    let url := Js.show url in
    try_catch
      (match Re.match_group doiInPath_re url with
       | Some doi => mret (Some doi)
       | None =>
       match Re.match_group springer_re url with
       | Some doi => mret (Some doi)
       | None =>
       match Re.match_group arxiv_pdf_re url with
       | Some id => mret (Some ("10.48550/arXiv." ++ id))
       | None =>
           urlObj ← new_URL url;
           let doiParam := searchParams_get (searchParams urlObj) "doi" in
           if Js.truthy_opt doiParam then mret doiParam else mret None
       end end end)
      (fun _ => mret None).

(** ** OA status cache *)

(** [`oa_cache_${doi}`] *)
Definition cacheKey (doi : option string) : string := "oa_cache_" ++ Js.show doi.

Definition getCachedOAStatus (doi : option string) : M (option OAStatus) :=
  if negb (Js.truthy_opt doi) then mret None
  else
    try_catch
      (let cacheKey := cacheKey doi in
       result ← storage_get cacheKey;
       match result with
       | Some cached =>
           t ← ask now;
           let age := t - timestamp cached in
           if age <? COPYRIGHT_CONFIG.CACHE_DURATION then mret (Some (data cached))
           else storage_remove cacheKey;; mret None
       | None => mret None
       end)
      (fun _ => mret None).

Definition cacheOAStatus (doi : option string) (oaData : option OAStatus) : M unit :=
  match oaData with
  | Some oaData =>
      if negb (Js.truthy_opt doi) then mret tt
      else
        try_catch
          (let cacheKey := cacheKey doi in
           t ← ask now;
           storage_set cacheKey (MkCacheEntry oaData t))
          (fun _ => mret tt)
  | None => mret tt
  end.

(** ** Open-access resolver *)

(** [/^doi:\s*/i] *)
Definition doi_prefix_re : Re.regex :=
  Re.seqs [ Re.liti "doi:"; Re.Star true Re.space ].

(** [doi.replace(/^doi:\s*/i, '').trim()] *)
Definition cleanDOI (doi : string) : string :=
  Js.trim (Re.strip_anchored doi_prefix_re doi).

Definition unpaywall_url (cleanDOI : string) : string :=
  COPYRIGHT_CONFIG.UNPAYWALL_API ++ "/" ++ Js.encodeURIComponent cleanDOI
  ++ "?email=" ++ COPYRIGHT_CONFIG.UNPAYWALL_EMAIL.

(** [await fetch(url, { signal })] with the abort timer armed: the response
    status and body, or the exception the promise rejects with. *)
Definition fetch (url : string) : M (Z * Body) :=
  emit (EvFetch url);;
  answer ← ask (fun w => registry w url);
  match answer with
  | FetchAborted => throw (MkExn "AbortError" "The user aborted a request.")
  | FetchFailed msg => throw (TypeError msg)
  | FetchResponse status body => mret (status, body)
  end.

(** [await response.json()] followed by the reads of [data.doi] and the like,
    which throw on [null]. *)
Definition response_json (body : Body) : M RegistryData :=
  match body with
  | BodyInvalid msg => throw (MkExn "SyntaxError" msg)
  | BodyNull => throw (TypeError "Cannot read properties of null (reading 'doi')")
  | BodyData d => mret d
  end.

Definition no_doi_status : OAStatus :=
  MkOAStatus None false None None None None None (Some "No DOI provided").

Definition failed_status (msg : string) : OAStatus :=
  MkOAStatus None false None None None None None (Some msg).

Definition not_found_status (cleanDOI : string) : OAStatus :=
  MkOAStatus (Some cleanDOI) false (Some "not_found") None None None None None.

Definition status_of_registry (d : RegistryData) : OAStatus :=
  MkOAStatus (reg_doi d) (reg_is_oa d) (reg_oa_status d)
    (l ← best_oa_location d; loc_url l)
    (l ← best_oa_location d; loc_host_type l)
    (l ← best_oa_location d; loc_version l)
    (l ← best_oa_location d; loc_license l)
    None.

Definition queryUnpaywall (doi : option string) : M OAStatus :=
  if negb (Js.truthy_opt doi) then mret no_doi_status
  else
    cached ← getCachedOAStatus doi;
    match cached with
    | Some cached => mret cached
    | None =>
        try_catch
          (let cleanDOI := cleanDOI (Js.show doi) in
           let url := unpaywall_url cleanDOI in
           '(status, body) ← fetch url;
           if negb ((200 <=? status) && (status <=? 299)) then
             if status =? 404 then
               let result := not_found_status cleanDOI in
               cacheOAStatus (Some cleanDOI) (Some result);;
               mret result
             else
               throw (MkExn "Error" ("Unpaywall API error: " ++ pretty status))
           else
             data ← response_json body;
             let oaData := status_of_registry data in
             cacheOAStatus (Some cleanDOI) (Some oaData);;
             mret oaData)
          (fun error =>
             if String.eqb (exn_name error) "AbortError"
             then mret (failed_status "Unpaywall API timeout")
             else mret (failed_status (exn_message error)))
    end.

(** ** Admission controller *)

Definition plain_decision (allowed : bool) (reason : string) (category : Category)
    (confidence : Confidence) : Decision :=
  MkDecision allowed reason category confidence None None None None None None None.

Definition whitelist_decision : Decision :=
  plain_decision true "Trusted open access source" whitelist_cat high.

Definition blacklist_decision : Decision :=
  MkDecision false
    "Content from subscription database - cannot verify open access status without DOI"
    blacklist_cat high
    (Some "Try finding an open access version on preprint servers or institutional repositories")
    None None None None None None.

Definition unknown_pdf_decision : Decision :=
  MkDecision false
    "PDF from unknown source - cannot verify copyright status"
    unknown_pdf medium
    (Some "Try accessing the article webpage instead of direct PDF, or check if available on open access repositories")
    None None None None None None.

Definition unknown_html_decision : Decision :=
  MkDecision true
    "Unknown source - could not verify copyright status"
    unknown_html low None
    (Some "Copyright status could not be verified. Please ensure you have the right to access this content.")
    None None None None None.

Definition verification_failed_decision (oaStatus : OAStatus) : Decision :=
  MkDecision false
    ("Could not verify open access status (" ++ Js.show (oa_error oaStatus) ++ ")")
    verification_failed low
    (Some "Check your internet connection and try again, or verify the article is open access manually")
    None None None None None None.

(** The [oa_verified] result; [oa_url], [oa_host] and [suggestion] are set only
    under [oaStatus.oa_url && oaStatus.oa_url !== url]. *)
Definition oa_verified_decision (oaStatus : OAStatus) (url doi : option string)
    : Decision :=
  let better :=
    Js.truthy_opt (oa_url oaStatus) && negb (bool_decide (oa_url oaStatus = url)) in
  MkDecision true
    ("Open access confirmed (" ++ Js.show (oa_status oaStatus) ++ ")")
    oa_verified high
    (if better
     then Some ("Open access version available at: " ++ Js.show (oa_url oaStatus))
     else None)
    None
    (oa_status oaStatus)
    doi
    (if better then oa_url oaStatus else None)
    (if better then host_type oaStatus else None)
    None.

Definition paywalled_decision (oaStatus : OAStatus) (doi : option string) : Decision :=
  MkDecision false
    ("Article is not openly accessible (status: "
     ++ (if Js.truthy_opt (oa_status oaStatus) then Js.show (oa_status oaStatus)
         else "paywalled") ++ ")")
    paywalled high
    (Some "Check for preprint versions on arXiv.org, bioRxiv, or contact the author for a copy")
    None None doi None None None.

Definition error_decision (error : Exn) : Decision :=
  MkDecision false
    ("Copyright verification failed: " ++ exn_message error)
    error_cat low None None None None None None
    (Some (exn_message error)).

(** [if (academicDatabases.whitelist.length === 0) await loadAcademicDatabases()] *)
Definition ensureDatabasesLoaded : M unit :=
  entries ← read whitelist;
  if (length entries =? 0)%nat then loadAcademicDatabases;; mret tt else mret tt.

(** [pageData.domain || new URL(url).hostname] *)
Definition domainOf (pageData : PageData) : M string :=
  if Js.truthy_opt (pd_domain pageData) then mret (Js.show (pd_domain pageData))
  else urlObj ← new_URL (Js.show (pd_url pageData)); mret (hostname urlObj).

(** [pageData.isPDF || pageData.contentType === 'pdf'] *)
Definition isPDFOf (pageData : PageData) : bool :=
  pd_isPDF pageData || bool_decide (pd_contentType pageData = Some "pdf").

(** Step 2: [if (!doi && isPDF) doi = extractDOIFromPDFUrl(url)] *)
Definition enrichDOI (pageData : PageData) : M (option string) :=
  let doi := pd_doi pageData in
  if negb (Js.truthy_opt doi) && isPDFOf pageData
  then extractDOIFromPDFUrl (pd_url pageData)
  else mret doi.

(** The [try] block of [checkCopyright]. *)
Definition checkCopyright_try (pageData : option PageData) : M Decision :=
  ensureDatabasesLoaded;;
  pageData ← match pageData with
             | Some pd => mret pd
             | None => throw (TypeError "Cannot read properties of undefined (reading 'url')")
             end;
  let url := pd_url pageData in
  domain ← domainOf pageData;
  let isPDF := isPDFOf pageData in
  (* Step 1: whitelist check *)
  whitelisted ← isWhitelisted domain;
  if whitelisted : bool then mret whitelist_decision
  else
    (* Step 2: extract DOI if not already present *)
    doi ← enrichDOI pageData;
    (* Step 3: cases without DOI *)
    if negb (Js.truthy_opt doi) then
      blacklisted ← isBlacklisted domain;
      if blacklisted : bool then mret blacklist_decision
      else if isPDF then mret unknown_pdf_decision
      else mret unknown_html_decision
    else
      (* Step 4: query Unpaywall *)
      oaStatus ← queryUnpaywall doi;
      if Js.truthy_opt (oa_error oaStatus) && negb (is_oa oaStatus)
      then mret (verification_failed_decision oaStatus)
      (* Step 5: process the result *)
      else if is_oa oaStatus then mret (oa_verified_decision oaStatus url doi)
      else mret (paywalled_decision oaStatus doi).

Definition checkCopyright (pageData : option PageData) : M Decision :=
  try_catch (checkCopyright_try pageData) (fun error => mret (error_decision error)).

(** ** DOI extraction from the page *)

(** [/^10\.\d{4,}\//], the test the page extractor applies to a candidate. *)
Definition doi_valid_re : Re.regex :=
  Re.seqs [ Re.lit "10."; Re.digits4; Re.ch "/" ].

Definition valid_doi (doi : string) : bool := Re.test_anchored doi_valid_re doi.

(** Synchronous code that may throw. *)
#[global] Instance Outcome_ret : MRet Outcome := fun A a => Ok a.

#[global] Instance Outcome_bind : MBind Outcome := fun A B f m =>
  match m with
  | Ok a => f a
  | Throw e => Throw e
  end.

(** A value [JSON.parse] returns.  Of a number only its truthiness is read. *)
#[local] Unset Elimination Schemes.
Inductive Json : Type :=
| JNull
| JBool (b : bool)
| JNumber (nonzero : bool)
| JString (s : string)
| JArray (items : list Json)
| JObject (fields : list (string * Json)).
#[local] Set Elimination Schemes.

(** What the extractor reads of the document, one field for each query of
    the source: the [content] of the first [meta] element with one of the
    names citation_doi, dc.identifier, DC.identifier ([None] when there is no
    such element); the parsed text of each script of type application/ld+json
    ([None] where [JSON.parse] throws); the [content] of the first [meta]
    element named prism.doi or prism:doi; for each of the seven selectors of
    strategy 4, in order, the text [el.textContent || el.innerText || ''] of the elements
    it finds; the [href] of the links whose address contains doi.org; the text
    [document.body?.textContent || '']; [window.location.href]; and the
    [content] of the [meta] element named citation_arxiv_id. *)
Record Document : Type := MkDocument {
  citationDOI : option string;
  jsonLdScripts : list (option Json);
  prismDOI : option string;
  doiElements : list (list string);
  doiLinks : list string;
  bodyText : string;
  location_href : string;
  arxivMeta : option string
}.

Fixpoint assoc (name : string) (fields : list (string * Json)) : option Json :=
  match fields with
  | [] => None
  | (k, v) :: rest => if String.eqb k name then Some v else assoc name rest
  end.

(** [obj[name]] for the names the extractor reads: a [TypeError] on [null],
    [undefined] on a value that is not an object or lacks the property. *)
Definition property (obj : Json) (name : string) : Outcome (option Json) :=
  match obj with
  | JNull => Throw (TypeError ("Cannot read properties of null (reading '" ++ name ++ "')"))
  | JObject fields => Ok (assoc name fields)
  | _ => Ok None
  end.

Definition json_truthy (v : option Json) : bool :=
  match v with
  | None | Some JNull => false
  | Some (JBool b) => b
  | Some (JNumber nonzero) => nonzero
  | Some (JString s) => Js.truthy s
  | Some (JArray _) | Some (JObject _) => true
  end.

Definition startsWith (s prefix : string) : bool :=
  Js.starts_with (Js.chars prefix) (Js.chars s).

(** [v && v.startsWith('10.')] followed by [return v]: the string when the
    test holds, a [TypeError] when [v] is truthy and not a string. *)
Definition truthy_doi_string (v : option Json) : Outcome (option string) :=
  if json_truthy v then
    match v with
    | Some (JString s) => Ok (if startsWith s "10." then Some s else None)
    | _ => Throw (TypeError "startsWith is not a function")
    end
  else Ok None.

(** [/10\.\d{4,}\/[^\s]+/] *)
Definition doi_text_re : Re.regex :=
  Re.seqs [ Re.lit "10."; Re.digits4; Re.ch "/"; Re.plus true Re.not_space ].

(** [return] from the middle of a function: the value [first] returned, or
    else what the rest of the body does. *)
Definition or_else (first : Outcome (option string))
    (rest : unit -> Outcome (option string)) : Outcome (option string) :=
  returned ← first;
  match returned with
  | Some v => Ok (Some v)
  | None => rest tt
  end.

(** The inner function [extractDOIFromStructuredData]; [None] is [null]. *)
Definition extractDOIFromStructuredData (obj : Json) : Outcome (option string) :=
  or_else
    (identifier ← property obj "identifier";
     if json_truthy identifier then
       match identifier with
       | Some (JString s) => Ok (if startsWith s "10." then Some s else None)
       | Some (JObject _ as o) | Some (JArray _ as o) =>
           or_else (value ← property o "value"; truthy_doi_string value)
             (fun _ => value ← property o "@value"; truthy_doi_string value)
       | _ => Ok None
       end
     else Ok None)
    (fun _ =>
       or_else
         (doi ← property obj "doi";
          match doi with
          | Some (JString s) =>
              if Js.truthy s
              then Ok (Some (Js.trim (Re.strip_anchored doi_prefix_re s)))
              else Ok None
          | _ => Ok None
          end)
         (fun _ =>
            id ← property obj "@id";
            match id with
            | Some (JString s) =>
                if Js.truthy s && Js.includes s "doi.org"
                then Ok (Re.match_text doi_text_re s)
                else Ok None
            | _ => Ok None
            end)).

(** [for (const item of data) { doi = f(item); if (doi) break; }] *)
Fixpoint first_truthy_doi (items : list Json) (doi : option string)
    : Outcome (option string) :=
  match items with
  | [] => Ok doi
  | item :: rest =>
      doi ← extractDOIFromStructuredData item;
      if Js.truthy_opt doi then Ok doi else first_truthy_doi rest doi
  end.

(** One script of strategy 2: the DOI it makes the extractor return, if any.
    An exception ends the work on this script only. *)
Definition doi_of_script (parsed : option Json) : option string :=
  let attempt : Outcome (option string) :=
    data ← match parsed with
           | Some data => Ok data
           | None => Throw (MkExn "SyntaxError" "Unexpected token in JSON")
           end;
    match data with
    | JArray items => first_truthy_doi items None
    | _ => extractDOIFromStructuredData data
    end in
  match attempt with
  | Ok doi => if Js.truthy_opt doi && valid_doi (Js.show doi) then doi else None
  | Throw _ => None
  end.

(** Strategies 1 and 3: the content of a [meta] element, cleaned and tested. *)
Definition doi_of_meta (content : option string) : option string :=
  if Js.truthy_opt content then
    let doi := Js.trim (Re.strip_anchored doi_prefix_re (Js.show content)) in
    if Js.truthy doi && valid_doi doi then Some doi else None
  else None.

Definition one_of (cs : list ascii) (c : ascii) : bool := existsb (Ascii.eqb c) cs.

(** Strategy 4, one element: [text.trim().match(/10\.\d{4,}\/[^\s]+/)] and
    [match[0].replace(/[,;]$/, '')]. *)
Definition doi_of_element (text : string) : option string :=
  match Re.match_text doi_text_re (Js.trim text) with
  | Some m => Some (Re.strip_last (one_of [","; ";"]%char) m)
  | None => None
  end.

(** [/doi\.org\/(10\.\d{4,}\/[^\s]+)/] *)
Definition doi_link_re : Re.regex :=
  Re.Seq (Re.lit "doi.org/") (Re.Group doi_text_re).

(** Strategy 5, one link. *)
Definition doi_of_link (href : string) : option string :=
  Re.match_group doi_link_re href.

(** [/\b(?:DOI|doi)[\s:]+?(10\.\d{4,}\/[^\s,;]+)/i], without the leading [\b] *)
Definition doi_label_re : Re.regex :=
  Re.seqs
    [ Re.Alt (Re.liti "DOI") (Re.liti "doi");
      Re.plus false (Re.Chr (fun c => Js.is_space c || Ascii.eqb c ":"));
      Re.Group
        (Re.seqs
           [ Re.lit "10."; Re.digits4; Re.ch "/";
             Re.plus true
               (Re.Chr (fun c => negb (Js.is_space c || one_of [","; ";"]%char c))) ]) ].

(** Strategy 6. *)
Definition doi_of_body (text : string) : option string :=
  match Re.match_group_boundary doi_label_re text with
  | Some g => Some (Re.strip_last (one_of [","; ";"; "."]%char) g)
  | None => None
  end.

(** [/arxiv\.org\/(?:abs|pdf)\/(\d+\.\d+)/i] *)
Definition arxiv_page_re : Re.regex :=
  Re.seqs
    [ Re.liti "arxiv.org/"; Re.Alt (Re.liti "abs") (Re.liti "pdf"); Re.ch "/";
      Re.Group (Re.seqs [ Re.plus true Re.digit; Re.ch "."; Re.plus true Re.digit ]) ].

(** Strategy 7. *)
Definition doi_of_arxiv (href : string) (arxivMeta : option string) : option string :=
  match Re.match_group arxiv_page_re href with
  | Some arxivId => Some ("10.48550/arXiv." ++ arxivId)
  | None =>
      if Js.truthy_opt arxivMeta
      then Some ("10.48550/arXiv." ++ Js.show arxivMeta)
      else None
  end.

(** The first result of [f] over a list: the loops of strategies 2, 4 and 5,
    which return from the function at the first DOI. *)
Fixpoint first_some {A} (f : A -> option string) (l : list A) : option string :=
  match l with
  | [] => None
  | x :: rest =>
      match f x with
      | Some doi => Some doi
      | None => first_some f rest
      end
  end.

(** The strategies in order; each one returns from the function when it finds
    a DOI. *)
Fixpoint first_strategy (strategies : list (unit -> option string)) : option string :=
  match strategies with
  | [] => None
  | strategy :: rest =>
      match strategy tt with
      | Some doi => Some doi
      | None => first_strategy rest
      end
  end.

Definition extractDOINonDestructive (document : Document) : option string :=
  first_strategy
    [ (fun _ => doi_of_meta (citationDOI document));
      (fun _ => first_some doi_of_script (jsonLdScripts document));
      (fun _ => doi_of_meta (prismDOI document));
      (fun _ => first_some doi_of_element (concat (doiElements document)));
      (fun _ => first_some doi_of_link (doiLinks document));
      (fun _ => doi_of_body (bodyText document));
      (fun _ => doi_of_arxiv (location_href document) (arxivMeta document)) ].

(** ** Vocabulary of the statements *)

(** The shape [/^10\.\d{4,}\//] asks for: [10.], four digits or more, a
    slash. *)
Definition doi_shaped (m : list ascii) : Prop :=
  exists ds rest,
    m = (Js.chars "10." ++ ds ++ "/"%char :: rest)%list
    /\ (4 <= length ds)%nat
    /\ forallb Js.is_digit ds = true.


(** A text [doi_shaped] with something after the slash. *)
Definition doi_shaped_then (p : ascii -> bool) (m : list ascii) : Prop :=
  exists ds rest,
    m = (Js.chars "10." ++ ds ++ "/"%char :: rest)%list
    /\ (4 <= length ds)%nat
    /\ forallb Js.is_digit ds = true
    /\ rest <> [] /\ forallb p rest = true.

(** A pattern whose last piece is the group [Group body], so that the capture
    of a match is in the language of [body]. *)
Definition captures (body r : Re.regex) : Prop :=
  forall A s cap (k : list ascii -> Re.capture -> option A) a,
    Re.run r s cap k = Some a ->
    exists g s', Re.denotes body g /\ k s' (Some g) = Some a.

(** The decision taken once the DOI of the page is known to be absent. *)
Definition no_doi_decision (dbs : AcademicDatabases) (domain : string) (isPDF : bool)
    : Decision :=
  if domain_in (blacklist dbs) domain then blacklist_decision
  else if isPDF then unknown_pdf_decision
  else unknown_html_decision.

(** The decision taken from the answer of the resolver. *)
Definition resolved_decision (oaStatus : OAStatus) (url doi : option string)
    : Decision :=
  if Js.truthy_opt (oa_error oaStatus) && negb (is_oa oaStatus)
  then verification_failed_decision oaStatus
  else if is_oa oaStatus then oa_verified_decision oaStatus url doi
  else paywalled_decision oaStatus doi.

(** The three invariants of a decision, relative to the [url] of the page. *)
Definition decision_invariant (url : option string) (d : Decision) : Prop :=
  (category d = whitelist_cat -> allowed d = true /\ confidence d = high)
  /\ (category d = blacklist_cat -> allowed d = false)
  /\ (forall u, d_oa_url d = Some u -> url <> Some u).

(** An event that writes a cache entry. *)
Definition is_cache_write (e : Event) : bool :=
  match e with EvStorageSet _ _ => true | _ => false end.

Definition is_fetch (e : Event) : bool :=
  match e with EvFetch _ => true | _ => false end.

(** Two states that differ at most in [academicDatabases.conditional] (and in
    the log, which no code reads). *)
Definition agree (st1 st2 : State) : Prop :=
  whitelist (academicDatabases st1) = whitelist (academicDatabases st2)
  /\ blacklist (academicDatabases st1) = blacklist (academicDatabases st2)
  /\ storage st1 = storage st2.

(** A computation is blind to the conditional set when, run from two such
    states, it gives the same outcome and leaves two such states. *)
Definition blind {A} (m : M A) : Prop :=
  forall w st1 st2, agree st1 st2 ->
    (m w st1).1 = (m w st2).1 /\ agree (m w st1).2 (m w st2).2.

(** ** A sample page state and world for the examples *)

Module Sample.

Definition databases : AcademicDatabases :=
  MkDatabases ["arxiv.org"; "plos.org"] ["ieeexplore.ieee.org"] ["researchgate.net"].

Definition state : State := MkState databases ∅ [].

(** How the platform parses the URLs the examples use. *)
Definition url_parse (u : string) : option Location :=
  if String.eqb u "https://example.com/paper?doi=hello"
  then Some (MkLocation "example.com" [("doi", "hello")])
  else if String.eqb u "https://unknown.example/article"
  then Some (MkLocation "unknown.example" [])
  else if String.eqb u "https://host.example/view.pdf?doi=doi:10.1234%2Fabc"
  then Some (MkLocation "host.example" [("doi", "doi:10.1234/abc")])
  else None.

Definition open_access : RegistryData :=
  MkRegistryData (Some "10.1234/abc") true (Some "gold")
    (Some (MkBestLocation (Some "https://repo.example/abc.pdf") (Some "repository")
             (Some "publishedVersion") (Some "cc-by"))).

(** A registry that answers every request with the same open-access record. *)
Definition world : World :=
  MkWorld 1700000000000 url_parse None
    (fun _ => FetchResponse 200 (BodyData open_access))
    (fun _ _ => false).

(** A registry that never answers in time. *)
Definition slow_world : World :=
  MkWorld 1700000000000 url_parse None (fun _ => FetchAborted) (fun _ _ => false).

End Sample.

(** ** Vocabulary of the further properties *)

(** The domains one value of the [blacklist] object contributes: an array
    gives its elements, an object the elements of those of its values that are
    arrays, anything else nothing. *)
Definition subcategory_domains (s : Subcategory) : list string :=
  match s with
  | SubArray domains => domains
  | SubOther => []
  end.

Definition category_domains (c : BlacklistCategory) : list string :=
  match c with
  | CatArray domains => domains
  | CatObject subs => concat (map subcategory_domains subs)
  | CatNull | CatOther => []
  end.

Definition flatten_blacklist (cats : list BlacklistCategory) : list string :=
  concat (map category_domains cats).

Definition null_free (cats : list BlacklistCategory) : bool :=
  forallb (fun c => match c with CatNull => false | _ => true end) cats.

Definition whitelist_of (allow : Allowlist) : list string :=
  (preprint_servers allow ++ open_access_publishers allow
   ++ open_access_repositories allow ++ institutional_repositories allow)%list.

(** [needle] occurs in [hay]. *)
Definition occurs_in (needle hay : list ascii) : Prop :=
  exists pre post, hay = (pre ++ needle ++ post)%list.

(** A pattern without a capturing group. *)
Fixpoint groupless (r : Re.regex) : bool :=
  match r with
  | Re.Eps | Re.Chr _ => true
  | Re.Seq r1 r2 | Re.Alt r1 r2 => groupless r1 && groupless r2
  | Re.Star _ r1 => groupless r1
  | Re.Group _ => false
  end.

(** A store none of whose entries records an error. *)
Definition cache_clean (store : gmap string CacheEntry) : Prop :=
  forall key entry, store !! key = Some entry -> oa_error (data entry) = None.

Definition count_events (p : Event -> bool) (evs : list Event) : nat :=
  length (List.filter p evs).

Definition is_load (e : Event) : bool :=
  match e with EvLoadDataset => true | _ => false end.

(** A read or a removal of one key of the store. *)
Definition is_cache_access (e : Event) : bool :=
  match e with EvStorageGet _ | EvStorageRemove _ => true | _ => false end.

(** The verdict and the confidence that go with each category. *)
Definition category_allowed (c : Category) : bool :=
  match c with
  | whitelist_cat | unknown_html | oa_verified => true
  | blacklist_cat | unknown_pdf | paywalled | verification_failed | error_cat => false
  end.

Definition category_confidence (c : Category) : Confidence :=
  match c with
  | whitelist_cat | blacklist_cat | oa_verified | paywalled => high
  | unknown_pdf => medium
  | unknown_html | verification_failed | error_cat => low
  end.

(** The message of the exception a registry answer makes the [try] block of
    [queryUnpaywall] end with, when it does: the abort of the timer, a failed
    connection, a status outside 2xx other than 404, a body that is not JSON
    or is [null]. *)
Definition failure_message (answer : FetchResult) : option string :=
  match answer with
  | FetchAborted => Some "Unpaywall API timeout"
  | FetchFailed msg => Some msg
  | FetchResponse status body =>
      if (200 <=? status) && (status <=? 299) then
        match body with
        | BodyInvalid msg => Some msg
        | BodyNull => Some "Cannot read properties of null (reading 'doi')"
        | BodyData _ => None
        end
      else if status =? 404 then None
      else Some ("Unpaywall API error: " ++ pretty status)
  end.

(** A computation that works on the domain lists only. *)
Definition lists_only {A} (m : M A) : Prop :=
  forall w st,
    storage (m w st).2 = storage st /\ events (m w st).2 = events st.

(** ** Cache maintenance *)

(** [chrome.storage.local.get(null)] and [.remove(keys)] with an array of
    keys.  [bulk_fails] tells which of the two the platform rejects; a
    rejected operation changes nothing.  The event log keeps the accesses to
    single keys, so the bulk operations leave no entry in it. *)
Definition storage_get_all (bulk_fails : StorageOp -> bool)
    : M (gmap string CacheEntry) := fun _ st =>
  if bulk_fails OpGet then (Throw storage_error, st) else (Ok (storage st), st).

Definition storage_remove_all (bulk_fails : StorageOp -> bool) (keys : list string)
    : M unit := fun _ st =>
  if bulk_fails OpRemove then (Throw storage_error, st)
  else (Ok tt, MkState (academicDatabases st) (foldr delete (storage st) keys)
                 (events st)).

(** [Object.keys(allStorage)]; the function uses the number of the keys and
    which ones they are, not their order. *)
Definition keys_of (store : gmap string CacheEntry) : list string :=
  (map_to_list store).*1.

Definition clearOACache (bulk_fails : StorageOp -> bool) : M nat :=
  try_catch
    (allStorage ← storage_get_all bulk_fails;
     let cacheKeys :=
       List.filter (fun key => startsWith key "oa_cache_") (keys_of allStorage) in
     (if (0 <? length cacheKeys)%nat
      then storage_remove_all bulk_fails cacheKeys
      else mret tt);;
     mret (length cacheKeys))
    (fun _ => mret 0%nat).

(** ** PDF page detection *)

(** What [isPDFPage] asks of the page: [window.location.href]; the number of
    [embed] elements of type application/pdf; whether the elements with the
    ids viewerContainer and outerContainer exist; and the number of children
    of [document.body], absent without a body. *)
Record PageProbe : Type := MkPageProbe {
  probe_href : string;
  pdfEmbeds : nat;
  viewerContainer : bool;
  outerContainer : bool;
  bodyChildren : option nat
}.

(** [s.endsWith(suffix)] *)
Definition endsWith (s suffix : string) : bool :=
  Js.starts_with (rev (Js.chars suffix)) (rev (Js.chars s)).

(** [r.test(s)], and [s.match(r)] read as a condition. *)
Definition re_test (r : Re.regex) (s : string) : bool :=
  match Re.search r (Js.chars s) with Some _ => true | None => false end.

(** [/\.pdf[?#]/i] *)
Definition pdf_params_re : Re.regex :=
  Re.Seq (Re.liti ".pdf") (Re.Chr (one_of ["?"; "#"]%char)).

(** [/arxiv\.org\/pdf\/[\d.]+\.pdf/] *)
Definition arxiv_direct_re : Re.regex :=
  Re.seqs [ Re.lit "arxiv.org/pdf/";
            Re.plus true (Re.Chr (fun c => Js.is_digit c || Ascii.eqb c "."));
            Re.lit ".pdf" ].

Definition isPDFPage (page : PageProbe) : bool :=
  let url := Js.toLowerCase (probe_href page) in
  if endsWith url ".pdf" then true
  else if re_test pdf_params_re url then true
  else
    let embedElements := pdfEmbeds page in
    if (0 <? embedElements)%nat then true
    else if viewerContainer page || outerContainer page then true
    else
      let bodyChildren :=
        match bodyChildren page with Some n => n | None => 0%nat end in
      if (bodyChildren <=? 3)%nat && (0 <? embedElements)%nat then true
      else if Js.includes url "arxiv.org/pdf/" && re_test arxiv_direct_re url
      then true
      else false.

(** ** Keywords and main content of a page *)

Module CONFIG.
Definition MIN_CONTENT_LENGTH : Z := 200.
Definition MAX_CONTENT_LENGTH : Z := 100000.
End CONFIG.

(** [s.length] *)
Definition length_of (s : string) : Z := Z.of_nat (String.length s).

(** [s.substring(0, n)] *)
Definition substring0 (s : string) (n : Z) : string :=
  Js.str (firstn (Z.to_nat n) (Js.chars s)).

(** The pieces of a text between the occurrences of [sep]. *)
Fixpoint split_chars (sep : ascii) (l : list ascii) : list (list ascii) :=
  match l with
  | [] => [[]]
  | c :: l' =>
      if Ascii.eqb c sep then [] :: split_chars sep l'
      else
        match split_chars sep l' with
        | piece :: pieces => (c :: piece) :: pieces
        | [] => [[c]]
        end
  end.

(** [s.split(sep)] for a separator of one character. *)
Definition split (s : string) (sep : ascii) : list string :=
  map Js.str (split_chars sep (Js.chars s)).

(** [[...new Set(l)]]: the distinct elements of [l] in the order of their
    first occurrence; [seen] holds the elements met so far. *)
Fixpoint distinct (seen l : list string) : list string :=
  match l with
  | [] => []
  | x :: l' =>
      if existsb (String.eqb x) seen then distinct seen l'
      else x :: distinct (x :: seen) l'
  end.

(** What [extractKeywordsNonDestructive] reads: the [content] of the [meta]
    element named keywords, absent without such an element; the [content] of
    the [meta] elements with the property article:tag; and the text
    [el.textContent || el.innerText || ''] of the elements of the tag
    selectors. *)
Record KeywordSources : Type := MkKeywordSources {
  keywordsMeta : option string;
  articleTags : list string;
  tagElements : list string
}.

(** [k && k.length > 2 && k.length < 50] *)
Definition keyword_sized (k : string) : bool :=
  Js.truthy k && (2 <? length_of k) && (length_of k <? 50).

Definition extractKeywordsNonDestructive (page : KeywordSources) : list string :=
  let from_meta :=
    match keywordsMeta page with
    | Some content => map Js.trim (split content ",")
    | None => []
    end in
  let from_tags := articleTags page in
  let from_elements := List.filter keyword_sized (map Js.trim (tagElements page)) in
  let keywords := (from_meta ++ from_tags ++ from_elements)%list in
  firstn 10 (List.filter keyword_sized (distinct [] keywords)).

(** [text.replace(/\s+/g, ' ')]: every maximal run of whitespace becomes one
    space; [in_run] tells that the character before was whitespace. *)
Fixpoint collapse_spaces (in_run : bool) (l : list ascii) : list ascii :=
  match l with
  | [] => []
  | c :: l' =>
      if Js.is_space c
      then if in_run then collapse_spaces true l'
           else " "%char :: collapse_spaces true l'
      else c :: collapse_spaces false l'
  end.

(** The end of [extractCleanTextDestructive]:
    [text.replace(/\s+/g, ' ').trim()], on the text
    [doc.body.innerText || doc.body.textContent || ''] of the parsed markup
    after the unwanted elements are removed. *)
Definition clean_text (text : string) : string :=
  Js.trim (Js.str (collapse_spaces false (Js.chars text))).

(** What [extractMainContentHybrid] reads: for each of the content selectors,
    in order, the text of each element it finds, and the text of
    [document.body], absent without a body; each text as [clean_text] expects
    it. *)
Record ContentSources : Type := MkContentSources {
  contentElements : list (list string);
  bodyElement : option string
}.

(** [if (content && content.length >= MIN) return content.substring(0, MAX)] *)
Definition long_enough (text : string) : option string :=
  let content := clean_text text in
  if Js.truthy content && (CONFIG.MIN_CONTENT_LENGTH <=? length_of content)
  then Some (substring0 content CONFIG.MAX_CONTENT_LENGTH)
  else None.

Definition extractMainContentHybrid (page : ContentSources) : string :=
  match first_some long_enough (concat (contentElements page)) with
  | Some content => content
  | None =>
      match bodyElement page with
      | Some body =>
          let bodyText := clean_text body in
          if CONFIG.MIN_CONTENT_LENGTH <=? length_of bodyText
          then substring0 bodyText CONFIG.MAX_CONTENT_LENGTH
          else ""
      | None => ""
      end
  end.

(** A text in which whitespace occurs only as single spaces. *)
Fixpoint single_spaced (l : list ascii) : bool :=
  match l with
  | [] => true
  | c :: l' =>
      (if Js.is_space c
       then Ascii.eqb c " "
            && match l' with c' :: _ => negb (Js.is_space c') | [] => true end
       else true)
      && single_spaced l'
  end.

(** ** Title of a page *)

(** What [extractTitleNonDestructive] reads: for each of the title selectors,
    in order, the text [el.textContent || el.innerText || ''] of the elements
    it finds, and [document.title]. *)
Record TitleSources : Type := MkTitleSources {
  titleElements : list (list string);
  documentTitle : string
}.

(** The first text that is not empty once trimmed, or the empty string. *)
Definition findMetadataBySelectorsNonDestructive (elements : list (list string))
    : string :=
  match first_some (fun el => let text := Js.trim el in
                              if Js.truthy text then Some text else None)
          (concat elements) with
  | Some text => text
  | None => ""
  end.

(** [.] of a pattern: any character but a line terminator. *)
Definition not_newline (c : ascii) : bool :=
  negb (one_of ["010"; "013"]%char c).

(** [\s*[-|]\s*.*] of [/\s*[-|—]\s*.*$/]; a dash outside Latin-1 does not
    occur in a text of the model. *)
Definition title_tail_re : Re.regex :=
  Re.seqs [ Re.Star true Re.space; Re.Chr (one_of ["-"; "|"]%char);
            Re.Star true Re.space; Re.Star true (Re.Chr not_newline) ].

(** [s.replace(r$, '')] for a pattern that ends with [$]: the text before the
    leftmost place from which [r] matches up to the end. *)
Fixpoint strip_to_end (r : Re.regex) (s : list ascii) : list ascii :=
  match Re.run r s None (fun rest _ => match rest with
                                        | [] => Some tt
                                        | _ :: _ => None
                                        end) with
  | Some _ => []
  | None =>
      match s with
      | [] => []
      | c :: s' => c :: strip_to_end r s'
      end
  end.

Definition extractTitleNonDestructive (page : TitleSources) : string :=
  let titleText := findMetadataBySelectorsNonDestructive (titleElements page) in
  if Js.truthy titleText then titleText
  else if Js.truthy (documentTitle page) then
    let title := Js.trim (documentTitle page) in
    let title := Js.trim (Js.str (strip_to_end title_tail_re (Js.chars title))) in
    if 3 <? length_of title then title else "Untitled"
  else "Untitled".

(** ** Basic facts about the monad and its primitives *)

Section Primitives.
Context {A B : Type}.

Lemma bind_ok (m : M A) (f : A -> M B) w st a st' :
  m w st = (Ok a, st') -> (m ≫= f) w st = f a w st'.
Proof. intros H. unfold mbind, M_bind. now rewrite H. Qed.

Lemma bind_throw (m : M A) (f : A -> M B) w st e st' :
  m w st = (Throw e, st') -> (m ≫= f) w st = (Throw e, st').
Proof. intros H. unfold mbind, M_bind. now rewrite H. Qed.

Lemma try_catch_ok (m : M A) h w st a st' :
  m w st = (Ok a, st') -> try_catch m h w st = (Ok a, st').
Proof. intros H. unfold try_catch. now rewrite H. Qed.

Lemma try_catch_throw (m : M A) h w st e st' :
  m w st = (Throw e, st') -> try_catch m h w st = h e w st'.
Proof. intros H. unfold try_catch. now rewrite H. Qed.

(** A [try] whose handler returns a value never throws. *)
Lemma try_catch_total (m : M A) (h : Exn -> A) w st :
  exists a st', try_catch m (fun e => mret (h e)) w st = (Ok a, st').
Proof.
  unfold try_catch. destruct (m w st) as [[a|e] st']; eauto.
Qed.
End Primitives.

Lemma loadAcademicDatabases_total w st :
  exists b st', loadAcademicDatabases w st = (Ok b, st').
Proof. apply (try_catch_total _ (fun _ => false)). Qed.

Lemma ensureDatabasesLoaded_total w st :
  exists st', ensureDatabasesLoaded w st = (Ok tt, st').
Proof.
  unfold ensureDatabasesLoaded, read, mbind, M_bind.
  destruct (length _ =? 0)%nat; [|eexists; reflexivity].
  destruct (loadAcademicDatabases_total w st) as (b & st' & ->).
  eexists; reflexivity.
Qed.

(** A whitelist that classifies some domain is not empty, so the lazy load
    is skipped. *)
Lemma ensureDatabasesLoaded_skip w st domain :
  domain_in (whitelist (academicDatabases st)) domain = true ->
  ensureDatabasesLoaded w st = (Ok tt, st).
Proof.
  unfold ensureDatabasesLoaded, read, mbind, M_bind, domain_in.
  destruct (whitelist (academicDatabases st)); simpl; [|reflexivity].
  now destruct (negb _).
Qed.

Lemma domainOf_state pd w st : (domainOf pd w st).2 = st.
Proof.
  unfold domainOf, new_URL, mbind, M_bind.
  destruct (Js.truthy_opt _); [reflexivity|].
  now destruct (url_parse w _).
Qed.

Lemma extractDOIFromPDFUrl_pure url w st :
  exists doi, extractDOIFromPDFUrl url w st = (Ok doi, st).
Proof.
  unfold extractDOIFromPDFUrl, try_catch.
  destruct (negb _); [eexists; reflexivity|].
  destruct (Re.match_group doiInPath_re _); [eexists; reflexivity|].
  destruct (Re.match_group springer_re _); [eexists; reflexivity|].
  destruct (Re.match_group arxiv_pdf_re _); [eexists; reflexivity|].
  unfold new_URL, mbind, M_bind.
  destruct (url_parse w _); [|eexists; reflexivity].
  destruct (Js.truthy_opt _); eexists; reflexivity.
Qed.

Lemma enrichDOI_pure pd w st :
  exists doi, enrichDOI pd w st = (Ok doi, st).
Proof.
  unfold enrichDOI. destruct (_ && _).
  - apply extractDOIFromPDFUrl_pure.
  - eexists; reflexivity.
Qed.

(** The queries of the classifier leave the state alone. *)
Lemma isWhitelisted_run domain w st :
  isWhitelisted domain w st
  = (Ok (domain_in (whitelist (academicDatabases st)) domain), st).
Proof. reflexivity. Qed.

Lemma isBlacklisted_run domain w st :
  isBlacklisted domain w st
  = (Ok (domain_in (blacklist (academicDatabases st)) domain), st).
Proof. reflexivity. Qed.

(** One run of the [try] block, step by step, for a page whose domain is
    known. *)
Lemma checkCopyright_try_steps w st pd st1 domain :
  ensureDatabasesLoaded w st = (Ok tt, st1) ->
  domainOf pd w st1 = (Ok domain, st1) ->
  checkCopyright_try (Some pd) w st =
    if domain_in (whitelist (academicDatabases st1)) domain
    then (Ok whitelist_decision, st1)
    else
      match (enrichDOI pd w st1).1 with
      | Ok doi =>
          if negb (Js.truthy_opt doi)
          then (Ok (no_doi_decision (academicDatabases st1) domain (isPDFOf pd)), st1)
          else
            match queryUnpaywall doi w st1 with
            | (Ok oaStatus, st2) =>
                (Ok (resolved_decision oaStatus (pd_url pd) doi), st2)
            | (Throw e, st2) => (Throw e, st2)
            end
      | Throw e => (Throw e, st1)
      end.
Proof.
  intros Hload Hdom. unfold checkCopyright_try.
  rewrite (bind_ok _ _ _ _ _ _ Hload).
  rewrite (bind_ok (mret pd) _ w st1 pd st1 eq_refl).
  rewrite (bind_ok _ _ _ _ _ _ Hdom).
  rewrite (bind_ok _ _ _ _ _ _ (isWhitelisted_run domain w st1)).
  destruct (domain_in (whitelist _) domain); [reflexivity|].
  destruct (enrichDOI_pure pd w st1) as [doi Hdoi].
  rewrite (bind_ok _ _ _ _ _ _ Hdoi), Hdoi. cbn [fst].
  destruct (negb (Js.truthy_opt doi)).
  - rewrite (bind_ok _ _ _ _ _ _ (isBlacklisted_run domain w st1)).
    unfold no_doi_decision.
    destruct (domain_in (blacklist _) domain); [reflexivity|].
    now destruct (isPDFOf pd).
  - unfold mbind at 1, M_bind at 1.
    destruct (queryUnpaywall doi w st1) as [[oaStatus|e] st2]; [|reflexivity].
    unfold resolved_decision.
    destruct (_ && _); [reflexivity|].
    now destruct (is_oa oaStatus).
Qed.

(** ** The properties *)

(** C1.  A page whose domain matches the whitelist in force (the set as it is
    after the lazy load at the head of [checkCopyright]) is allowed with
    category [whitelist] and confidence [high], whatever its DOI and content
    type; the run ends in the state the load left, so neither the cache nor
    the registry has been touched. *)
Theorem checkCopyright_whitelisted (w : World) (st : State) (pd : PageData)
    (domain : string) :
  let st1 := (ensureDatabasesLoaded w st).2 in
  (domainOf pd w st1).1 = Ok domain ->
  domain_in (whitelist (academicDatabases st1)) domain = true ->
  exists d,
    checkCopyright (Some pd) w st = (Ok d, st1)
    /\ allowed d = true /\ category d = whitelist_cat /\ confidence d = high.
Proof.
  intros st1 Hdom Hwl.
  destruct (ensureDatabasesLoaded_total w st) as [st1' Hload].
  assert (st1 = st1') as <- by (subst st1; now rewrite Hload).
  assert (domainOf pd w st1 = (Ok domain, st1)) as Hdom'.
  { rewrite (surjective_pairing (domainOf pd w st1)), Hdom. f_equal.
    apply domainOf_state. }
  exists whitelist_decision. split; [|repeat split].
  unfold checkCopyright. apply try_catch_ok.
  rewrite (checkCopyright_try_steps _ _ _ _ _ Hload Hdom'). now rewrite Hwl.
Qed.

Lemma checkCopyright_whitelisted_witness :
  exists d,
    checkCopyright
      (Some (MkPageData (Some "https://arxiv.org/pdf/2301.00001.pdf")
               (Some "ArXiv.org") (Some "10.1234/abc") true (Some "pdf")))
      Sample.world Sample.state = (Ok d, Sample.state)
    /\ allowed d = true /\ category d = whitelist_cat /\ confidence d = high.
Proof.
  apply (checkCopyright_whitelisted Sample.world Sample.state _ "ArXiv.org");
    reflexivity.
Defined.

(** C2.  A page whose domain is not whitelisted and that has no DOI after the
    enrichment step is blocked as [blacklist] with confidence [high] when its
    domain is blacklisted, else blocked as [unknown_pdf] with confidence
    [medium] when it is a PDF, else allowed as [unknown_html] with confidence
    [low] and a warning. *)
Theorem checkCopyright_without_doi (w : World) (st : State) (pd : PageData)
    (domain : string) :
  let st1 := (ensureDatabasesLoaded w st).2 in
  (domainOf pd w st1).1 = Ok domain ->
  domain_in (whitelist (academicDatabases st1)) domain = false ->
  Js.truthy_opt (pd_doi pd) = false ->
  (isPDFOf pd = true -> (extractDOIFromPDFUrl (pd_url pd) w st1).1 = Ok None) ->
  exists d,
    checkCopyright (Some pd) w st = (Ok d, st1)
    /\ if domain_in (blacklist (academicDatabases st1)) domain
       then allowed d = false /\ category d = blacklist_cat /\ confidence d = high
       else if isPDFOf pd
       then allowed d = false /\ category d = unknown_pdf /\ confidence d = medium
       else allowed d = true /\ category d = unknown_html /\ confidence d = low
            /\ is_Some (warning d).
Proof.
  intros st1 Hdom Hwl Hdoi Hpdf.
  destruct (ensureDatabasesLoaded_total w st) as [st1' Hload].
  assert (st1 = st1') as <- by (subst st1; now rewrite Hload).
  assert (domainOf pd w st1 = (Ok domain, st1)) as Hdom'.
  { rewrite (surjective_pairing (domainOf pd w st1)), Hdom. f_equal.
    apply domainOf_state. }
  assert (exists doi, (enrichDOI pd w st1).1 = Ok doi /\ Js.truthy_opt doi = false)
    as (doi & Hen & Hfalsy).
  { unfold enrichDOI. rewrite Hdoi. cbn [negb andb].
    destruct (isPDFOf pd).
    - exists None. split; [now apply Hpdf|reflexivity].
    - exists (pd_doi pd). split; [reflexivity|assumption]. }
  exists (no_doi_decision (academicDatabases st1) domain (isPDFOf pd)). split.
  - unfold checkCopyright. apply try_catch_ok.
    rewrite (checkCopyright_try_steps _ _ _ _ _ Hload Hdom'), Hwl, Hen, Hfalsy.
    reflexivity.
  - unfold no_doi_decision.
    destruct (domain_in (blacklist _) domain); [now repeat split|].
    destruct (isPDFOf pd); repeat split. now eexists.
Qed.

Lemma checkCopyright_without_doi_witness :
  exists d,
    checkCopyright
      (Some (MkPageData (Some "https://unknown.example/article") None None false
               (Some "web")))
      Sample.world Sample.state = (Ok d, Sample.state)
    /\ allowed d = true /\ category d = unknown_html /\ confidence d = low
    /\ is_Some (warning d).
Proof.
  apply (checkCopyright_without_doi Sample.world Sample.state
           (MkPageData (Some "https://unknown.example/article") None None false
              (Some "web")) "unknown.example");
    first [reflexivity | discriminate].
Defined.

(** The other two branches of C2 on concrete pages: the scenario of the
    specification (a PDF on a blacklisted host whose URL carries no DOI) and a
    PDF on an unknown host. *)
Example checkCopyright_blacklisted_pdf :
  (checkCopyright
     (Some (MkPageData (Some "https://ieeexplore.ieee.org/document/123.pdf")
              (Some "ieeexplore.ieee.org") None true (Some "pdf")))
     Sample.world Sample.state).1 = Ok blacklist_decision.
Proof. vm_compute. reflexivity. Qed.

Example checkCopyright_unknown_pdf :
  (checkCopyright
     (Some (MkPageData (Some "https://unknown.example/files/report.pdf")
              (Some "unknown.example") None true (Some "pdf")))
     Sample.world Sample.state).1 = Ok unknown_pdf_decision.
Proof. vm_compute. reflexivity. Qed.

(** C4.  [checkCopyright] returns a decision on every argument, in every world
    and state; when its [try] block throws, the decision is the [error] one:
    not allowed, confidence [low]. *)
Theorem checkCopyright_never_throws (w : World) (st : State)
    (pageData : option PageData) :
  exists d st',
    checkCopyright pageData w st = (Ok d, st')
    /\ forall e st'',
         checkCopyright_try pageData w st = (Throw e, st'') ->
         d = error_decision e
         /\ allowed d = false /\ category d = error_cat /\ confidence d = low.
Proof.
  unfold checkCopyright, try_catch.
  destruct (checkCopyright_try pageData w st) as [[d|e] st'].
  - exists d, st'. split; [reflexivity|]. intros e st'' [=].
  - exists (error_decision e), st'. split; [reflexivity|].
    intros e' st'' [= <- <-]. now repeat split.
Qed.

Lemma checkCopyright_never_throws_witness :
  exists d st',
    checkCopyright None Sample.world Sample.state = (Ok d, st')
    /\ allowed d = false /\ category d = error_cat /\ confidence d = low.
Proof.
  destruct (checkCopyright_never_throws Sample.world Sample.state None)
    as (d & st' & Hrun & Hfault).
  exists d, st'. split; [exact Hrun|].
  exact (proj2 (Hfault _ _ eq_refl)).
Defined.

(** Faults the [try] block really raises: a missing argument, and a page
    without a domain whose URL does not parse. *)
Example checkCopyright_null_pageData :
  (checkCopyright None Sample.world Sample.state).1
  = Ok (error_decision (TypeError "Cannot read properties of undefined (reading 'url')")).
Proof. reflexivity. Qed.

Example checkCopyright_invalid_url :
  (checkCopyright (Some (MkPageData (Some "not a url") None None false None))
     Sample.world Sample.state).1
  = Ok (error_decision (TypeError "Failed to construct 'URL': Invalid URL")).
Proof. reflexivity. Qed.

Section DecisionInvariant.
Variable url : option string.

Lemma whitelist_decision_invariant : decision_invariant url whitelist_decision.
Proof. repeat split; discriminate. Qed.

Lemma no_doi_decision_invariant dbs domain isPDF :
  decision_invariant url (no_doi_decision dbs domain isPDF).
Proof.
  unfold no_doi_decision.
  destruct (domain_in _ _); [|destruct isPDF]; repeat split; discriminate.
Qed.

Lemma error_decision_invariant e : decision_invariant url (error_decision e).
Proof. repeat split; discriminate. Qed.

Lemma resolved_decision_invariant oaStatus doi :
  decision_invariant url (resolved_decision oaStatus url doi).
Proof.
  unfold resolved_decision.
  destruct (_ && _); [repeat split; discriminate|].
  destruct (is_oa oaStatus); [|repeat split; discriminate].
  split; [discriminate|]. split; [discriminate|].
  intros u. cbn [d_oa_url oa_verified_decision].
  destruct (Js.truthy_opt (oa_url oaStatus)); [|discriminate].
  cbn [andb]. case_bool_decide as Hne; [discriminate|].
  cbn [negb]. intros Hu Heq. apply Hne. congruence.
Qed.
End DecisionInvariant.

(** C5.  Every decision [checkCopyright] returns has the three invariants: a
    [whitelist] decision is allowed with confidence [high], a [blacklist]
    decision is not allowed, and an [oa_url] that is present differs from the
    [url] of the page. *)
Theorem checkCopyright_invariants (w : World) (st : State)
    (pageData : option PageData) (d : Decision) (st' : State) :
  checkCopyright pageData w st = (Ok d, st') ->
  decision_invariant (pageData ≫= pd_url) d.
Proof.
  unfold checkCopyright, try_catch.
  destruct (checkCopyright_try pageData w st) as [[d0|e] st0] eqn:Htry;
    [|intros [= <- _]; apply error_decision_invariant].
  intros [= <- <-].
  destruct (ensureDatabasesLoaded_total w st) as [st1 Hload].
  destruct pageData as [pd|].
  - destruct (domainOf pd w st1) as [[domain|e] st1'] eqn:Hdom.
    + assert (st1' = st1) as -> by (now rewrite <- (domainOf_state pd w st1), Hdom).
      rewrite (checkCopyright_try_steps _ _ _ _ _ Hload Hdom) in Htry.
      cbn [mbind option_bind].
      destruct (domain_in (whitelist _) domain).
      { injection Htry as <- _. apply whitelist_decision_invariant. }
      destruct ((enrichDOI pd w st1).1) as [doi|e]; [|discriminate].
      destruct (negb (Js.truthy_opt doi)).
      { injection Htry as <- _. apply no_doi_decision_invariant. }
      destruct (queryUnpaywall doi w st1) as [[oaStatus|e] st2]; [|discriminate].
      injection Htry as <- _. apply resolved_decision_invariant.
    + unfold checkCopyright_try in Htry.
      rewrite (bind_ok _ _ _ _ _ _ Hload) in Htry.
      rewrite (bind_ok (mret pd) _ w st1 pd st1 eq_refl) in Htry.
      rewrite (bind_throw _ _ _ _ _ _ Hdom) in Htry. discriminate.
  - unfold checkCopyright_try in Htry.
    rewrite (bind_ok _ _ _ _ _ _ Hload) in Htry. discriminate.
Qed.

Lemma checkCopyright_invariants_witness :
  decision_invariant (Some "https://publisher.example/abc")
    (oa_verified_decision
       (status_of_registry Sample.open_access)
       (Some "https://publisher.example/abc") (Some "10.1234/abc")).
Proof.
  refine (checkCopyright_invariants Sample.world Sample.state
            (Some (MkPageData (Some "https://publisher.example/abc")
                     (Some "publisher.example") (Some "10.1234/abc") false
                     (Some "web")))
            _ (MkState Sample.databases _ _) _).
  vm_compute. reflexivity.
Defined.

(** ** Independence from the conditional set *)

Create HintDb blind.

Section Blind.
Context {A B : Type}.

Lemma blind_ret (a : A) : blind (mret a).
Proof. intros w st1 st2 H. now split. Qed.

Lemma blind_throw (e : Exn) : blind (throw e : M A).
Proof. intros w st1 st2 H. now split. Qed.

Lemma blind_ask (f : World -> A) : blind (ask f).
Proof. intros w st1 st2 H. now split. Qed.

Lemma blind_bind (m : M A) (f : A -> M B) :
  blind m -> (forall a, blind (f a)) -> blind (m ≫= f).
Proof.
  intros Hm Hf w st1 st2 H. unfold mbind, M_bind.
  destruct (Hm w st1 st2 H) as [Hres Hst].
  destruct (m w st1) as [[a1|e1] st1'], (m w st2) as [[a2|e2] st2'];
    cbn [fst snd] in *; try discriminate.
  - injection Hres as ->. apply Hf; assumption.
  - injection Hres as ->. cbn. split; [reflexivity|assumption].
Qed.

Lemma blind_try_catch (m : M A) (h : Exn -> M A) :
  blind m -> (forall e, blind (h e)) -> blind (try_catch m h).
Proof.
  intros Hm Hh w st1 st2 H. unfold try_catch.
  destruct (Hm w st1 st2 H) as [Hres Hst].
  destruct (m w st1) as [[a1|e1] st1'], (m w st2) as [[a2|e2] st2'];
    cbn [fst snd] in *; try discriminate.
  - cbn. split; assumption.
  - injection Hres as ->. apply Hh; assumption.
Qed.
End Blind.

Lemma blind_emit e : blind (emit e).
Proof. intros w st1 st2 H. now split. Qed.

Lemma blind_read_whitelist : blind (read whitelist).
Proof. intros w st1 st2 (Hw & Hb & Hs). cbn. now rewrite Hw. Qed.

Lemma blind_read_blacklist : blind (read blacklist).
Proof. intros w st1 st2 (Hw & Hb & Hs). cbn. now rewrite Hb. Qed.

Lemma blind_assign_whitelist l : blind (assign_whitelist l).
Proof. intros w st1 st2 (Hw & Hb & Hs). now repeat split. Qed.

Lemma blind_assign_blacklist l : blind (assign_blacklist l).
Proof. intros w st1 st2 (Hw & Hb & Hs). now repeat split. Qed.

(** The one place that touches the conditional set writes it and reads
    nothing back. *)
Lemma blind_assign_conditional l : blind (assign_conditional l).
Proof. intros w st1 st2 (Hw & Hb & Hs). now repeat split. Qed.

Lemma blind_storage_get key : blind (storage_get key).
Proof.
  intros w st1 st2 (Hw & Hb & Hs). unfold storage_get.
  destruct (storage_fails w OpGet key); cbn; rewrite ?Hs; now repeat split.
Qed.

Lemma blind_storage_remove key : blind (storage_remove key).
Proof.
  intros w st1 st2 (Hw & Hb & Hs). unfold storage_remove.
  destruct (storage_fails w OpRemove key); cbn; rewrite ?Hs; now repeat split.
Qed.

Lemma blind_storage_set key entry : blind (storage_set key entry).
Proof.
  intros w st1 st2 (Hw & Hb & Hs). unfold storage_set.
  destruct (storage_fails w OpSet key); cbn; rewrite ?Hs; now repeat split.
Qed.

Lemma blind_new_URL u : blind (new_URL u).
Proof.
  intros w st1 st2 H. unfold new_URL. now destruct (url_parse w u).
Qed.

#[global] Hint Resolve blind_ret blind_throw blind_ask blind_emit
  blind_read_whitelist blind_read_blacklist blind_assign_whitelist
  blind_assign_blacklist blind_assign_conditional blind_storage_get
  blind_storage_remove blind_storage_set blind_new_URL : blind.

(** Splits a computation along its binds, handlers and case distinctions and
    closes the leaves with the facts about the primitives. *)
Ltac blind_step :=
  match goal with
  | |- blind (_ ≫= _) => apply blind_bind; [|intros ?]
  | |- blind (try_catch _ _) => apply blind_try_catch; [|intros ?]
  | |- blind (if ?b then _ else _) => destruct b
  | |- blind (match ?x with _ => _ end) => destruct x
  | |- blind _ => solve [auto with blind]
  end.

Ltac blind_auto := repeat blind_step.

Lemma blind_push_blacklist domains : blind (push_blacklist domains).
Proof. unfold push_blacklist. blind_auto. Qed.
#[global] Hint Resolve blind_push_blacklist : blind.

Lemma blind_push_subcategories subs : blind (push_subcategories subs).
Proof.
  induction subs as [|[domains|] rest IH]; cbn [push_subcategories]; blind_auto.
Qed.
#[global] Hint Resolve blind_push_subcategories : blind.

Lemma blind_push_categories cats : blind (push_categories cats).
Proof.
  induction cats as [|[domains|subs| |] rest IH]; cbn [push_categories]; blind_auto.
Qed.
#[global] Hint Resolve blind_push_categories : blind.

Lemma blind_loadAcademicDatabases : blind loadAcademicDatabases.
Proof. unfold loadAcademicDatabases. blind_auto. Qed.
#[global] Hint Resolve blind_loadAcademicDatabases : blind.

Lemma blind_extractDOIFromPDFUrl url : blind (extractDOIFromPDFUrl url).
Proof. unfold extractDOIFromPDFUrl. blind_auto. Qed.

Lemma blind_getCachedOAStatus doi : blind (getCachedOAStatus doi).
Proof. unfold getCachedOAStatus. blind_auto. Qed.

Lemma blind_cacheOAStatus doi oaData : blind (cacheOAStatus doi oaData).
Proof. unfold cacheOAStatus. blind_auto. Qed.

Lemma blind_fetch url : blind (fetch url).
Proof. unfold fetch. blind_auto. Qed.

Lemma blind_response_json body : blind (response_json body).
Proof. unfold response_json. blind_auto. Qed.

#[global] Hint Resolve blind_extractDOIFromPDFUrl blind_getCachedOAStatus
  blind_cacheOAStatus blind_fetch blind_response_json : blind.

Lemma blind_queryUnpaywall doi : blind (queryUnpaywall doi).
Proof. unfold queryUnpaywall. blind_auto. Qed.

Lemma blind_isWhitelisted domain : blind (isWhitelisted domain).
Proof. unfold isWhitelisted. blind_auto. Qed.

Lemma blind_isBlacklisted domain : blind (isBlacklisted domain).
Proof. unfold isBlacklisted. blind_auto. Qed.

#[global] Hint Resolve blind_queryUnpaywall blind_isWhitelisted
  blind_isBlacklisted : blind.

Lemma blind_checkCopyright pageData : blind (checkCopyright pageData).
Proof.
  unfold checkCopyright, checkCopyright_try, ensureDatabasesLoaded, domainOf,
    enrichDOI.
  blind_auto.
Qed.

(** C9.  With the whitelist, the blacklist and everything else held fixed,
    [checkCopyright] returns the same decision for any two values of the
    conditional set: the pipeline never reads it. *)
Theorem checkCopyright_ignores_conditional (w : World)
    (pageData : option PageData) (wl bl cond1 cond2 : list string)
    (cache : gmap string CacheEntry) (log : list Event) :
  let run1 := checkCopyright pageData w (MkState (MkDatabases wl bl cond1) cache log) in
  let run2 := checkCopyright pageData w (MkState (MkDatabases wl bl cond2) cache log) in
  run1.1 = run2.1
  /\ whitelist (academicDatabases run1.2) = whitelist (academicDatabases run2.2)
  /\ blacklist (academicDatabases run1.2) = blacklist (academicDatabases run2.2)
  /\ storage run1.2 = storage run2.2.
Proof.
  apply blind_checkCopyright. now repeat split.
Qed.

(** The classifier for that set does depend on it; it is just not called. *)
Example isConditional_reads_conditional :
  (isConditional "www.researchgate.net" Sample.world Sample.state).1 = Ok true
  /\ (isConditional "www.researchgate.net" Sample.world
        (MkState (MkDatabases ["arxiv.org"] [] []) ∅ [])).1 = Ok false.
Proof. split; reflexivity. Qed.

(** ** The resolver and its cache *)

(** C10.  Without a DOI ([null], [undefined] or the empty string)
    [queryUnpaywall] answers [{ is_oa: false, error: 'No DOI provided' }] at
    once: the state it leaves is the state it found, so nothing was read from
    or written to the cache and no request was logged. *)
Theorem queryUnpaywall_no_doi (w : World) (st : State) (doi : option string) :
  doi = None \/ doi = Some "" ->
  queryUnpaywall doi w st = (Ok no_doi_status, st)
  /\ is_oa no_doi_status = false
  /\ oa_error no_doi_status = Some "No DOI provided".
Proof. intros [-> | ->]; repeat split. Qed.

Lemma queryUnpaywall_no_doi_witness :
  (queryUnpaywall None Sample.world Sample.state = (Ok no_doi_status, Sample.state)
   /\ is_oa no_doi_status = false
   /\ oa_error no_doi_status = Some "No DOI provided")
  /\ (queryUnpaywall (Some "") Sample.slow_world Sample.state
      = (Ok no_doi_status, Sample.state)
      /\ is_oa no_doi_status = false
      /\ oa_error no_doi_status = Some "No DOI provided").
Proof.
  split.
  - apply (queryUnpaywall_no_doi Sample.world Sample.state None). now left.
  - apply (queryUnpaywall_no_doi Sample.slow_world Sample.state (Some "")). now right.
Defined.

(** The falsy DOIs are exactly those two. *)
Lemma truthy_opt_false doi :
  Js.truthy_opt doi = false <-> doi = None \/ doi = Some "".
Proof.
  split.
  - destruct doi as [[|c s]|]; cbn; intros H; try discriminate; auto.
  - now intros [-> | ->].
Qed.

(** What a cache lookup does to the state: it returns without throwing, logs no
    write and no request, leaves the databases alone, and changes the store
    at most by deleting the key it read. *)
Lemma getCachedOAStatus_effects doi w st :
  exists r evs st',
    getCachedOAStatus doi w st = (Ok r, st')
    /\ events st' = (events st ++ evs)%list
    /\ forallb (fun e => negb (is_cache_write e || is_fetch e)) evs = true
    /\ academicDatabases st' = academicDatabases st
    /\ (storage st' = storage st \/ storage st' = delete (cacheKey doi) (storage st))
    /\ ((forall op key, storage_fails w op key = false) -> r = None ->
        Js.truthy_opt doi = true -> storage st' !! cacheKey doi = None).
Proof.
  unfold getCachedOAStatus.
  destruct (Js.truthy_opt doi) eqn:Hdoi; cbn [negb].
  2:{ exists None, [], st. rewrite app_nil_r. repeat split; auto. discriminate. }
  unfold try_catch, storage_get, storage_remove, ask, mbind, M_bind.
  destruct (storage_fails w OpGet (cacheKey doi)) eqn:Hget.
  { eexists None, [_], _. cbn. repeat split; auto.
    intros Hok. now rewrite Hok in Hget. }
  destruct (storage st !! cacheKey doi) as [cached|] eqn:Hlook.
  2:{ eexists None, [_], _. cbn. repeat split; auto. }
  cbn [storage events academicDatabases].
  destruct (now w - timestamp cached <? COPYRIGHT_CONFIG.CACHE_DURATION).
  { eexists (Some _), [_], _. cbn. repeat split; auto. discriminate. }
  cbn [storage events academicDatabases].
  destruct (storage_fails w OpRemove (cacheKey doi)) eqn:Hrem.
  { eexists None, [_; _], _. cbn. rewrite <- app_assoc. repeat split; auto.
    intros Hok. now rewrite Hok in Hrem. }
  eexists None, [_; _], _. cbn. rewrite <- app_assoc. repeat split; auto.
  intros _ _ _. apply lookup_delete_eq.
Qed.

(** A request that the registry does not answer in time. *)
Lemma fetch_aborted url w st :
  registry w url = FetchAborted ->
  fetch url w st
  = (Throw (MkExn "AbortError" "The user aborted a request."),
     MkState (academicDatabases st) (storage st) (events st ++ [EvFetch url])).
Proof.
  intros H. unfold fetch, emit, ask, mbind, M_bind, throw. cbn. now rewrite H.
Qed.

(** C6.  Take a DOI for which the cache lookup misses, so that the registry is
    asked, and let the request time out.  Then [queryUnpaywall] returns a record
    with [is_oa = false] and an error message; it logs no cache write and the
    store changes at most by the deletion of the expired entry the lookup
    read, so with a working store the key of the DOI is absent afterwards and
    the next lookup misses again; and a [checkCopyright] that reaches this
    query blocks the page as [verification_failed] with confidence [low]. *)
Theorem queryUnpaywall_timeout (w : World) (st : State) (doi : option string) :
  Js.truthy_opt doi = true ->
  (getCachedOAStatus doi w st).1 = Ok None ->
  registry w (unpaywall_url (cleanDOI (Js.show doi))) = FetchAborted ->
  exists r st' evs,
    queryUnpaywall doi w st = (Ok r, st')
    /\ is_oa r = false /\ oa_error r = Some "Unpaywall API timeout"
    /\ events st' = (events st ++ evs)%list
    /\ forallb (fun e => negb (is_cache_write e)) evs = true
    /\ (storage st' = storage st \/ storage st' = delete (cacheKey doi) (storage st))
    /\ ((forall op key, storage_fails w op key = false) ->
        storage st' !! cacheKey doi = None
        /\ forall w', (getCachedOAStatus doi w' st').1 = Ok None)
    /\ forall st0 pd domain,
         (ensureDatabasesLoaded w st0).2 = st ->
         (domainOf pd w st).1 = Ok domain ->
         domain_in (whitelist (academicDatabases st)) domain = false ->
         (enrichDOI pd w st).1 = Ok doi ->
         exists d,
           checkCopyright (Some pd) w st0 = (Ok d, st')
           /\ allowed d = false /\ category d = verification_failed
           /\ confidence d = low.
Proof.
  intros Hdoi Hmiss Habort.
  destruct (getCachedOAStatus_effects doi w st)
    as (r0 & evs & stc & Hrun & Hev & Hnw & Hdb & Hsto & Habs).
  rewrite Hrun in Hmiss. cbn [fst] in Hmiss. injection Hmiss as ->.
  set (url := unpaywall_url (cleanDOI (Js.show doi))) in *.
  set (st' := MkState (academicDatabases stc) (storage stc)
                (events stc ++ [EvFetch url])).
  assert (queryUnpaywall doi w st
          = (Ok (failed_status "Unpaywall API timeout"), st')) as Hq.
  { unfold queryUnpaywall. rewrite Hdoi. cbn [negb].
    rewrite (bind_ok _ _ _ _ _ _ Hrun).
    unfold try_catch. cbv zeta.
    rewrite (bind_throw _ _ _ _ _ _ (fetch_aborted _ w stc Habort)).
    reflexivity. }
  exists (failed_status "Unpaywall API timeout"), st', (evs ++ [EvFetch url])%list.
  split; [exact Hq|]. split; [reflexivity|]. split; [reflexivity|].
  split; [cbn; now rewrite Hev, app_assoc|].
  split.
  { rewrite forallb_app. cbn. rewrite andb_true_r.
    apply forallb_forall. intros e He.
    apply (proj1 (forallb_forall _ _) Hnw) in He.
    now destruct (is_cache_write e). }
  split; [exact Hsto|]. split.
  - intros Hok. assert (storage st' !! cacheKey doi = None) as Hnone
      by (now apply Habs).
    split; [exact Hnone|]. intros w'.
    unfold getCachedOAStatus. rewrite Hdoi. cbn [negb].
    unfold try_catch, storage_get, mbind, M_bind.
    destruct (storage_fails w' OpGet (cacheKey doi)); [reflexivity|].
    now rewrite Hnone.
  - intros st0 pd domain Hload Hdom Hwl Hen.
    destruct (ensureDatabasesLoaded_total w st0) as [st1 Hload'].
    assert (st1 = st) as -> by (now rewrite Hload' in Hload).
    assert (domainOf pd w st = (Ok domain, st)) as Hdom'.
    { rewrite (surjective_pairing (domainOf pd w st)), Hdom. f_equal.
      apply domainOf_state. }
    exists (verification_failed_decision (failed_status "Unpaywall API timeout")).
    split; [|now repeat split].
    unfold checkCopyright. apply try_catch_ok.
    rewrite (checkCopyright_try_steps _ _ _ _ _ Hload' Hdom'), Hwl, Hen, Hdoi, Hq.
    reflexivity.
Qed.

Lemma queryUnpaywall_timeout_witness :
  exists d st',
    checkCopyright
      (Some (MkPageData (Some "https://publisher.example/abc")
               (Some "publisher.example") (Some "10.1234/abc") false (Some "web")))
      Sample.slow_world Sample.state = (Ok d, st')
    /\ allowed d = false /\ category d = verification_failed /\ confidence d = low
    /\ storage st' !! "oa_cache_10.1234/abc" = None.
Proof.
  destruct (queryUnpaywall_timeout Sample.slow_world Sample.state
              (Some "10.1234/abc") eq_refl eq_refl eq_refl)
    as (r & st' & evs & _ & _ & _ & _ & _ & _ & Habsent & Hcheck).
  destruct (Hcheck Sample.state
              (MkPageData (Some "https://publisher.example/abc")
                 (Some "publisher.example") (Some "10.1234/abc") false (Some "web"))
              "publisher.example" eq_refl eq_refl eq_refl eq_refl)
    as (d & Hd & Hallowed & Hcat & Hconf).
  exists d, st'. repeat split; try assumption.
  apply Habsent. reflexivity.
Defined.

(** A lookup that finds an entry younger than [CACHE_DURATION] answers from
    the cache: one read of the store, no request, no write. *)
Lemma queryUnpaywall_cache_hit (w : World) (st : State) (doi : option string)
    (entry : CacheEntry) :
  Js.truthy_opt doi = true ->
  storage_fails w OpGet (cacheKey doi) = false ->
  storage st !! cacheKey doi = Some entry ->
  now w - timestamp entry < COPYRIGHT_CONFIG.CACHE_DURATION ->
  queryUnpaywall doi w st
  = (Ok (data entry),
     MkState (academicDatabases st) (storage st)
       (events st ++ [EvStorageGet (cacheKey doi)])).
Proof.
  intros Hdoi Hget Hlook Hage.
  unfold queryUnpaywall, getCachedOAStatus. rewrite Hdoi. cbn [negb].
  unfold try_catch, storage_get, ask, mbind, M_bind.
  rewrite Hget, Hlook.
  apply Z.ltb_lt in Hage. now rewrite Hage.
Qed.

(** A successful answer of the registry is stored under the key of the
    {e cleaned} DOI. *)
Lemma queryUnpaywall_stores_clean_key (w : World) (st : State)
    (doi : option string) (d : RegistryData) :
  Js.truthy_opt doi = true ->
  (forall op key, storage_fails w op key = false) ->
  storage st !! cacheKey doi = None ->
  Js.truthy (cleanDOI (Js.show doi)) = true ->
  registry w (unpaywall_url (cleanDOI (Js.show doi))) = FetchResponse 200 (BodyData d) ->
  exists st',
    queryUnpaywall doi w st = (Ok (status_of_registry d), st')
    /\ storage st'
       = <[cacheKey (Some (cleanDOI (Js.show doi)))
             := MkCacheEntry (status_of_registry d) (now w)]> (storage st).
Proof.
  intros Hdoi Hok Hlook Hclean Hreg.
  unfold queryUnpaywall, getCachedOAStatus. rewrite Hdoi. cbn [negb].
  unfold try_catch, storage_get, ask, mbind, M_bind.
  rewrite Hok, Hlook.
  unfold fetch, emit, ask, mbind, M_bind. cbn. rewrite Hreg. cbn.
  unfold cacheOAStatus. cbn. rewrite Hclean. cbn.
  unfold try_catch, storage_set, ask, mbind, M_bind. cbn. rewrite Hok. cbn.
  eexists. split; reflexivity.
Qed.

(** C3, at a DOI that still carries its [doi:] prefix.  The first call asks
    the registry and stores the record under [oa_cache_10.1234/abc]; the
    second call, in the same world at the same instant, reads
    [oa_cache_doi:10.1234/abc], finds nothing, and asks the registry again. *)
Theorem queryUnpaywall_prefixed_doi_refetches :
  let doi := Some "doi:10.1234/abc" in
  let record := status_of_registry Sample.open_access in
  let request :=
    EvFetch "https://api.unpaywall.org/v2/10.1234%2Fabc?email=wangzifeng157@gmail.com" in
  let entry := MkCacheEntry record (now Sample.world) in
  let first := queryUnpaywall doi Sample.world Sample.state in
  let second := queryUnpaywall doi Sample.world first.2 in
  first.1 = Ok record
  /\ storage first.2 !! "oa_cache_10.1234/abc" = Some entry
  /\ storage first.2 !! "oa_cache_doi:10.1234/abc" = None
  /\ events first.2
     = [EvStorageGet "oa_cache_doi:10.1234/abc"; request;
        EvStorageSet "oa_cache_10.1234/abc" entry]
  /\ second.1 = Ok record
  /\ events second.2
     = (events first.2
        ++ [EvStorageGet "oa_cache_doi:10.1234/abc"; request;
            EvStorageSet "oa_cache_10.1234/abc" entry])%list.
Proof. vm_compute. repeat split. Qed.

(** The same defect seen from [checkCopyright]: a PDF whose address carries
    the DOI in its [doi] parameter, checked twice, costs two requests. *)
Example checkCopyright_prefixed_doi_refetches :
  let page :=
    Some (MkPageData (Some "https://host.example/view.pdf?doi=doi:10.1234%2Fabc")
            (Some "host.example") None true (Some "pdf")) in
  let first := checkCopyright page Sample.world Sample.state in
  let second := checkCopyright page Sample.world first.2 in
  (exists d, first.1 = Ok d /\ category d = oa_verified)
  /\ (exists d, second.1 = Ok d /\ category d = oa_verified)
  /\ length (filter (fun e => is_fetch e = true) (events first.2)) = 1%nat
  /\ length (filter (fun e => is_fetch e = true) (events second.2)) = 2%nat.
Proof. vm_compute. repeat split; eexists; split; reflexivity. Qed.

(** The same two calls at the cleaned DOI: the second one is answered from
    the cache. *)
Example queryUnpaywall_clean_doi_cached :
  let doi := Some "10.1234/abc" in
  let first := queryUnpaywall doi Sample.world Sample.state in
  let second := queryUnpaywall doi Sample.world first.2 in
  second.1 = first.1
  /\ events second.2 = (events first.2 ++ [EvStorageGet "oa_cache_10.1234/abc"])%list.
Proof. vm_compute. repeat split. Qed.

(** X16.  For a DOI that is already clean, the second of two calls within the
    validity period is answered from the cache without a request. *)
Lemma queryUnpaywall_second_call_cached (w w' : World) (st : State)
    (doi : string) (d : RegistryData) :
  Js.truthy doi = true ->
  cleanDOI doi = doi ->
  (forall op key, storage_fails w op key = false) ->
  storage_fails w' OpGet (cacheKey (Some doi)) = false ->
  storage st !! cacheKey (Some doi) = None ->
  registry w (unpaywall_url doi) = FetchResponse 200 (BodyData d) ->
  now w' - now w < COPYRIGHT_CONFIG.CACHE_DURATION ->
  exists st1,
    queryUnpaywall (Some doi) w st = (Ok (status_of_registry d), st1)
    /\ queryUnpaywall (Some doi) w' st1
       = (Ok (status_of_registry d),
          MkState (academicDatabases st1) (storage st1)
            (events st1 ++ [EvStorageGet (cacheKey (Some doi))])).
Proof.
  intros Hdoi Hclean Hok Hget Hlook Hreg Hage.
  destruct (queryUnpaywall_stores_clean_key w st (Some doi) d) as (st1 & Hq & Hsto);
    cbn [Js.show Js.truthy_opt]; rewrite ?Hclean; auto.
  exists st1. split; [exact Hq|].
  cbn [Js.show] in Hsto. rewrite Hclean in Hsto.
  apply (queryUnpaywall_cache_hit w' st1 (Some doi)
           (MkCacheEntry (status_of_registry d) (now w))); auto.
  rewrite Hsto. apply lookup_insert_eq.
Qed.

(** ** DOI extraction *)

(** C8.  On [https://arxiv.org/pdf/2301.00001.pdf] neither the path pattern nor
    the publisher pattern matches, the arXiv pattern captures the identifier,
    and the extractor returns [10.48550/arXiv.2301.00001]. *)
Theorem extractDOIFromPDFUrl_arxiv (w : World) (st : State) :
  let url := "https://arxiv.org/pdf/2301.00001.pdf" in
  Re.match_group doiInPath_re url = None
  /\ Re.match_group springer_re url = None
  /\ Re.match_group arxiv_pdf_re url = Some "2301.00001"
  /\ extractDOIFromPDFUrl (Some url) w st = (Ok (Some "10.48550/arXiv.2301.00001"), st).
Proof. vm_compute. repeat split. Qed.

(** C7, on the PDF-URL extractor.  The path pattern begins with the character
    class [[10]] where the digits [10] are meant, so it accepts a path
    segment such as [1.2345/x] and returns it; the [doi] query parameter is
    returned as it stands.  Neither value passes the test [/^10\.\d{4,}\//].
    On a path that does hold a DOI the path pattern therefore fails and the
    publisher pattern returns the DOI with the [.pdf] suffix attached. *)
Theorem extractDOIFromPDFUrl_unvalidated :
  (forall w st,
     extractDOIFromPDFUrl (Some "https://example.com/files/1.2345/x.pdf") w st
     = (Ok (Some "1.2345/x"), st))
  /\ valid_doi "1.2345/x" = false
  /\ (extractDOIFromPDFUrl (Some "https://example.com/paper?doi=hello")
        Sample.world Sample.state).1 = Ok (Some "hello")
  /\ valid_doi "hello" = false
  /\ (forall w st,
        extractDOIFromPDFUrl (Some "https://example.com/10.1234/article.pdf") w st
        = (Ok (Some "10.1234/article.pdf"), st)).
Proof. vm_compute. repeat split. Qed.

(** ** Soundness of the matcher *)

Lemma chars_str l : Js.chars (Js.str l) = l.
Proof. apply list_ascii_of_string_of_list_ascii. Qed.

Lemma str_chars s : Js.str (Js.chars s) = s.
Proof. apply string_of_list_ascii_of_string. Qed.

Lemma firstn_matched (m s' : list ascii) :
  firstn (length (m ++ s') - length s') (m ++ s') = m.
Proof.
  rewrite length_app, Nat.add_sub. rewrite firstn_app, Nat.sub_diag.
  cbn. rewrite firstn_all. apply app_nil_r.
Qed.

(** A successful run splits the text into a part in the language of the
    pattern and a rest on which the continuation succeeded. *)
Lemma run_sound (r : Re.regex) :
  forall A s cap (k : list ascii -> Re.capture -> option A) a,
    Re.run r s cap k = Some a ->
    exists m s' cap', s = (m ++ s')%list /\ Re.denotes r m /\ k s' cap' = Some a.
Proof.
  induction r as [|p|r1 IH1 r2 IH2|r1 IH1 r2 IH2|g r IH|r IH];
    intros A s cap k a H; cbn [Re.run] in H.
  - exists [], s, cap. repeat split; [constructor|assumption].
  - destruct s as [|c s]; [discriminate|].
    destruct (p c) eqn:Hp; [|discriminate].
    exists [c], s, cap. repeat split; [now constructor|assumption].
  - apply IH1 in H as (m1 & s1 & cap1 & -> & D1 & H).
    apply IH2 in H as (m2 & s2 & cap2 & -> & D2 & H).
    exists (m1 ++ m2)%list, s2, cap2. rewrite <- app_assoc.
    repeat split; [now constructor|assumption].
  - unfold Re.orelse in H.
    destruct (Re.run r1 s cap k) as [a1|] eqn:E.
    + injection H as ->. apply IH1 in E as (m & s' & cap' & -> & D & E).
      exists m, s', cap'. repeat split; [now apply Re.DAltL|assumption].
    + apply IH2 in H as (m & s' & cap' & -> & D & H).
      exists m, s', cap'. repeat split; [now apply Re.DAltR|assumption].
  - revert a H. generalize (length s) as fuel. intros fuel. revert s cap.
    induction fuel as [|fuel IHf]; intros s cap a H; cbn [Re.star_loop] in H.
    { exists [], s, cap. repeat split; [constructor|assumption]. }
    assert (forall b,
      Re.run r s cap (fun s' cap' =>
        if (length s' <? length s)%nat
        then Re.star_loop g (fun s1 cap1 k1 => Re.run r s1 cap1 k1) k fuel s' cap'
        else None) = Some b ->
      exists m s' cap', s = (m ++ s')%list /\ Re.denotes (Re.Star g r) m
                        /\ k s' cap' = Some b) as Hagain.
    { intros b E. apply IH in E as (m1 & s1 & cap1 & -> & D1 & E).
      destruct (length s1 <? length (m1 ++ s1))%nat eqn:L; [|discriminate].
      apply IHf in E as (m2 & s2 & cap2 & -> & D2 & E).
      exists (m1 ++ m2)%list, s2, cap2. rewrite <- app_assoc.
      repeat split; [|assumption].
      constructor; [|assumption|assumption].
      intros ->. apply Nat.ltb_lt in L. cbn in L. lia. }
    assert (forall b, k s cap = Some b ->
      exists m s' cap', s = (m ++ s')%list /\ Re.denotes (Re.Star g r) m
                        /\ k s' cap' = Some b) as Hstop.
    { intros b E. exists [], s, cap. repeat split; [constructor|assumption]. }
    unfold Re.orelse in H. destruct g.
    + destruct (Re.run r s cap _) as [b|] eqn:E.
      * injection H as ->. now apply Hagain.
      * now apply Hstop.
    + destruct (k s cap) as [b|] eqn:E.
      * injection H as ->. now apply Hstop.
      * now apply Hagain.
  - apply IH in H as (m & s' & cap' & -> & D & H).
    rewrite firstn_matched in H.
    exists m, s', (Some m). repeat split; [now constructor|assumption].
Qed.

(** The capture of a group is a text in the language of its body. *)
Lemma run_group_sound (r : Re.regex) A s cap
    (k : list ascii -> Re.capture -> option A) a :
  Re.run (Re.Group r) s cap k = Some a ->
  exists m s', s = (m ++ s')%list /\ Re.denotes r m /\ k s' (Some m) = Some a.
Proof.
  cbn [Re.run]. intros H.
  apply run_sound in H as (m & s' & cap' & -> & D & H).
  rewrite firstn_matched in H. now exists m, s'.
Qed.

Lemma run_seq_sound (r1 r2 : Re.regex) A s cap
    (k : list ascii -> Re.capture -> option A) a :
  Re.run (Re.Seq r1 r2) s cap k = Some a ->
  exists m1 s1 cap1,
    s = (m1 ++ s1)%list /\ Re.denotes r1 m1 /\ Re.run r2 s1 cap1 k = Some a.
Proof. cbn [Re.run]. apply run_sound. Qed.

Lemma match_here_sound r s m rest cap :
  Re.match_here r s = Some (m, rest, cap) ->
  s = (m ++ rest)%list /\ Re.denotes r m.
Proof.
  unfold Re.match_here. intros H.
  apply run_sound in H as (m' & s' & cap' & -> & D & H).
  rewrite firstn_matched in H. injection H as <- <- _. now split.
Qed.

Lemma captures_group body : captures body (Re.Group body).
Proof.
  intros A s cap k a H.
  apply run_group_sound in H as (m & s' & _ & D & H). now exists m, s'.
Qed.

Lemma captures_seq body r1 r2 : captures body r2 -> captures body (Re.Seq r1 r2).
Proof.
  intros Hc A s cap k a H.
  apply run_seq_sound in H as (m1 & s1 & cap1 & _ & _ & H). now apply Hc in H.
Qed.

Lemma match_here_captures body r s m rest cap :
  captures body r ->
  Re.match_here r s = Some (m, rest, cap) ->
  exists g, cap = Some g /\ Re.denotes body g.
Proof.
  unfold Re.match_here. intros Hc H.
  apply Hc in H as (g & s' & D & H). injection H as _ _ <-. now exists g.
Qed.

Lemma search_captures body r s m cap :
  captures body r ->
  Re.search r s = Some (m, cap) ->
  exists g, cap = Some g /\ Re.denotes body g.
Proof.
  intros Hc. induction s as [|c s IH]; cbn [Re.search].
  - destruct (Re.match_here r []) as [[[m' rest'] cap']|] eqn:E; [|discriminate].
    intros [= <- <-]. eapply match_here_captures; eauto.
  - destruct (Re.match_here r (c :: s)) as [[[m' rest'] cap']|] eqn:E; [|exact IH].
    intros [= <- <-]. eapply match_here_captures; eauto.
Qed.

Lemma search_boundary_captures body r s prev m cap :
  captures body r ->
  Re.search_boundary r prev s = Some (m, cap) ->
  exists g, cap = Some g /\ Re.denotes body g.
Proof.
  intros Hc. revert prev. induction s as [|c s IH]; intros prev;
    cbn [Re.search_boundary].
  - destruct (if Re.at_boundary prev [] then Re.match_here r [] else None)
      as [[[m' rest'] cap']|] eqn:E; [|discriminate].
    intros [= <- <-]. destruct (Re.at_boundary prev []); [|discriminate].
    eapply match_here_captures; eauto.
  - destruct (if Re.at_boundary prev (c :: s) then Re.match_here r (c :: s) else None)
      as [[[m' rest'] cap']|] eqn:E; [|apply IH].
    intros [= <- <-]. destruct (Re.at_boundary prev (c :: s)); [|discriminate].
    eapply match_here_captures; eauto.
Qed.

Lemma search_sound r s m cap : Re.search r s = Some (m, cap) -> Re.denotes r m.
Proof.
  induction s as [|c s IH]; cbn [Re.search].
  - destruct (Re.match_here r []) as [[[m' rest'] cap']|] eqn:E; [|discriminate].
    intros [= <- <-]. now apply match_here_sound in E.
  - destruct (Re.match_here r (c :: s)) as [[[m' rest'] cap']|] eqn:E; [|exact IH].
    intros [= <- <-]. now apply match_here_sound in E.
Qed.

(** Reading a derivation backwards. *)
Lemma denotes_chr_inv p m :
  Re.denotes (Re.Chr p) m -> exists c, m = [c] /\ p c = true.
Proof. inversion 1; subst. eauto. Qed.

Lemma denotes_seq_inv r1 r2 m :
  Re.denotes (Re.Seq r1 r2) m ->
  exists m1 m2, m = (m1 ++ m2)%list /\ Re.denotes r1 m1 /\ Re.denotes r2 m2.
Proof. inversion 1; subst. eauto. Qed.

Lemma denotes_star_chr g p m :
  Re.denotes (Re.Star g (Re.Chr p)) m -> forallb p m = true.
Proof.
  intros H. remember (Re.Star g (Re.Chr p)) as r eqn:Hr.
  induction H; try discriminate; [reflexivity|].
  injection Hr as -> ->.
  apply denotes_chr_inv in H0 as (c & -> & Hc).
  cbn. rewrite Hc. now apply IHdenotes2.
Qed.

Lemma denotes_plus_chr g p m :
  Re.denotes (Re.plus g (Re.Chr p)) m -> m <> [] /\ forallb p m = true.
Proof.
  unfold Re.plus. intros H.
  apply denotes_seq_inv in H as (m1 & m2 & -> & H1 & H2).
  apply denotes_chr_inv in H1 as (c & -> & Hc).
  apply denotes_star_chr in H2. cbn. rewrite Hc. now split.
Qed.

Lemma denotes_ch_inv c m : Re.denotes (Re.ch c) m -> m = [c].
Proof.
  intros H. apply denotes_chr_inv in H as (c' & -> & Hc).
  apply Ascii.eqb_eq in Hc. now subst.
Qed.

Lemma denotes_doi_core g p m :
  Re.denotes
    (Re.seqs [ Re.lit "10."; Re.digits4; Re.ch "/"; Re.plus g (Re.Chr p) ]) m ->
  doi_shaped_then p m.
Proof.
  cbn [Re.seqs Re.lit Re.digits4 Js.chars list_ascii_of_string map Re.digit].
  intros H.
  repeat match goal with
         | H : Re.denotes (Re.Seq _ _) _ |- _ =>
             apply denotes_seq_inv in H as (? & ? & -> & ? & ?)
         | H : Re.denotes (Re.ch _) _ |- _ => apply denotes_ch_inv in H as ->
         | H : Re.denotes Re.digit _ |- _ =>
             apply denotes_chr_inv in H as (? & -> & ?)
         | H : Re.denotes (Re.Star _ Re.digit) _ |- _ =>
             apply denotes_star_chr in H
         | H : Re.denotes (Re.plus _ _) _ |- _ =>
             apply denotes_plus_chr in H as [? ?]
         end.
  match goal with
  | Hd : forallb Js.is_digit ?ds = true, Hr : ?rest <> [] |- _ =>
      match goal with
      | H1 : Js.is_digit ?a = true, H2 : Js.is_digit ?b = true,
        H3 : Js.is_digit ?c = true, H4 : Js.is_digit ?d = true |- _ =>
          exists (a :: b :: c :: d :: ds), rest
      end
  end.
  repeat split; try assumption.
  - cbn. lia.
  - cbn. repeat match goal with H : Js.is_digit _ = true |- _ => rewrite H; clear H end.
    assumption.
Qed.

(** ** Validity of the DOIs the patterns produce *)

(** A quantified character class gets past any run of characters of the
    class when the continuation succeeds behind it. *)
Lemma star_chr_reaches {A} g p (ds tail : list ascii) cap
    (k : list ascii -> Re.capture -> option A) :
  forallb p ds = true ->
  k tail cap <> None ->
  Re.run (Re.Star g (Re.Chr p)) (ds ++ tail) cap k <> None.
Proof.
  intros Hds Hk. induction ds as [|d ds IH]; cbn [Re.run app].
  - destruct (length tail) as [|fuel]; cbn [Re.star_loop]; [assumption|].
    destruct g; unfold Re.orelse.
    + now destruct (match tail with [] => None | c :: s' => _ end).
    + now destruct (k tail cap).
  - cbn in Hds. apply andb_prop in Hds as [Hd Hds].
    cbn [length Re.star_loop]. rewrite Hd.
    assert ((length (ds ++ tail) <? S (length (ds ++ tail)))%nat = true) as ->
      by (apply Nat.ltb_lt; lia).
    specialize (IH Hds). cbn [Re.run] in IH.
    destruct g; unfold Re.orelse.
    + now destruct (Re.star_loop true _ k (length (ds ++ tail)) (ds ++ tail) cap).
    + destruct (k (d :: ds ++ tail) cap); [discriminate|assumption].
Qed.

(** The test [/^10\.\d{4,}\//] accepts every text of that shape. *)
Lemma valid_doi_shaped m : doi_shaped m -> valid_doi (Js.str m) = true.
Proof.
  intros (ds & rest & -> & Hlen & Hds).
  unfold valid_doi, Re.test_anchored. rewrite chars_str.
  destruct ds as [|d1 [|d2 [|d3 [|d4 ds]]]]; cbn in Hlen; try lia.
  cbn in Hds.
  repeat (apply andb_prop in Hds as [? Hds]).
  unfold Re.match_here.
  cbn [doi_valid_re Re.seqs Re.lit Re.digits4 Js.chars list_ascii_of_string map
       Re.run app Re.ch Re.digit].
  rewrite !Ascii.eqb_refl.
  repeat match goal with H : Js.is_digit _ = true |- _ => rewrite H; clear H end.
  match goal with
  | |- match ?x with _ => _ end = true =>
      destruct x eqn:E; [reflexivity|exfalso; revert E]
  end.
  apply (star_chr_reaches true Js.is_digit ds ("/"%char :: rest)); [assumption|].
  cbn. discriminate.
Qed.

Lemma doi_shaped_then_shaped p m : doi_shaped_then p m -> doi_shaped m.
Proof. intros (ds & rest & -> & Hlen & Hds & _). now exists ds, rest. Qed.

(** Dropping the last character keeps the shape when the slash is not the
    last character. *)
Lemma strip_last_shaped q p m :
  doi_shaped_then p m -> doi_shaped (Re.strip_last_chars q m).
Proof.
  intros Hm. unfold Re.strip_last_chars.
  destruct (rev m) as [|c l] eqn:Hrev; [now apply doi_shaped_then_shaped in Hm|].
  destruct (q c); [|now apply doi_shaped_then_shaped in Hm].
  destruct Hm as (ds & rest & -> & Hlen & Hds & Hne & _).
  exists ds, (removelast rest). repeat split; try assumption.
  assert (rest = removelast rest ++ [List.last rest "/"%char])%list as Hrest
    by (now apply app_removelast_last).
  rewrite Hrest in Hrev at 1.
  change ("/"%char :: (removelast rest ++ [List.last rest "/"%char]))%list
    with (("/"%char :: removelast rest) ++ [List.last rest "/"%char])%list in Hrev.
  rewrite !app_assoc, rev_app_distr in Hrev. cbn in Hrev.
  injection Hrev as _ <-. rewrite !rev_app_distr, !rev_involutive. reflexivity.
Qed.

(** The synthetic arXiv DOI has the shape, whatever the identifier. *)
Lemma valid_doi_arxiv id : valid_doi ("10.48550/arXiv." ++ id) = true.
Proof.
  rewrite <- (str_chars ("10.48550/arXiv." ++ id)).
  apply valid_doi_shaped.
  exists (Js.chars "48550"), (Js.chars ("arXiv." ++ id)).
  repeat split; cbn; lia.
Qed.

Lemma match_group_captures body r s g :
  captures body r ->
  Re.match_group r s = Some g ->
  exists m, g = Js.str m /\ Re.denotes body m.
Proof.
  unfold Re.match_group. intros Hc H.
  destruct (Re.search r (Js.chars s)) as [[m cap]|] eqn:E; [|discriminate].
  destruct (search_captures _ _ _ _ _ Hc E) as (m' & -> & D).
  injection H as <-. now exists m'.
Qed.

Lemma match_group_boundary_captures body r s g :
  captures body r ->
  Re.match_group_boundary r s = Some g ->
  exists m, g = Js.str m /\ Re.denotes body m.
Proof.
  unfold Re.match_group_boundary. intros Hc H.
  destruct (Re.search_boundary r None (Js.chars s)) as [[m cap]|] eqn:E;
    [|discriminate].
  destruct (search_boundary_captures _ _ _ _ _ _ Hc E) as (m' & -> & D).
  injection H as <-. now exists m'.
Qed.

Lemma match_text_sound r s m :
  Re.match_text r s = Some m -> exists m', m = Js.str m' /\ Re.denotes r m'.
Proof.
  unfold Re.match_text.
  destruct (Re.search r (Js.chars s)) as [[m' cap]|] eqn:E; [|discriminate].
  intros [= <-]. exists m'. split; [reflexivity|]. now apply search_sound in E.
Qed.

Lemma first_some_found {A} (f : A -> option string) l doi :
  first_some f l = Some doi -> exists x, In x l /\ f x = Some doi.
Proof.
  induction l as [|x l IH]; cbn; [discriminate|].
  destruct (f x) as [d|] eqn:E.
  - intros [= <-]. exists x. auto.
  - intros H. destruct (IH H) as (y & Hy & Hf). exists y. auto.
Qed.

(** The single strategies of the page extractor. *)
Lemma doi_of_meta_valid content doi :
  doi_of_meta content = Some doi -> valid_doi doi = true.
Proof.
  unfold doi_of_meta. destruct (Js.truthy_opt content); [|discriminate].
  destruct (Js.truthy _ && valid_doi _) eqn:E; [|discriminate].
  intros [= <-]. now apply andb_prop in E.
Qed.

Lemma doi_of_script_valid parsed doi :
  doi_of_script parsed = Some doi -> valid_doi doi = true.
Proof.
  unfold doi_of_script.
  match goal with |- match ?x with _ => _ end = _ -> _ => destruct x as [d|] end;
    [|discriminate].
  destruct (Js.truthy_opt d && valid_doi (Js.show d)) eqn:E; [|discriminate].
  intros ->. now apply andb_prop in E.
Qed.

Lemma doi_of_element_valid text doi :
  doi_of_element text = Some doi -> valid_doi doi = true.
Proof.
  unfold doi_of_element.
  destruct (Re.match_text doi_text_re (Js.trim text)) as [m|] eqn:E; [|discriminate].
  intros [= <-].
  apply match_text_sound in E as (m' & -> & D).
  unfold Re.strip_last. rewrite chars_str.
  apply valid_doi_shaped. eapply strip_last_shaped.
  apply (denotes_doi_core _ _ _ D).
Qed.

Lemma doi_of_link_valid href doi :
  doi_of_link href = Some doi -> valid_doi doi = true.
Proof.
  unfold doi_of_link. intros H.
  apply (match_group_captures doi_text_re) in H as (m & -> & D).
  - apply valid_doi_shaped. eapply doi_shaped_then_shaped.
    apply (denotes_doi_core _ _ _ D).
  - apply captures_seq, captures_group.
Qed.

Lemma doi_of_body_valid text doi :
  doi_of_body text = Some doi -> valid_doi doi = true.
Proof.
  unfold doi_of_body.
  destruct (Re.match_group_boundary doi_label_re text) as [g|] eqn:E; [|discriminate].
  intros [= <-].
  eapply match_group_boundary_captures in E as (m & -> & D).
  2:{ unfold doi_label_re. cbn [Re.seqs].
      apply captures_seq, captures_seq, captures_group. }
  unfold Re.strip_last. rewrite chars_str.
  apply valid_doi_shaped. eapply strip_last_shaped.
  apply (denotes_doi_core _ _ _ D).
Qed.

Lemma doi_of_arxiv_valid href arxivMeta doi :
  doi_of_arxiv href arxivMeta = Some doi -> valid_doi doi = true.
Proof.
  unfold doi_of_arxiv.
  destruct (Re.match_group arxiv_page_re href).
  - intros [= <-]. apply valid_doi_arxiv.
  - destruct (Js.truthy_opt arxivMeta); [|discriminate].
    intros [= <-]. apply valid_doi_arxiv.
Qed.

(** X9.  Every DOI the page extractor returns passes the test [/^10\.\d{4,}\//]:
    the first three strategies apply the test, and the patterns of the others
    only match texts of that shape. *)
Lemma extractDOINonDestructive_valid (document : Document) (doi : string) :
  extractDOINonDestructive document = Some doi -> valid_doi doi = true.
Proof.
  unfold extractDOINonDestructive. cbn [first_strategy].
  destruct (doi_of_meta (citationDOI document)) as [d|] eqn:E1.
  { intros [= <-]. eapply doi_of_meta_valid; eauto. }
  destruct (first_some doi_of_script (jsonLdScripts document)) as [d|] eqn:E2.
  { intros [= <-]. apply first_some_found in E2 as (x & _ & E2).
    eapply doi_of_script_valid; eauto. }
  destruct (doi_of_meta (prismDOI document)) as [d|] eqn:E3.
  { intros [= <-]. eapply doi_of_meta_valid; eauto. }
  destruct (first_some doi_of_element (concat (doiElements document))) as [d|] eqn:E4.
  { intros [= <-]. apply first_some_found in E4 as (x & _ & E4).
    eapply doi_of_element_valid; eauto. }
  destruct (first_some doi_of_link (doiLinks document)) as [d|] eqn:E5.
  { intros [= <-]. apply first_some_found in E5 as (x & _ & E5).
    eapply doi_of_link_valid; eauto. }
  destruct (doi_of_body (bodyText document)) as [d|] eqn:E6.
  { intros [= <-]. eapply doi_of_body_valid; eauto. }
  destruct (doi_of_arxiv (location_href document) (arxivMeta document)) as [d|] eqn:E7;
    [|discriminate].
  intros [= <-]. eapply doi_of_arxiv_valid; eauto.
Qed.

(** A candidate that fails the test is dropped and the next strategy runs;
    with nothing to find the extractor returns [null]. *)
Example extractDOINonDestructive_falls_through :
  extractDOINonDestructive
    (MkDocument (Some "doi:not-a-doi")
       [Some (JObject [("identifier", JString "10.12/short")]); None]
       (Some "10.5555/prism.1") [] [] "" "https://journal.example/a" None)
  = Some "10.5555/prism.1"
  /\ extractDOINonDestructive
       (MkDocument (Some "doi:not-a-doi") [Some JNull] None [["no identifier here"]]
          [] "see the references" "https://journal.example/a" None)
     = None.
Proof. vm_compute. split; reflexivity. Qed.

(** X8.  On the PDF-URL extractor the test holds for the publisher pattern and
    the arXiv pattern; an invalid result comes from the path pattern or from
    the query parameter. *)
Lemma extractDOIFromPDFUrl_valid_or (url : option string) (w : World)
    (st st' : State) (doi : string) :
  extractDOIFromPDFUrl url w st = (Ok (Some doi), st') ->
  valid_doi doi = true
  \/ Re.match_group doiInPath_re (Js.show url) = Some doi
  \/ exists urlObj,
       url_parse w (Js.show url) = Some urlObj
       /\ searchParams_get (searchParams urlObj) "doi" = Some doi.
Proof.
  unfold extractDOIFromPDFUrl, try_catch.
  destruct (negb _); [discriminate|].
  destruct (Re.match_group doiInPath_re _) as [d|] eqn:E1.
  { intros [= <- _]. auto. }
  destruct (Re.match_group springer_re _) as [d|] eqn:E2.
  { intros [= <- _]. left.
    apply (match_group_captures _ _ _ _ (captures_group _)) in E2 as (m & -> & D).
    apply valid_doi_shaped. eapply doi_shaped_then_shaped.
    apply (denotes_doi_core _ _ _ D). }
  destruct (Re.match_group arxiv_pdf_re _) as [d|] eqn:E3.
  { intros [= <- _]. left. apply valid_doi_arxiv. }
  unfold new_URL, mbind, M_bind.
  destruct (url_parse w _) as [urlObj|] eqn:E4; [|discriminate].
  destruct (Js.truthy_opt _); [|discriminate].
  intros [= E5 _]. right. right. now exists urlObj.
Qed.

(** ** The keys of the cache *)

Lemma cacheKey_inj (a b : string) : cacheKey (Some a) = cacheKey (Some b) -> a = b.
Proof. unfold cacheKey. cbn. now intros [=]. Qed.

(** In general: when cleaning changes the DOI, the record goes to a key the
    next lookup for the same argument does not read, so that lookup misses. *)
Lemma queryUnpaywall_unclean_doi_misses (w : World) (st : State) (doi : string)
    (d : RegistryData) :
  Js.truthy doi = true ->
  cleanDOI doi <> doi ->
  Js.truthy (cleanDOI doi) = true ->
  (forall op key, storage_fails w op key = false) ->
  storage st !! cacheKey (Some doi) = None ->
  registry w (unpaywall_url (cleanDOI doi)) = FetchResponse 200 (BodyData d) ->
  exists st1,
    queryUnpaywall (Some doi) w st = (Ok (status_of_registry d), st1)
    /\ is_Some (storage st1 !! cacheKey (Some (cleanDOI doi)))
    /\ storage st1 !! cacheKey (Some doi) = None
    /\ forall w', (getCachedOAStatus (Some doi) w' st1).1 = Ok None.
Proof.
  intros Hdoi Hne Hclean Hok Hlook Hreg.
  destruct (queryUnpaywall_stores_clean_key w st (Some doi) d) as (st1 & Hq & Hsto);
    auto.
  cbn [Js.show] in Hsto.
  assert (storage st1 !! cacheKey (Some doi) = None) as Hnone.
  { rewrite Hsto, lookup_insert_ne; [assumption|].
    intros Heq. apply cacheKey_inj in Heq. contradiction. }
  exists st1. split; [exact Hq|]. split; [|split; [exact Hnone|]].
  - rewrite Hsto, lookup_insert_eq. now eexists.
  - intros w'. unfold getCachedOAStatus. cbn [Js.truthy_opt]. rewrite Hdoi.
    cbn [negb]. unfold try_catch, storage_get, mbind, M_bind.
    destruct (storage_fails w' OpGet _); [reflexivity|]. now rewrite Hnone.
Qed.

(** ** Worked instances of the extractor and resolver facts *)

Lemma extractDOINonDestructive_valid_witness :
  valid_doi "10.5555/prism.1" = true.
Proof.
  exact (extractDOINonDestructive_valid
           (MkDocument (Some "doi:not-a-doi")
              [Some (JObject [("identifier", JString "10.12/short")]); None]
              (Some "10.5555/prism.1") [] [] "" "https://journal.example/a" None)
           "10.5555/prism.1" eq_refl).
Defined.

Lemma extractDOIFromPDFUrl_valid_or_witness :
  valid_doi "hello" = true
  \/ Re.match_group doiInPath_re "https://example.com/paper?doi=hello" = Some "hello"
  \/ exists urlObj,
       url_parse Sample.world "https://example.com/paper?doi=hello" = Some urlObj
       /\ searchParams_get (searchParams urlObj) "doi" = Some "hello".
Proof.
  exact (extractDOIFromPDFUrl_valid_or (Some "https://example.com/paper?doi=hello")
           Sample.world Sample.state Sample.state "hello" eq_refl).
Defined.

Lemma queryUnpaywall_second_call_cached_witness :
  exists st1,
    queryUnpaywall (Some "10.1234/abc") Sample.world Sample.state
    = (Ok (status_of_registry Sample.open_access), st1)
    /\ queryUnpaywall (Some "10.1234/abc") Sample.world st1
       = (Ok (status_of_registry Sample.open_access),
          MkState (academicDatabases st1) (storage st1)
            (events st1 ++ [EvStorageGet (cacheKey (Some "10.1234/abc"))])).
Proof.
  apply (queryUnpaywall_second_call_cached Sample.world Sample.world Sample.state
           "10.1234/abc" Sample.open_access); reflexivity.
Defined.

(** ** Loading the databases *)

Lemma push_blacklist_run domains w st :
  push_blacklist domains w st
  = (Ok tt,
     MkState
       (MkDatabases (whitelist (academicDatabases st))
          (blacklist (academicDatabases st) ++ domains)
          (conditional (academicDatabases st)))
       (storage st) (events st)).
Proof. reflexivity. Qed.

Lemma push_subcategories_run subs w st :
  push_subcategories subs w st
  = (Ok tt,
     MkState
       (MkDatabases (whitelist (academicDatabases st))
          (blacklist (academicDatabases st)
           ++ concat (map subcategory_domains subs))
          (conditional (academicDatabases st)))
       (storage st) (events st)).
Proof.
  revert st. induction subs as [|[domains|] rest IH]; intros st;
    cbn [push_subcategories map concat subcategory_domains].
  - rewrite app_nil_r. now destruct st as [[] ? ?].
  - rewrite (bind_ok _ _ _ _ _ _ (push_blacklist_run domains w st)), IH.
    cbn. now rewrite <- app_assoc.
  - apply IH.
Qed.

Lemma push_categories_run cats w st :
  null_free cats = true ->
  push_categories cats w st
  = (Ok tt,
     MkState
       (MkDatabases (whitelist (academicDatabases st))
          (blacklist (academicDatabases st) ++ flatten_blacklist cats)
          (conditional (academicDatabases st)))
       (storage st) (events st)).
Proof.
  unfold flatten_blacklist. revert st.
  induction cats as [|c rest IH]; intros st Hnf; cbn [map concat].
  - rewrite app_nil_r. now destruct st as [[] ? ?].
  - cbn in Hnf. destruct c as [domains|subs| |]; try discriminate;
      cbn [push_categories category_domains].
    + rewrite (bind_ok _ _ _ _ _ _ (push_blacklist_run domains w st)), (IH _ Hnf).
      cbn. now rewrite <- app_assoc.
    + rewrite (bind_ok _ _ _ _ _ _ (push_subcategories_run subs w st)), (IH _ Hnf).
      cbn. now rewrite <- app_assoc.
    + now rewrite (IH _ Hnf).
Qed.

Lemma push_categories_stops pre post w st :
  null_free pre = true ->
  exists e,
    push_categories (pre ++ CatNull :: post) w st
    = (Throw e,
       MkState
         (MkDatabases (whitelist (academicDatabases st))
            (blacklist (academicDatabases st) ++ flatten_blacklist pre)
            (conditional (academicDatabases st)))
         (storage st) (events st)).
Proof.
  unfold flatten_blacklist. revert st.
  induction pre as [|c rest IH]; intros st Hnf; cbn [map concat app].
  - eexists. cbn. rewrite app_nil_r. now destruct st as [[] ? ?].
  - cbn in Hnf. destruct c as [domains|subs| |]; try discriminate;
      cbn [push_categories category_domains].
    + rewrite (bind_ok _ _ _ _ _ _ (push_blacklist_run domains w st)).
      destruct (IH (MkState
                      (MkDatabases (whitelist (academicDatabases st))
                         (blacklist (academicDatabases st) ++ domains)
                         (conditional (academicDatabases st)))
                      (storage st) (events st)) Hnf) as [e ->].
      exists e. cbn. now rewrite <- app_assoc.
    + rewrite (bind_ok _ _ _ _ _ _ (push_subcategories_run subs w st)).
      destruct (IH (MkState
                      (MkDatabases (whitelist (academicDatabases st))
                         (blacklist (academicDatabases st)
                          ++ concat (map subcategory_domains subs))
                         (conditional (academicDatabases st)))
                      (storage st) (events st)) Hnf) as [e ->].
      exists e. cbn. now rewrite <- app_assoc.
    + destruct (IH st Hnf) as [e ->]. now exists e.
Qed.

(** X1.  With a well-formed dataset [loadAcademicDatabases] returns [true]
    and replaces all three lists: the whitelist is the four allowlist arrays
    in order, the blacklist the domains of the categories flattened over two
    levels, the conditional list [mixed_content] or the empty list.  Nothing
    of the previous lists survives, so loading twice gives what loading once
    gives; the store is not touched. *)
Theorem loadAcademicDatabases_replaces (w : World) (st : State) (ds : Dataset)
    (allow : Allowlist) (cats : list BlacklistCategory) :
  dataset w = Some ds ->
  ds_allowlist ds = Some allow ->
  ds_blacklist ds = Some cats ->
  null_free cats = true ->
  let loaded :=
    MkDatabases (whitelist_of allow) (flatten_blacklist cats)
      (match ds_mixed_content ds with Some l => l | None => [] end) in
  let once := loadAcademicDatabases w st in
  once = (Ok true, MkState loaded (storage st) (events st ++ [EvLoadDataset]))
  /\ academicDatabases (loadAcademicDatabases w once.2).2 = loaded.
Proof.
  intros Hds Hallow Hcats Hnf loaded once.
  assert (forall st0, loadAcademicDatabases w st0
            = (Ok true, MkState loaded (storage st0) (events st0 ++ [EvLoadDataset])))
    as Hrun.
  { intros st0. unfold loadAcademicDatabases, try_catch, emit, ask,
      assign_whitelist, assign_blacklist, assign_conditional, update, mbind, M_bind.
    rewrite Hds. cbn. rewrite Hallow. cbn. rewrite Hcats. cbn.
    rewrite (push_categories_run _ _ _ Hnf). reflexivity. }
  split; [apply Hrun|]. now rewrite Hrun.
Qed.

Lemma loadAcademicDatabases_replaces_witness :
  let ds :=
    MkDataset (Some (MkAllowlist ["arxiv.org"] ["plos.org"] [] ["dspace.mit.edu"]))
      (Some [CatArray ["jstor.org"];
             CatObject [SubArray ["ieeexplore.ieee.org"]; SubOther;
                        SubArray ["dl.acm.org"]];
             CatOther])
      None in
  let w := MkWorld 0 (fun _ => None) (Some ds) (fun _ => FetchAborted)
             (fun _ _ => false) in
  academicDatabases (loadAcademicDatabases w Sample.state).2
  = MkDatabases ["arxiv.org"; "plos.org"; "dspace.mit.edu"]
      ["jstor.org"; "ieeexplore.ieee.org"; "dl.acm.org"] [].
Proof.
  intros ds w.
  destruct (loadAcademicDatabases_replaces w Sample.state ds
              (MkAllowlist ["arxiv.org"] ["plos.org"] [] ["dspace.mit.edu"])
              [CatArray ["jstor.org"];
               CatObject [SubArray ["ieeexplore.ieee.org"]; SubOther;
                          SubArray ["dl.acm.org"]];
               CatOther]
              eq_refl eq_refl eq_refl eq_refl) as [Hrun _].
  rewrite Hrun. reflexivity.
Defined.

(** X2.  When the dataset cannot be fetched or parsed, or has no [allowlist],
    [loadAcademicDatabases] returns [false] and leaves the three lists and
    the store as they were. *)
Theorem loadAcademicDatabases_fails_early (w : World) (st : State) :
  dataset w = None
  \/ (exists ds, dataset w = Some ds /\ ds_allowlist ds = None) ->
  loadAcademicDatabases w st
  = (Ok false,
     MkState (academicDatabases st) (storage st) (events st ++ [EvLoadDataset])).
Proof.
  intros [Hds | (ds & Hds & Hallow)];
    unfold loadAcademicDatabases, try_catch, emit, ask, mbind, M_bind;
    rewrite Hds; cbn; [reflexivity|]. now rewrite Hallow.
Qed.

Lemma loadAcademicDatabases_fails_early_witness :
  loadAcademicDatabases Sample.world Sample.state
  = (Ok false, MkState Sample.databases ∅ [EvLoadDataset]).
Proof.
  apply (loadAcademicDatabases_fails_early Sample.world Sample.state).
  left. reflexivity.
Defined.

(** X3.  A dataset whose [blacklist] is missing, or holds a [null] category,
    makes the load fail half way: it returns [false], but the whitelist has
    already been replaced, the blacklist holds only the domains of the
    categories before the fault, and the conditional list keeps its old
    value. *)
Theorem loadAcademicDatabases_fails_late (w : World) (st : State) (ds : Dataset)
    (allow : Allowlist) (pre : list BlacklistCategory) :
  dataset w = Some ds ->
  ds_allowlist ds = Some allow ->
  (ds_blacklist ds = None /\ pre = [])
  \/ (exists post, ds_blacklist ds = Some (pre ++ CatNull :: post)%list) ->
  null_free pre = true ->
  loadAcademicDatabases w st
  = (Ok false,
     MkState
       (MkDatabases (whitelist_of allow) (flatten_blacklist pre)
          (conditional (academicDatabases st)))
       (storage st) (events st ++ [EvLoadDataset])).
Proof.
  intros Hds Hallow Hbl Hnf.
  unfold loadAcademicDatabases, try_catch, emit, ask,
    assign_whitelist, assign_blacklist, assign_conditional, update, mbind, M_bind.
  rewrite Hds. cbn. rewrite Hallow. cbn.
  destruct Hbl as [[Hbl ->] | [post Hbl]]; rewrite Hbl; cbn; [reflexivity|].
  match goal with
  | |- context [push_categories _ w ?s] =>
      destruct (push_categories_stops pre post w s Hnf) as [e ->]
  end.
  reflexivity.
Qed.

Lemma loadAcademicDatabases_fails_late_witness :
  let ds :=
    MkDataset (Some (MkAllowlist ["arxiv.org"] [] [] []))
      (Some [CatArray ["jstor.org"]; CatNull; CatArray ["dl.acm.org"]])
      (Some ["medium.com"]) in
  let w := MkWorld 0 (fun _ => None) (Some ds) (fun _ => FetchAborted)
             (fun _ _ => false) in
  loadAcademicDatabases w Sample.state
  = (Ok false,
     MkState (MkDatabases ["arxiv.org"] ["jstor.org"] ["researchgate.net"]) ∅
       [EvLoadDataset]).
Proof.
  intros ds w.
  apply (loadAcademicDatabases_fails_late w Sample.state ds
           (MkAllowlist ["arxiv.org"] [] [] []) [CatArray ["jstor.org"]]);
    try reflexivity.
  right. now exists [CatArray ["dl.acm.org"]].
Defined.

(** ** The domain classifier *)

Lemma lower_char_idem c : Js.lower_char (Js.lower_char c) = Js.lower_char c.
Proof. destruct c as [[] [] [] [] [] [] [] []]; reflexivity. Qed.

Lemma chars_toLowerCase s :
  Js.chars (Js.toLowerCase s) = map Js.lower_char (Js.chars s).
Proof. unfold Js.toLowerCase. apply chars_str. Qed.

Lemma toLowerCase_idem s : Js.toLowerCase (Js.toLowerCase s) = Js.toLowerCase s.
Proof.
  unfold Js.toLowerCase at 1. rewrite chars_toLowerCase, map_map.
  unfold Js.toLowerCase. f_equal. apply map_ext. intros c. apply lower_char_idem.
Qed.

Lemma truthy_toLowerCase s : Js.truthy (Js.toLowerCase s) = Js.truthy s.
Proof. now destruct s. Qed.

Lemma starts_with_spec p s :
  Js.starts_with p s = true <-> exists post, s = (p ++ post)%list.
Proof.
  revert s. induction p as [|a p IH]; intros s; cbn.
  - split; [intros _; now exists s|reflexivity].
  - destruct s as [|b s]; [split; [discriminate|intros [post [=]]]|].
    destruct (Ascii.eqb a b) eqn:E.
    + apply Ascii.eqb_eq in E as ->. rewrite IH. split.
      * intros [post ->]. now exists post.
      * intros [post [= ->]]. now exists post.
    + apply Ascii.eqb_neq in E. split; [discriminate|].
      intros [post [= <- _]]. contradiction.
Qed.

(** [includes] is the substring test. *)
Lemma includes_chars_spec hay needle :
  Js.includes_chars hay needle = true <-> occurs_in needle hay.
Proof.
  unfold occurs_in. induction hay as [|c hay IH]; cbn [Js.includes_chars].
  - rewrite orb_false_r, starts_with_spec. split.
    + intros [post H]. now exists [], post.
    + intros (pre & post & H). destruct pre; [now exists post|discriminate].
  - rewrite orb_true_iff, starts_with_spec, IH. split.
    + intros [[post ->] | (pre & post & ->)].
      * now exists [], post.
      * now exists (c :: pre), post.
    + intros (pre & post & H). destruct pre as [|a pre].
      * left. now exists post.
      * right. injection H as _ ->. now exists pre, post.
Qed.

Lemma occurs_in_trans a b c : occurs_in a b -> occurs_in b c -> occurs_in a c.
Proof.
  intros (p1 & q1 & ->) (p2 & q2 & ->).
  exists (p2 ++ p1)%list, (q1 ++ q2)%list. now rewrite <- !app_assoc.
Qed.

Lemma occurs_in_map (f : ascii -> ascii) a b :
  occurs_in a b -> occurs_in (map f a) (map f b).
Proof.
  intros (p & q & ->). exists (map f p), (map f q). now rewrite !map_app.
Qed.

(** X4.  The classifier ignores letter case, of the domain and of the
    entries alike: lowering both changes no answer. *)
Theorem domain_in_ignores_case (entries : list string) (domain : string) :
  domain_in (map Js.toLowerCase entries) (Js.toLowerCase domain)
  = domain_in entries domain.
Proof.
  unfold domain_in. rewrite truthy_toLowerCase.
  destruct (negb (Js.truthy domain)); [reflexivity|].
  rewrite toLowerCase_idem. induction entries as [|e entries IH]; [reflexivity|].
  cbn [map existsb]. now rewrite toLowerCase_idem, IH.
Qed.

(** X5.  Matching is by substring: a domain that contains a classified
    domain anywhere in its text is classified too, a subdomain as well as a
    host name that merely embeds the listed one. *)
Theorem domain_in_superstring (entries : list string) (domain host : string) :
  domain_in entries domain = true ->
  occurs_in (Js.chars domain) (Js.chars host) ->
  domain_in entries host = true.
Proof.
  unfold domain_in. intros Hin Hocc.
  destruct (Js.truthy domain) eqn:Hd; [|discriminate]. cbn [negb] in Hin.
  assert (Js.truthy host = true) as ->.
  { destruct Hocc as (pre & post & Hhost). destruct host; [|reflexivity].
    destruct domain; [discriminate|]. now destruct pre. }
  cbn [negb]. apply existsb_exists in Hin as (e & He & Hinc).
  apply existsb_exists. exists e. split; [assumption|].
  unfold Js.includes in *. apply includes_chars_spec.
  apply includes_chars_spec in Hinc.
  eapply occurs_in_trans; [exact Hinc|].
  rewrite !chars_toLowerCase. now apply occurs_in_map.
Qed.

Lemma domain_in_superstring_witness :
  domain_in ["arxiv.org"] "export.arxiv.org" = true
  /\ domain_in ["arxiv.org"] "arxiv.org.mirror.example" = true.
Proof.
  split.
  - apply (domain_in_superstring ["arxiv.org"] "arxiv.org" "export.arxiv.org");
      [reflexivity|]. now exists (Js.chars "export."), [].
  - apply (domain_in_superstring ["arxiv.org"] "arxiv.org" "arxiv.org.mirror.example");
      [reflexivity|]. now exists [], (Js.chars ".mirror.example").
Defined.

(** ** The patterns of the PDF-URL extractor *)

(** X6.  [extractDOIFromPDFUrl] never throws and never changes the state, and
    it returns [null] in exactly these cases: the URL is missing or empty, or
    none of the three patterns matches and the URL does not parse or has no
    non-empty [doi] parameter. *)
Theorem extractDOIFromPDFUrl_null_cases (url : option string) (w : World)
    (st : State) :
  exists doi,
    extractDOIFromPDFUrl url w st = (Ok doi, st)
    /\ (doi = None <->
        Js.truthy_opt url = false
        \/ (Re.match_group doiInPath_re (Js.show url) = None
            /\ Re.match_group springer_re (Js.show url) = None
            /\ Re.match_group arxiv_pdf_re (Js.show url) = None
            /\ match url_parse w (Js.show url) with
               | Some urlObj =>
                   Js.truthy_opt (searchParams_get (searchParams urlObj) "doi") = false
               | None => True
               end)).
Proof.
  unfold extractDOIFromPDFUrl, try_catch.
  destruct (Js.truthy_opt url) eqn:Hurl; cbn [negb].
  2:{ exists None. split; [reflexivity|]. split; auto. }
  destruct (Re.match_group doiInPath_re _) as [d|] eqn:E1.
  { exists (Some d). split; [reflexivity|]. split; [discriminate|].
    intros [|[? _]]; discriminate. }
  destruct (Re.match_group springer_re _) as [d|] eqn:E2.
  { exists (Some d). split; [reflexivity|]. split; [discriminate|].
    intros [|(_ & ? & _)]; discriminate. }
  destruct (Re.match_group arxiv_pdf_re _) as [d|] eqn:E3.
  { eexists (Some _). split; [reflexivity|]. split; [discriminate|].
    intros [|(_ & _ & ? & _)]; discriminate. }
  unfold new_URL, mbind, M_bind.
  destruct (url_parse w _) as [urlObj|] eqn:E4.
  2:{ exists None. split; [reflexivity|]. split; auto. }
  destruct (Js.truthy_opt (searchParams_get _ _)) eqn:E5.
  - exists (searchParams_get (searchParams urlObj) "doi").
    split; [reflexivity|]. split.
    + intros H. rewrite H in E5. discriminate.
    + intros [|(_ & _ & _ & ?)]; discriminate.
  - exists None. split; [reflexivity|]. split; auto.
Qed.

(** A pattern without a group hands the capture it received to its
    continuation. *)
Lemma run_keeps_capture (r : Re.regex) :
  groupless r = true ->
  forall A s cap (k : list ascii -> Re.capture -> option A) a,
    Re.run r s cap k = Some a -> exists s', k s' cap = Some a.
Proof.
  induction r as [|p|r1 IH1 r2 IH2|r1 IH1 r2 IH2|g r IH|r IH];
    cbn [groupless]; intros Hg A s cap k a H; cbn [Re.run] in H.
  - now exists s.
  - destruct s as [|c s]; [discriminate|].
    destruct (p c); [|discriminate]. now exists s.
  - apply andb_prop in Hg as [Hg1 Hg2].
    apply (IH1 Hg1) in H as [s1 H]. now apply (IH2 Hg2) in H.
  - apply andb_prop in Hg as [Hg1 Hg2]. unfold Re.orelse in H.
    destruct (Re.run r1 s cap k) as [a1|] eqn:E.
    + injection H as ->. now apply (IH1 Hg1) in E.
    + now apply (IH2 Hg2) in H.
  - revert a H. generalize (length s) as fuel. intros fuel. revert s cap.
    induction fuel as [|fuel IHf]; intros s cap a H; cbn [Re.star_loop] in H.
    { now exists s. }
    assert (forall b,
      Re.run r s cap (fun s' cap' =>
        if (length s' <? length s)%nat
        then Re.star_loop g (fun s1 cap1 k1 => Re.run r s1 cap1 k1) k fuel s' cap'
        else None) = Some b ->
      exists s', k s' cap = Some b) as Hagain.
    { intros b E. apply (IH Hg) in E as [s1 E].
      destruct (length s1 <? length s)%nat; [|discriminate].
      now apply IHf in E. }
    unfold Re.orelse in H. destruct g.
    + destruct (Re.run r s cap _) as [b|] eqn:E.
      * injection H as ->. now apply Hagain.
      * now exists s.
    + destruct (k s cap) as [b|] eqn:E.
      * injection H as ->. now exists s.
      * now apply Hagain.
  - discriminate.
Qed.

Lemma search_here r s m cap :
  Re.search r s = Some (m, cap) ->
  exists s0 rest, Re.match_here r s0 = Some (m, rest, cap).
Proof.
  induction s as [|c s IH]; cbn [Re.search].
  - destruct (Re.match_here r []) as [[[m' rest'] cap']|] eqn:E; [|discriminate].
    intros [= <- <-]. now exists [], rest'.
  - destruct (Re.match_here r (c :: s)) as [[[m' rest'] cap']|] eqn:E; [|exact IH].
    intros [= <- <-]. now exists (c :: s), rest'.
Qed.

Lemma run_seq_group (body tail : Re.regex) A s cap
    (k : list ascii -> Re.capture -> option A) a :
  Re.run (Re.Seq (Re.Group body) tail) s cap k = Some a ->
  exists g s', Re.denotes body g /\ Re.run tail s' (Some g) k = Some a.
Proof.
  change (Re.run (Re.Seq (Re.Group body) tail) s cap k)
    with (Re.run (Re.Group body) s cap (fun s1 cap1 => Re.run tail s1 cap1 k)).
  intros H. apply run_group_sound in H as (g & s' & _ & D & H). now exists g, s'.
Qed.

(** What the path pattern captures begins with a single [1] or [0] and a
    dot. *)
Lemma doiInPath_capture url doi :
  Re.match_group doiInPath_re url = Some doi ->
  exists c rest,
    (c = "1"%char \/ c = "0"%char) /\ doi = Js.str (c :: "."%char :: rest).
Proof.
  unfold Re.match_group.
  destruct (Re.search doiInPath_re (Js.chars url)) as [[m cap]|] eqn:E;
    [|discriminate].
  destruct cap as [g|]; [|discriminate]. intros [= <-].
  apply search_here in E as (s0 & rest0 & E).
  unfold Re.match_here, doiInPath_re in E. cbn [Re.seqs] in E.
  apply run_seq_sound in E as (m1 & s1 & cap1 & _ & _ & E).
  apply run_seq_group in E as (g0 & s2 & D & E).
  apply run_keeps_capture in E as [s3 E]; [|reflexivity].
  injection E as _ _ ->.
  cbn [Re.seqs] in D.
  apply denotes_seq_inv in D as (mc & m2 & -> & Dc & D).
  apply denotes_chr_inv in Dc as (c & -> & Hc).
  apply denotes_seq_inv in D as (md & m3 & -> & Dd & _).
  apply denotes_ch_inv in Dd as ->.
  exists c, m3. split; [|reflexivity].
  apply orb_prop in Hc as [Hc | Hc]; apply Ascii.eqb_eq in Hc; auto.
Qed.

(** X7.  Whatever the path pattern returns fails the test [/^10\.\d{4,}\//]:
    its character class [[10]] matches one digit where the two digits [10]
    are meant, so the first strategy of [extractDOIFromPDFUrl] never yields a
    valid DOI. *)
Theorem doiInPath_never_valid (url doi : string) :
  Re.match_group doiInPath_re url = Some doi -> valid_doi doi = false.
Proof.
  intros H. apply doiInPath_capture in H as (c & rest & Hc & ->).
  unfold valid_doi, Re.test_anchored, Re.match_here. rewrite chars_str.
  destruct Hc as [-> | ->]; reflexivity.
Qed.

Lemma doiInPath_never_valid_witness :
  Re.match_group doiInPath_re "https://example.com/files/0.12345/report.pdf"
  = Some "0.12345/report"
  /\ valid_doi "0.12345/report" = false.
Proof.
  split; [reflexivity|].
  apply (doiInPath_never_valid "https://example.com/files/0.12345/report.pdf").
  reflexivity.
Defined.

(** ** The cache *)

(** X10.  What [cacheOAStatus] stores under a DOI, [getCachedOAStatus] returns
    for that DOI as long as less than [CACHE_DURATION] has passed, whatever
    the store held for it before; the lookup leaves the entry in place. *)
Theorem cache_round_trip (w w' : World) (st : State) (doi : string)
    (record : OAStatus) :
  Js.truthy doi = true ->
  storage_fails w OpSet (cacheKey (Some doi)) = false ->
  storage_fails w' OpGet (cacheKey (Some doi)) = false ->
  now w' - now w < COPYRIGHT_CONFIG.CACHE_DURATION ->
  let stored := (cacheOAStatus (Some doi) (Some record) w st).2 in
  let lookup := getCachedOAStatus (Some doi) w' stored in
  lookup.1 = Ok (Some record) /\ storage lookup.2 = storage stored.
Proof.
  intros Hdoi Hset Hget Hage stored lookup. subst lookup stored.
  unfold cacheOAStatus, getCachedOAStatus. cbn [Js.truthy_opt]. rewrite Hdoi.
  cbn [negb]. unfold try_catch, storage_set, storage_get, ask, mbind, M_bind.
  rewrite Hset. cbn [fst snd storage events academicDatabases]. rewrite Hget.
  rewrite lookup_insert_eq. cbn [timestamp data].
  apply Z.ltb_lt in Hage. rewrite Hage. now split.
Qed.

Lemma cache_round_trip_witness :
  let record := status_of_registry Sample.open_access in
  let stored :=
    (cacheOAStatus (Some "10.1234/abc") (Some record) Sample.world Sample.state).2 in
  let lookup := getCachedOAStatus (Some "10.1234/abc") Sample.slow_world stored in
  lookup.1 = Ok (Some record) /\ storage lookup.2 = storage stored.
Proof.
  apply (cache_round_trip Sample.world Sample.slow_world Sample.state "10.1234/abc");
    reflexivity.
Defined.

(** X11.  An entry whose age has reached [CACHE_DURATION] (the bound itself
    included) is not returned: the lookup answers [null] and deletes the
    entry. *)
Theorem cache_expiry (w : World) (st : State) (doi : string) (entry : CacheEntry) :
  Js.truthy doi = true ->
  storage_fails w OpGet (cacheKey (Some doi)) = false ->
  storage_fails w OpRemove (cacheKey (Some doi)) = false ->
  storage st !! cacheKey (Some doi) = Some entry ->
  COPYRIGHT_CONFIG.CACHE_DURATION <= now w - timestamp entry ->
  getCachedOAStatus (Some doi) w st
  = (Ok None,
     MkState (academicDatabases st) (delete (cacheKey (Some doi)) (storage st))
       (events st ++ [EvStorageGet (cacheKey (Some doi));
                      EvStorageRemove (cacheKey (Some doi))])).
Proof.
  intros Hdoi Hget Hrem Hlook Hage.
  unfold getCachedOAStatus. cbn [Js.truthy_opt]. rewrite Hdoi. cbn [negb].
  unfold try_catch, storage_get, storage_remove, ask, mbind, M_bind.
  rewrite Hget, Hlook. cbn [fst snd storage events academicDatabases].
  apply Z.ltb_ge in Hage. rewrite Hage, Hrem.
  cbn [storage events academicDatabases]. now rewrite <- app_assoc.
Qed.

Lemma cache_expiry_witness :
  let entry := MkCacheEntry (not_found_status "10.1234/abc") 0 in
  let w := MkWorld COPYRIGHT_CONFIG.CACHE_DURATION (fun _ => None) None
             (fun _ => FetchAborted) (fun _ _ => false) in
  let st := MkState Sample.databases {["oa_cache_10.1234/abc" := entry]} [] in
  (getCachedOAStatus (Some "10.1234/abc") w st).1 = Ok None
  /\ storage (getCachedOAStatus (Some "10.1234/abc") w st).2
       !! "oa_cache_10.1234/abc" = None.
Proof.
  intros entry w st.
  rewrite (cache_expiry w st "10.1234/abc" entry eq_refl eq_refl eq_refl eq_refl);
    [|vm_compute; discriminate].
  split; [reflexivity|]. apply lookup_delete_eq.
Defined.

Lemma cacheOAStatus_effects doi record w st :
  exists st',
    cacheOAStatus doi (Some record) w st = (Ok tt, st')
    /\ academicDatabases st' = academicDatabases st
    /\ ((events st' = events st /\ storage st' = storage st)
        \/ (events st'
            = (events st
               ++ [EvStorageSet (cacheKey doi) (MkCacheEntry record (now w))])%list
            /\ (storage st' = storage st
                \/ storage st'
                   = <[cacheKey doi := MkCacheEntry record (now w)]> (storage st)))).
Proof.
  unfold cacheOAStatus. destruct (negb (Js.truthy_opt doi)).
  { exists st. repeat split. now left. }
  unfold try_catch, storage_set, ask, mbind, M_bind.
  cbn [fst snd storage events academicDatabases].
  destruct (storage_fails w OpSet (cacheKey doi)); eexists;
    (split; [reflexivity|]); (split; [reflexivity|]); right; cbn; auto.
Qed.

(** X12.  The cache operations on one DOI leave the entries of every other DOI
    as they are. *)
Theorem cache_other_doi (w : World) (st : State) (doi other : string)
    (record : option OAStatus) :
  doi <> other ->
  storage (cacheOAStatus (Some doi) record w st).2 !! cacheKey (Some other)
  = storage st !! cacheKey (Some other)
  /\ storage (getCachedOAStatus (Some doi) w st).2 !! cacheKey (Some other)
     = storage st !! cacheKey (Some other).
Proof.
  intros Hne.
  assert (cacheKey (Some doi) <> cacheKey (Some other)) as Hkey
    by (intros H; now apply cacheKey_inj in H).
  split.
  - destruct record as [record|]; [|reflexivity].
    destruct (cacheOAStatus_effects (Some doi) record w st)
      as (st' & Hrun & _ & Hcases).
    rewrite Hrun. cbn [snd].
    destruct Hcases as [[_ Hs] | [_ [Hs | Hs]]]; rewrite Hs; try reflexivity.
    now apply lookup_insert_ne.
  - destruct (getCachedOAStatus_effects (Some doi) w st)
      as (r & evs & st' & Hrun & _ & _ & _ & Hcases & _).
    rewrite Hrun. cbn [snd].
    destruct Hcases as [Hs | Hs]; rewrite Hs; [reflexivity|].
    now apply lookup_delete_ne.
Qed.

Lemma cache_other_doi_witness :
  storage (cacheOAStatus (Some "10.1234/abc") (Some (not_found_status "10.1234/abc"))
             Sample.world Sample.state).2 !! cacheKey (Some "10.5555/xyz")
  = storage Sample.state !! cacheKey (Some "10.5555/xyz")
  /\ storage (getCachedOAStatus (Some "10.1234/abc") Sample.world Sample.state).2
       !! cacheKey (Some "10.5555/xyz")
     = storage Sample.state !! cacheKey (Some "10.5555/xyz").
Proof.
  apply (cache_other_doi Sample.world Sample.state "10.1234/abc" "10.5555/xyz"
           (Some (not_found_status "10.1234/abc"))).
  apply String.eqb_neq. reflexivity.
Defined.

(** ** The resolver *)

Lemma count_events_app p (a b : list Event) :
  count_events p (a ++ b) = (count_events p a + count_events p b)%nat.
Proof. unfold count_events. now rewrite List.filter_app, length_app. Qed.

Lemma count_events_none p (l : list Event) :
  forallb (fun e => negb (p e)) l = true -> count_events p l = 0%nat.
Proof.
  unfold count_events. induction l as [|e l IH]; [reflexivity|].
  cbn. destruct (p e); [discriminate|]. exact IH.
Qed.

(** A cache lookup logs reads and removals of the store only. *)
Lemma getCachedOAStatus_log doi w st :
  exists evs,
    events (getCachedOAStatus doi w st).2 = (events st ++ evs)%list
    /\ forallb is_cache_access evs = true.
Proof.
  unfold getCachedOAStatus.
  destruct (negb (Js.truthy_opt doi)).
  { exists []. now rewrite app_nil_r. }
  unfold try_catch, storage_get, storage_remove, ask, mbind, M_bind.
  destruct (storage_fails w OpGet (cacheKey doi)); [now eexists [_]|].
  destruct (storage st !! cacheKey doi) as [cached|]; [|now eexists [_]].
  cbn [fst snd storage events academicDatabases].
  destruct (now w - timestamp cached <? COPYRIGHT_CONFIG.CACHE_DURATION);
    [now eexists [_]|].
  cbn [storage events academicDatabases].
  destruct (storage_fails w OpRemove (cacheKey doi));
    eexists [_; _]; cbn; now rewrite <- app_assoc.
Qed.

Lemma queryUnpaywall_after_miss doi w st stc :
  Js.truthy_opt doi = true ->
  getCachedOAStatus doi w st = (Ok None, stc) ->
  let clean := cleanDOI (Js.show doi) in
  let url := unpaywall_url clean in
  exists r st',
    queryUnpaywall doi w st = (Ok r, st')
    /\ academicDatabases st' = academicDatabases stc
    /\ ((events st' = (events stc ++ [EvFetch url])%list
         /\ storage st' = storage stc)
        \/ (oa_error r = None
            /\ events st'
               = (events stc
                  ++ [EvFetch url;
                      EvStorageSet (cacheKey (Some clean)) (MkCacheEntry r (now w))])%list
            /\ (storage st' = storage stc
                \/ storage st'
                   = <[cacheKey (Some clean) := MkCacheEntry r (now w)]> (storage stc)))).
Proof.
  intros Hdoi Hrun clean url.
  unfold queryUnpaywall. rewrite Hdoi. cbn [negb].
  rewrite (bind_ok _ _ _ _ _ _ Hrun). fold clean. fold url.
  unfold try_catch, fetch, emit, ask, throw, response_json, mbind, M_bind.
  cbn [fst snd].
  set (stf := MkState (academicDatabases stc) (storage stc)
                (events stc ++ [EvFetch url])).
  assert (forall record,
    oa_error record = None ->
    exists st',
      cacheOAStatus (Some clean) (Some record) w stf = (Ok tt, st')
      /\ academicDatabases st' = academicDatabases stc
      /\ ((events st' = (events stc ++ [EvFetch url])%list
           /\ storage st' = storage stc)
          \/ (oa_error record = None
              /\ events st'
                 = (events stc
                    ++ [EvFetch url;
                        EvStorageSet (cacheKey (Some clean))
                          (MkCacheEntry record (now w))])%list
              /\ (storage st' = storage stc
                  \/ storage st'
                     = <[cacheKey (Some clean) := MkCacheEntry record (now w)]>
                         (storage stc))))) as Hcache.
  { intros record Hclean.
    destruct (cacheOAStatus_effects (Some clean) record w stf)
      as (st' & Hc & Hdb & Hcases).
    exists st'. split; [exact Hc|]. split; [exact Hdb|].
    destruct Hcases as [[Hev Hs] | [Hev Hs]].
    - left. now split.
    - right. split; [exact Hclean|]. split; [|exact Hs].
      rewrite Hev. cbn. now rewrite <- app_assoc. }
  destruct (registry w url) as [|msg|status body]; cbn -[cacheOAStatus pretty].
  - eexists _, _. split; [reflexivity|]. split; [reflexivity|]. left. now split.
  - eexists _, _. split; [reflexivity|]. split; [reflexivity|]. left. now split.
  - destruct (negb ((200 <=? status) && (status <=? 299))).
    + destruct (status =? 404).
      * destruct (Hcache (not_found_status clean) eq_refl)
          as (st' & Hc & Hdb & Hcases).
        rewrite Hc. cbn -[pretty]. now exists (not_found_status clean), st'.
      * cbn -[pretty]. eexists _, _. split; [reflexivity|]. split; [reflexivity|].
        left. now split.
    + destruct body as [msg| |d]; cbn -[cacheOAStatus pretty].
      * eexists _, _. split; [reflexivity|]. split; [reflexivity|]. left. now split.
      * eexists _, _. split; [reflexivity|]. split; [reflexivity|]. left. now split.
      * destruct (Hcache (status_of_registry d) eq_refl)
          as (st' & Hc & Hdb & Hcases).
        rewrite Hc. cbn -[pretty]. now exists (status_of_registry d), st'.
Qed.

(** The three shapes a call of [queryUnpaywall] can take: it stops before any
    request (no DOI, or an answer from the cache); it asks the registry and
    writes nothing; it asks the registry and writes the record it returns. *)
Lemma queryUnpaywall_shape doi w st :
  let key := cacheKey (Some (cleanDOI (Js.show doi))) in
  let url := unpaywall_url (cleanDOI (Js.show doi)) in
  exists r st' evs0 store0,
    queryUnpaywall doi w st = (Ok r, st')
    /\ academicDatabases st' = academicDatabases st
    /\ forallb is_cache_access evs0 = true
    /\ (store0 = storage st \/ store0 = delete (cacheKey doi) (storage st))
    /\ ((events st' = (events st ++ evs0)%list /\ storage st' = store0)
        \/ (events st' = (events st ++ evs0 ++ [EvFetch url])%list
            /\ storage st' = store0)
        \/ (oa_error r = None
            /\ events st'
               = (events st ++ evs0
                  ++ [EvFetch url; EvStorageSet key (MkCacheEntry r (now w))])%list
            /\ (storage st' = store0
                \/ storage st' = <[key := MkCacheEntry r (now w)]> store0))).
Proof.
  intros key url.
  destruct (Js.truthy_opt doi) eqn:Hdoi.
  2:{ exists no_doi_status, st, [], (storage st).
      unfold queryUnpaywall. rewrite Hdoi. cbn [negb].
      split; [reflexivity|]. split; [reflexivity|]. split; [reflexivity|].
      split; [now left|]. left. now rewrite app_nil_r. }
  destruct (getCachedOAStatus_effects doi w st)
    as (r0 & evs0 & stc & Hrun & Hev & _ & Hdb & Hsto & _).
  assert (forallb is_cache_access evs0 = true) as Hquiet.
  { destruct (getCachedOAStatus_log doi w st) as (evs & Hev' & Hlog).
    rewrite Hrun in Hev'. cbn [snd] in Hev'. rewrite Hev in Hev'.
    apply app_inv_head in Hev' as ->. exact Hlog. }
  destruct r0 as [cached|].
  - exists cached, stc, evs0, (storage stc).
    unfold queryUnpaywall. rewrite Hdoi. cbn [negb].
    rewrite (bind_ok _ _ _ _ _ _ Hrun).
    split; [reflexivity|]. split; [exact Hdb|]. split; [exact Hquiet|].
    split; [exact Hsto|]. left. now split.
  - destruct (queryUnpaywall_after_miss doi w st stc Hdoi Hrun)
      as (r & st' & Hq & Hdb' & Hcases).
    exists r, st', evs0, (storage stc).
    split; [exact Hq|]. split; [congruence|]. split; [exact Hquiet|].
    split; [exact Hsto|]. right.
    destruct Hcases as [[Hev' Hs] | (Hclean & Hev' & Hs)].
    + left. split; [|exact Hs]. now rewrite Hev', Hev, <- app_assoc.
    + right. split; [exact Hclean|]. split; [|exact Hs].
      now rewrite Hev', Hev, <- app_assoc.
Qed.

Lemma quiet_counts evs :
  forallb is_cache_access evs = true ->
  count_events is_fetch evs = 0%nat
  /\ count_events is_cache_write evs = 0%nat
  /\ count_events is_load evs = 0%nat
  /\ forall key entry, ~ In (EvStorageSet key entry) evs.
Proof.
  intros H. repeat split.
  - apply count_events_none. apply forallb_forall. intros e He.
    apply (proj1 (forallb_forall _ _) H) in He. now destruct e.
  - apply count_events_none. apply forallb_forall. intros e He.
    apply (proj1 (forallb_forall _ _) H) in He. now destruct e.
  - apply count_events_none. apply forallb_forall. intros e He.
    apply (proj1 (forallb_forall _ _) H) in He. now destruct e.
  - intros key entry He. apply (proj1 (forallb_forall _ _) H) in He. discriminate.
Qed.

(** X13.  A call of [queryUnpaywall] always returns a record: it never
    throws, never changes the domain lists, issues at most one registry
    request and at most one cache write, and leaves every entry of the store
    alone except the one it reads and the one it writes. *)
Theorem queryUnpaywall_contained (doi : option string) (w : World) (st : State) :
  exists r st' evs,
    queryUnpaywall doi w st = (Ok r, st')
    /\ academicDatabases st' = academicDatabases st
    /\ events st' = (events st ++ evs)%list
    /\ (count_events is_fetch evs <= 1)%nat
    /\ (count_events is_cache_write evs <= 1)%nat
    /\ forall key,
         key <> cacheKey doi ->
         key <> cacheKey (Some (cleanDOI (Js.show doi))) ->
         storage st' !! key = storage st !! key.
Proof.
  destruct (queryUnpaywall_shape doi w st)
    as (r & st' & evs0 & store0 & Hq & Hdb & Hquiet & Hstore0 & Hcases).
  destruct (quiet_counts evs0 Hquiet) as (Hf & Hw & _ & _).
  assert (forall key, key <> cacheKey doi -> store0 !! key = storage st !! key)
    as Hother.
  { intros key Hne. destruct Hstore0 as [-> | ->]; [reflexivity|].
    now apply lookup_delete_ne. }
  destruct Hcases as [[Hev Hs] | [[Hev Hs] | (_ & Hev & Hs)]].
  - exists r, st', evs0. repeat split; try assumption; try lia.
    intros key Hne _. rewrite Hs. now apply Hother.
  - eexists r, st', _. split; [exact Hq|]. split; [exact Hdb|].
    split; [exact Hev|]. repeat split.
    + rewrite count_events_app, Hf. cbn. lia.
    + rewrite count_events_app, Hw. cbn. lia.
    + intros key Hne _. rewrite Hs. now apply Hother.
  - eexists r, st', _. split; [exact Hq|]. split; [exact Hdb|].
    split; [exact Hev|]. repeat split.
    + rewrite count_events_app, Hf. cbn. lia.
    + rewrite count_events_app, Hw. cbn. lia.
    + intros key Hne Hne'. destruct Hs as [-> | ->]; [now apply Hother|].
      rewrite lookup_insert_ne; [now apply Hother|congruence].
Qed.

(** X14.  What [queryUnpaywall] writes to the cache is the record it returns,
    under the key of the cleaned DOI, stamped with the current time, and
    that record has no [error]: a failure is never cached, and a store
    without such entries stays without them. *)
Theorem queryUnpaywall_writes (doi : option string) (w : World) (st : State) :
  exists r st' evs,
    queryUnpaywall doi w st = (Ok r, st')
    /\ events st' = (events st ++ evs)%list
    /\ (forall key entry,
          In (EvStorageSet key entry) evs ->
          key = cacheKey (Some (cleanDOI (Js.show doi)))
          /\ entry = MkCacheEntry r (now w)
          /\ oa_error r = None)
    /\ (cache_clean (storage st) -> cache_clean (storage st')).
Proof.
  destruct (queryUnpaywall_shape doi w st)
    as (r & st' & evs0 & store0 & Hq & Hdb & Hquiet & Hstore0 & Hcases).
  destruct (quiet_counts evs0 Hquiet) as (_ & _ & _ & Hnone).
  assert (cache_clean (storage st) -> cache_clean store0) as Hclean0.
  { intros Hc key entry. destruct Hstore0 as [-> | ->]; [apply Hc|].
    intros H. apply lookup_delete_Some in H as [_ H]. now apply Hc in H. }
  destruct Hcases as [[Hev Hs] | [[Hev Hs] | (Herr & Hev & Hs)]].
  - exists r, st', evs0. repeat split; try assumption;
      try (intros; exfalso; eapply Hnone; eassumption).
    rewrite Hs. exact Hclean0.
  - eexists r, st', _. split; [exact Hq|].
    split; [exact Hev|]. split.
    + intros key entry Hin. apply in_app_or in Hin as [Hin | [Hin | []]];
        [exfalso; eapply Hnone; eassumption|discriminate].
    + rewrite Hs. exact Hclean0.
  - eexists r, st', _. split; [exact Hq|].
    split; [exact Hev|]. split.
    + intros key entry Hin.
      apply in_app_or in Hin as [Hin | [Hin | [Hin | []]]];
        [exfalso; eapply Hnone; eassumption|discriminate|].
      injection Hin as <- <-. now repeat split.
    + intros Hc. apply Hclean0 in Hc. destruct Hs as [-> | ->]; [exact Hc|].
      intros k e H. apply lookup_insert_Some in H as [[_ <-] | [_ H]];
        [exact Herr|now apply Hc in H].
Qed.

(** X15.  A DOI the registry does not know (status 404) is answered with the
    [not_found] record, and that record is stored under the cleaned DOI: a
    later call for the cleaned DOI within [CACHE_DURATION] returns it from
    the cache without a request. *)
Theorem queryUnpaywall_not_found (w w' : World) (st : State) (doi : string)
    (body : Body) :
  Js.truthy doi = true ->
  Js.truthy (cleanDOI doi) = true ->
  (forall op key, storage_fails w op key = false) ->
  storage_fails w' OpGet (cacheKey (Some (cleanDOI doi))) = false ->
  storage st !! cacheKey (Some doi) = None ->
  registry w (unpaywall_url (cleanDOI doi)) = FetchResponse 404 body ->
  now w' - now w < COPYRIGHT_CONFIG.CACHE_DURATION ->
  let record := not_found_status (cleanDOI doi) in
  exists st1,
    queryUnpaywall (Some doi) w st = (Ok record, st1)
    /\ storage st1
       = <[cacheKey (Some (cleanDOI doi)) := MkCacheEntry record (now w)]> (storage st)
    /\ queryUnpaywall (Some (cleanDOI doi)) w' st1
       = (Ok record,
          MkState (academicDatabases st1) (storage st1)
            (events st1 ++ [EvStorageGet (cacheKey (Some (cleanDOI doi)))])).
Proof.
  intros Hdoi Hclean Hok Hget Hlook Hreg Hage record.
  assert (exists st1,
    queryUnpaywall (Some doi) w st = (Ok record, st1)
    /\ storage st1
       = <[cacheKey (Some (cleanDOI doi)) := MkCacheEntry record (now w)]> (storage st))
    as (st1 & Hq & Hsto).
  { unfold queryUnpaywall, getCachedOAStatus. cbn [Js.truthy_opt Js.show].
    rewrite Hdoi. cbn [negb].
    unfold try_catch, storage_get, ask, mbind, M_bind.
    rewrite Hok, Hlook.
    unfold fetch, emit, ask, mbind, M_bind. cbn -[cacheOAStatus]. rewrite Hreg.
    cbn -[cacheOAStatus].
    unfold cacheOAStatus. cbn [Js.truthy_opt]. rewrite Hclean. cbn [negb].
    unfold try_catch, storage_set, ask, mbind, M_bind. cbn. rewrite Hok. cbn.
    eexists. split; reflexivity. }
  exists st1. split; [exact Hq|]. split; [exact Hsto|].
  apply (queryUnpaywall_cache_hit w' st1 (Some (cleanDOI doi))
           (MkCacheEntry record (now w))); auto.
  rewrite Hsto. apply lookup_insert_eq.
Qed.

Lemma queryUnpaywall_not_found_witness :
  let w := MkWorld 1700000000000 Sample.url_parse None
             (fun _ => FetchResponse 404 BodyNull) (fun _ _ => false) in
  let first := queryUnpaywall (Some "doi:10.1234/abc") w Sample.state in
  first.1 = Ok (not_found_status "10.1234/abc")
  /\ (queryUnpaywall (Some "10.1234/abc") w first.2).1
     = Ok (not_found_status "10.1234/abc").
Proof.
  intros w.
  destruct (queryUnpaywall_not_found w w Sample.state "doi:10.1234/abc" BodyNull)
    as (st1 & Hq & _ & Hq'); try reflexivity.
  cbv zeta. rewrite Hq. cbn [fst snd]. split; [reflexivity|].
  change (cleanDOI "doi:10.1234/abc") with "10.1234/abc" in Hq'.
  now rewrite Hq'.
Defined.

(** X17.  However the registry call fails (timeout, failed connection, a
    status outside 2xx other than 404, a body that is not JSON or is [null]),
    [queryUnpaywall] returns [is_oa = false] with the message as [error] and
    writes nothing; a [checkCopyright] that reaches this query blocks the page
    as [verification_failed] with confidence [low], unless the message is
    empty. *)
Theorem queryUnpaywall_failure (w : World) (st : State) (doi : option string)
    (msg : string) :
  Js.truthy_opt doi = true ->
  (getCachedOAStatus doi w st).1 = Ok None ->
  failure_message (registry w (unpaywall_url (cleanDOI (Js.show doi)))) = Some msg ->
  exists st' evs,
    queryUnpaywall doi w st = (Ok (failed_status msg), st')
    /\ events st' = (events st ++ evs)%list
    /\ count_events is_cache_write evs = 0%nat
    /\ count_events is_fetch evs = 1%nat
    /\ (storage st' = storage st \/ storage st' = delete (cacheKey doi) (storage st))
    /\ forall st0 pd domain,
         (ensureDatabasesLoaded w st0).2 = st ->
         (domainOf pd w st).1 = Ok domain ->
         domain_in (whitelist (academicDatabases st)) domain = false ->
         (enrichDOI pd w st).1 = Ok doi ->
         Js.truthy msg = true ->
         exists d,
           checkCopyright (Some pd) w st0 = (Ok d, st')
           /\ allowed d = false /\ category d = verification_failed
           /\ confidence d = low.
Proof.
  intros Hdoi Hmiss Hfail.
  destruct (getCachedOAStatus_effects doi w st)
    as (r0 & evs0 & stc & Hrun & Hev & _ & Hdb & Hsto & _).
  assert (forallb is_cache_access evs0 = true) as Hquiet.
  { destruct (getCachedOAStatus_log doi w st) as (evs & Hev' & Hlog).
    rewrite Hrun in Hev'. cbn [snd] in Hev'. rewrite Hev in Hev'.
    apply app_inv_head in Hev' as ->. exact Hlog. }
  rewrite Hrun in Hmiss. cbn [fst] in Hmiss. injection Hmiss as ->.
  destruct (quiet_counts evs0 Hquiet) as (Hf & Hw & _ & _).
  set (url := unpaywall_url (cleanDOI (Js.show doi))) in *.
  set (st' := MkState (academicDatabases stc) (storage stc)
                (events stc ++ [EvFetch url])).
  assert (queryUnpaywall doi w st = (Ok (failed_status msg), st')) as Hq.
  { unfold queryUnpaywall. rewrite Hdoi. cbn [negb].
    rewrite (bind_ok _ _ _ _ _ _ Hrun). fold url.
    unfold try_catch, fetch, emit, ask, throw, response_json, mbind, M_bind.
    cbn [fst snd]. fold st'. unfold failure_message in Hfail.
    destruct (registry w url) as [|m|status body]; cbn -[pretty] in *.
    - now injection Hfail as <-.
    - now injection Hfail as <-.
    - destruct ((200 <=? status) && (status <=? 299)); cbn -[pretty] in *.
      + destruct body as [m| |d]; cbn; [| |discriminate];
          now injection Hfail as <-.
      + destruct (status =? 404); [discriminate|]. cbn -[pretty].
        now injection Hfail as <-. }
  exists st', (evs0 ++ [EvFetch url])%list.
  split; [exact Hq|]. split; [cbn; now rewrite Hev, app_assoc|].
  split; [rewrite count_events_app, Hw; reflexivity|].
  split; [rewrite count_events_app, Hf; reflexivity|].
  split; [exact Hsto|].
  intros st0 pd domain Hload Hdom Hwl Hen Hmsg.
  destruct (ensureDatabasesLoaded_total w st0) as [st1 Hload'].
  assert (st1 = st) as -> by (now rewrite Hload' in Hload).
  assert (domainOf pd w st = (Ok domain, st)) as Hdom'.
  { rewrite (surjective_pairing (domainOf pd w st)), Hdom. f_equal.
    apply domainOf_state. }
  exists (verification_failed_decision (failed_status msg)).
  split; [|now repeat split].
  unfold checkCopyright. apply try_catch_ok.
  rewrite (checkCopyright_try_steps _ _ _ _ _ Hload' Hdom'), Hwl, Hen, Hdoi, Hq.
  unfold resolved_decision. cbn [oa_error failed_status is_oa Js.truthy_opt].
  now rewrite Hmsg.
Qed.

Lemma queryUnpaywall_failure_witness :
  let w := MkWorld 1700000000000 Sample.url_parse None
             (fun _ => FetchResponse 503 BodyNull) (fun _ _ => false) in
  exists d st',
    checkCopyright
      (Some (MkPageData (Some "https://publisher.example/abc")
               (Some "publisher.example") (Some "10.1234/abc") false (Some "web")))
      w Sample.state = (Ok d, st')
    /\ allowed d = false /\ category d = verification_failed /\ confidence d = low.
Proof.
  intros w.
  destruct (queryUnpaywall_failure w Sample.state (Some "10.1234/abc")
              "Unpaywall API error: 503" eq_refl eq_refl eq_refl)
    as (st' & evs & _ & _ & _ & _ & _ & Hcheck).
  destruct (Hcheck Sample.state
              (MkPageData (Some "https://publisher.example/abc")
                 (Some "publisher.example") (Some "10.1234/abc") false (Some "web"))
              "publisher.example" eq_refl eq_refl eq_refl eq_refl eq_refl)
    as (d & Hd & Hrest).
  now exists d, st'.
Defined.

(** ** The admission controller *)

Section ListsOnly.
Context {A B : Type}.

Lemma lists_only_ret (a : A) : lists_only (mret a).
Proof. intros w st. now split. Qed.

Lemma lists_only_throw (e : Exn) : lists_only (throw e : M A).
Proof. intros w st. now split. Qed.

Lemma lists_only_ask (f : World -> A) : lists_only (ask f).
Proof. intros w st. now split. Qed.

Lemma lists_only_read (field : AcademicDatabases -> A) : lists_only (read field).
Proof. intros w st. now split. Qed.

Lemma lists_only_bind (m : M A) (f : A -> M B) :
  lists_only m -> (forall a, lists_only (f a)) -> lists_only (m ≫= f).
Proof.
  intros Hm Hf w st. unfold mbind, M_bind.
  destruct (Hm w st) as [Hs0 He0].
  destruct (m w st) as [[a|e] st1]; cbn [snd] in *.
  - destruct (Hf a w st1) as [Hs He]. split; congruence.
  - now split.
Qed.

Lemma lists_only_try_catch (m : M A) (h : Exn -> M A) :
  lists_only m -> (forall e, lists_only (h e)) -> lists_only (try_catch m h).
Proof.
  intros Hm Hh w st. unfold try_catch.
  destruct (Hm w st) as [Hs0 He0].
  destruct (m w st) as [[a|e] st1]; cbn [snd] in *.
  - now split.
  - destruct (Hh e w st1) as [Hs He]. split; congruence.
Qed.
End ListsOnly.

Lemma lists_only_update f : lists_only (update f).
Proof. intros w st. now split. Qed.

Lemma lists_only_push_categories cats : lists_only (push_categories cats).
Proof.
  induction cats as [|c rest IH]; [apply lists_only_ret|].
  destruct c as [domains|subs| |]; cbn [push_categories].
  - apply lists_only_bind; [|intros _; exact IH].
    intros w st. now rewrite push_blacklist_run.
  - apply lists_only_bind; [|intros _; exact IH].
    intros w st. now rewrite push_subcategories_run.
  - apply lists_only_throw.
  - exact IH.
Qed.

Lemma loadAcademicDatabases_effects w st :
  exists b st1,
    loadAcademicDatabases w st = (Ok b, st1)
    /\ storage st1 = storage st
    /\ events st1 = (events st ++ [EvLoadDataset])%list.
Proof.
  unfold loadAcademicDatabases, try_catch.
  rewrite (bind_ok (emit EvLoadDataset) _ w st tt
             (MkState (academicDatabases st) (storage st)
                (events st ++ [EvLoadDataset])) eq_refl).
  match goal with
  | |- context [?rest w (MkState ?d ?s ?e)] =>
      assert (lists_only rest) as Hrest;
      [|destruct (Hrest w (MkState d s e)) as [Hs He];
        destruct (rest w (MkState d s e)) as [[b|e0] st2]]
  end.
  - repeat first
      [ apply lists_only_bind; [|intros ?]
      | apply lists_only_ret | apply lists_only_throw | apply lists_only_ask
      | apply lists_only_update | apply lists_only_push_categories
      | match goal with |- lists_only (match ?x with _ => _ end) => destruct x end ].
  - now exists b, st2.
  - now exists false, st2.
Qed.

(** The lazy load at the head of [checkCopyright] leaves the store alone and
    logs at most the one load. *)
Lemma ensureDatabasesLoaded_effects w st :
  exists st1,
    ensureDatabasesLoaded w st = (Ok tt, st1)
    /\ storage st1 = storage st
    /\ (events st1 = events st \/ events st1 = (events st ++ [EvLoadDataset])%list).
Proof.
  unfold ensureDatabasesLoaded, read, mbind, M_bind.
  destruct (length _ =? 0)%nat; [|exists st; auto].
  destruct (loadAcademicDatabases_effects w st) as (b & st1 & -> & Hs & He).
  exists st1. auto.
Qed.

(** The two ways a call of [checkCopyright] can go: it decides in the state
    the lazy load left, or it decides from the record of one resolver call. *)
Lemma checkCopyright_paths pageData w st :
  exists st1,
    ensureDatabasesLoaded w st = (Ok tt, st1)
    /\ ((exists d,
           checkCopyright pageData w st = (Ok d, st1)
           /\ (d = whitelist_decision
               \/ (exists pd domain,
                     pageData = Some pd
                     /\ d = no_doi_decision (academicDatabases st1) domain (isPDFOf pd))
               \/ (exists e, d = error_decision e)))
        \/ (exists pd doi r st2,
              pageData = Some pd
              /\ Js.truthy_opt doi = true
              /\ queryUnpaywall doi w st1 = (Ok r, st2)
              /\ checkCopyright pageData w st
                 = (Ok (resolved_decision r (pd_url pd) doi), st2))).
Proof.
  destruct (ensureDatabasesLoaded_total w st) as [st1 Hload].
  exists st1. split; [exact Hload|].
  unfold checkCopyright.
  destruct pageData as [pd|].
  2:{ left. eexists. split; [|right; right; eexists; reflexivity].
      unfold try_catch, checkCopyright_try.
      rewrite (bind_ok _ _ _ _ _ _ Hload). reflexivity. }
  destruct (domainOf pd w st1) as [[domain|e] st1'] eqn:Hdom.
  2:{ left. exists (error_decision e). split; [|right; right; now exists e].
      assert (st1' = st1) as -> by (now rewrite <- (domainOf_state pd w st1), Hdom).
      unfold try_catch, checkCopyright_try.
      rewrite (bind_ok _ _ _ _ _ _ Hload).
      rewrite (bind_ok (mret pd) _ w st1 pd st1 eq_refl).
      now rewrite (bind_throw _ _ _ _ _ _ Hdom). }
  assert (st1' = st1) as -> by (now rewrite <- (domainOf_state pd w st1), Hdom).
  unfold try_catch. rewrite (checkCopyright_try_steps _ _ _ _ _ Hload Hdom).
  destruct (domain_in (whitelist _) domain).
  { left. exists whitelist_decision. split; [reflexivity|now left]. }
  destruct (enrichDOI_pure pd w st1) as [doi Hdoi]. rewrite Hdoi. cbn [fst].
  destruct (Js.truthy_opt doi) eqn:Htruthy; cbn [negb].
  2:{ left. eexists. split; [reflexivity|]. right. left. now exists pd, domain. }
  right.
  destruct (queryUnpaywall_shape doi w st1) as (r & st2 & _ & _ & Hq & _).
  exists pd, doi, r, st2. rewrite Hq. now repeat split.
Qed.

Lemma resolved_decision_category r url doi :
  let d := resolved_decision r url doi in
  (category d = verification_failed \/ category d = oa_verified
   \/ category d = paywalled)
  /\ allowed d = category_allowed (category d)
  /\ confidence d = category_confidence (category d).
Proof.
  unfold resolved_decision.
  destruct (_ && _); [now auto|]. destruct (is_oa r); now auto.
Qed.

(** X18.  The category of a decision fixes its verdict and its confidence:
    [whitelist], [unknown_html] and [oa_verified] are allowed, every other
    category is blocked; [whitelist], [blacklist], [oa_verified] and
    [paywalled] have confidence [high], [unknown_pdf] has [medium], the rest
    [low]. *)
Theorem checkCopyright_category_table (w : World) (st : State)
    (pageData : option PageData) (d : Decision) (st' : State) :
  checkCopyright pageData w st = (Ok d, st') ->
  allowed d = category_allowed (category d)
  /\ confidence d = category_confidence (category d).
Proof.
  intros Hrun.
  destruct (checkCopyright_paths pageData w st) as (st1 & _ & Hpaths).
  destruct Hpaths as [(d0 & Hd & Hform) | (pd & doi & r & st2 & _ & _ & _ & Hd)];
    rewrite Hd in Hrun; injection Hrun as <- _.
  - destruct Hform as [-> | [(pd & domain & _ & ->) | (e & ->)]]; [now split| |now split].
    unfold no_doi_decision.
    destruct (domain_in _ _); [now split|]. now destruct (isPDFOf pd).
  - apply resolved_decision_category.
Qed.

Lemma checkCopyright_category_table_witness :
  allowed blacklist_decision = false /\ confidence blacklist_decision = high.
Proof.
  apply (checkCopyright_category_table Sample.world Sample.state
           (Some (MkPageData (Some "https://ieeexplore.ieee.org/document/123.pdf")
                    (Some "ieeexplore.ieee.org") None true (Some "pdf")))
           blacklist_decision Sample.state).
  vm_compute. reflexivity.
Defined.

(** X19.  The optional fields go with the category.  Every blocked decision
    other than [error] carries a suggestion; a warning is present exactly on
    [unknown_html]; the [error] field is present exactly on [error]; and the
    DOI is reported, non-empty, exactly on [oa_verified] and [paywalled]. *)
Theorem checkCopyright_optional_fields (w : World) (st : State)
    (pageData : option PageData) (d : Decision) (st' : State) :
  checkCopyright pageData w st = (Ok d, st') ->
  (allowed d = false -> category d <> error_cat -> is_Some (suggestion d))
  /\ (is_Some (warning d) <-> category d = unknown_html)
  /\ (is_Some (d_error d) <-> category d = error_cat)
  /\ (Js.truthy_opt (d_doi d) = true <->
      category d = oa_verified \/ category d = paywalled).
Proof.
  intros Hrun.
  destruct (checkCopyright_paths pageData w st) as (st1 & _ & Hpaths).
  assert (forall A (x : A), is_Some (Some x)) as Hsome by (intros; now eexists).
  assert (forall A, ~ is_Some (@None A)) as Hnone by (intros A [x [=]]).
  destruct Hpaths as [(d0 & Hd & Hform) | (pd & doi & r & st2 & _ & Hdoi & _ & Hd)];
    rewrite Hd in Hrun; injection Hrun as <- _.
  - destruct Hform as [-> | [(pd & domain & _ & ->) | (e & ->)]].
    + cbn. repeat split; try discriminate; try (intros H; now apply Hnone in H);
        intros [|]; discriminate.
    + unfold no_doi_decision.
      destruct (domain_in _ _); [|destruct (isPDFOf pd)]; cbn;
        repeat split; try discriminate; try (intros; apply Hsome);
        try (intros H; now apply Hnone in H); intros [|]; discriminate.
    + cbn. repeat split; try discriminate; try congruence;
        try (intros; apply Hsome); try (intros H; now apply Hnone in H);
        intros [|]; discriminate.
  - unfold resolved_decision.
    destruct (_ && _); [|destruct (is_oa r)]; cbn; rewrite ?Hdoi;
      repeat split; try discriminate; try (intros; apply Hsome);
      try (intros H; now apply Hnone in H); auto; intros [|]; discriminate.
Qed.

Lemma checkCopyright_optional_fields_witness :
  is_Some (suggestion unknown_pdf_decision).
Proof.
  refine (proj1 (checkCopyright_optional_fields Sample.world Sample.state
           (Some (MkPageData (Some "https://unknown.example/files/report.pdf")
                    (Some "unknown.example") None true (Some "pdf")))
           unknown_pdf_decision Sample.state _) eq_refl _).
  - vm_compute. reflexivity.
  - discriminate.
Defined.

(** X20.  A PDF is never let through unverified: when the page is a PDF, an
    allowed decision is [whitelist] or [oa_verified], never [unknown_html]. *)
Theorem checkCopyright_pdf_conservative (w : World) (st : State)
    (pd : PageData) (d : Decision) (st' : State) :
  isPDFOf pd = true ->
  checkCopyright (Some pd) w st = (Ok d, st') ->
  allowed d = true ->
  category d = whitelist_cat \/ category d = oa_verified.
Proof.
  intros Hpdf Hrun Hallowed.
  destruct (checkCopyright_paths (Some pd) w st) as (st1 & _ & Hpaths).
  destruct Hpaths as [(d0 & Hd & Hform) | (pd' & doi & r & st2 & _ & _ & _ & Hd)];
    rewrite Hd in Hrun; injection Hrun as <- _.
  - destruct Hform as [-> | [(pd' & domain & [= <-] & ->) | (e & ->)]];
      [now left| |discriminate].
    revert Hallowed. unfold no_doi_decision. rewrite Hpdf.
    now destruct (domain_in _ _).
  - revert Hallowed. unfold resolved_decision.
    destruct (_ && _); [discriminate|]. destruct (is_oa r); [now right|discriminate].
Qed.

Lemma checkCopyright_pdf_conservative_witness :
  category whitelist_decision = whitelist_cat
  \/ category whitelist_decision = oa_verified.
Proof.
  apply (checkCopyright_pdf_conservative Sample.world Sample.state
           (MkPageData (Some "https://arxiv.org/pdf/2301.00001.pdf")
              (Some "arxiv.org") None true (Some "pdf"))
           whitelist_decision Sample.state); reflexivity.
Defined.

(** X21.  A page with a DOI whose domain is not whitelisted is judged by the
    record of the resolver alone, whether or not the domain is blacklisted:
    an error without [is_oa] blocks it as [verification_failed]; [is_oa]
    allows it as [oa_verified] and reports the DOI, the status and, when it
    is non-empty and differs from the page's URL, the open-access URL; else
    it is blocked as [paywalled]. *)
Theorem checkCopyright_with_doi (w : World) (st : State) (pd : PageData)
    (domain : string) (doi : option string) (r : OAStatus) (st2 : State) :
  let st1 := (ensureDatabasesLoaded w st).2 in
  (domainOf pd w st1).1 = Ok domain ->
  domain_in (whitelist (academicDatabases st1)) domain = false ->
  (enrichDOI pd w st1).1 = Ok doi ->
  Js.truthy_opt doi = true ->
  queryUnpaywall doi w st1 = (Ok r, st2) ->
  exists d,
    checkCopyright (Some pd) w st = (Ok d, st2)
    /\ if Js.truthy_opt (oa_error r) && negb (is_oa r)
       then allowed d = false /\ category d = verification_failed
            /\ confidence d = low
       else if is_oa r
       then allowed d = true /\ category d = oa_verified /\ confidence d = high
            /\ d_doi d = doi /\ d_oa_status d = oa_status r
            /\ d_oa_url d
               = (if Js.truthy_opt (oa_url r)
                     && negb (bool_decide (oa_url r = pd_url pd))
                  then oa_url r else None)
       else allowed d = false /\ category d = paywalled /\ confidence d = high
            /\ d_doi d = doi.
Proof.
  intros st1 Hdom Hwl Hen Hdoi Hq.
  destruct (ensureDatabasesLoaded_total w st) as [st1' Hload].
  assert (st1 = st1') as <- by (subst st1; now rewrite Hload).
  assert (domainOf pd w st1 = (Ok domain, st1)) as Hdom'.
  { rewrite (surjective_pairing (domainOf pd w st1)), Hdom. f_equal.
    apply domainOf_state. }
  exists (resolved_decision r (pd_url pd) doi). split.
  - unfold checkCopyright. apply try_catch_ok.
    now rewrite (checkCopyright_try_steps _ _ _ _ _ Hload Hdom'), Hwl, Hen, Hdoi, Hq.
  - unfold resolved_decision.
    destruct (_ && _); [now repeat split|].
    destruct (is_oa r); now repeat split.
Qed.

Lemma checkCopyright_with_doi_witness :
  exists d st2,
    checkCopyright
      (Some (MkPageData (Some "https://ieeexplore.ieee.org/document/123")
               (Some "ieeexplore.ieee.org") (Some "10.1234/abc") false (Some "web")))
      Sample.world Sample.state = (Ok d, st2)
    /\ allowed d = true /\ category d = oa_verified
    /\ d_oa_url d = Some "https://repo.example/abc.pdf".
Proof.
  set (pd := MkPageData (Some "https://ieeexplore.ieee.org/document/123")
               (Some "ieeexplore.ieee.org") (Some "10.1234/abc") false (Some "web")).
  set (q := queryUnpaywall (Some "10.1234/abc") Sample.world Sample.state).
  assert (q = (Ok (status_of_registry Sample.open_access), q.2)) as Hq.
  { rewrite (surjective_pairing q) at 1. f_equal. }
  destruct (checkCopyright_with_doi Sample.world Sample.state pd
              "ieeexplore.ieee.org" (Some "10.1234/abc") _ q.2
              eq_refl eq_refl eq_refl eq_refl Hq) as (d & Hd & Hrest).
  exists d, q.2. split; [exact Hd|]. cbn in Hrest.
  destruct Hrest as (? & ? & _ & _ & _ & Hurl). now repeat split.
Defined.

(** One resolver call logs no dataset load. *)
Lemma queryUnpaywall_log doi w st :
  exists r st' evs,
    queryUnpaywall doi w st = (Ok r, st')
    /\ events st' = (events st ++ evs)%list
    /\ count_events is_load evs = 0%nat
    /\ (count_events is_fetch evs <= 1)%nat
    /\ (count_events is_cache_write evs <= 1)%nat.
Proof.
  destruct (queryUnpaywall_shape doi w st)
    as (r & st' & evs0 & store0 & Hq & _ & Hquiet & _ & Hcases).
  destruct (quiet_counts evs0 Hquiet) as (Hf & Hw & Hl & _).
  destruct Hcases as [[Hev _] | [[Hev _] | (_ & Hev & _)]];
    eexists r, st', _; (split; [exact Hq|]); (split; [exact Hev|]);
    rewrite ?count_events_app, ?Hf, ?Hw, ?Hl; cbn; repeat split; lia.
Qed.

(** X22.  One call of [checkCopyright] loads the dataset at most once, asks
    the registry at most once and writes the cache at most once; a decision
    of a category other than [oa_verified], [paywalled] and
    [verification_failed] is reached without any request and leaves the
    store as it was. *)
Theorem checkCopyright_effects (w : World) (st : State)
    (pageData : option PageData) :
  exists d st' evs,
    checkCopyright pageData w st = (Ok d, st')
    /\ events st' = (events st ++ evs)%list
    /\ (count_events is_load evs <= 1)%nat
    /\ (count_events is_fetch evs <= 1)%nat
    /\ (count_events is_cache_write evs <= 1)%nat
    /\ (category d <> oa_verified -> category d <> paywalled ->
        category d <> verification_failed ->
        count_events is_fetch evs = 0%nat /\ storage st' = storage st).
Proof.
  destruct (checkCopyright_paths pageData w st) as (st1 & Hload & Hpaths).
  destruct (ensureDatabasesLoaded_effects w st) as (st1' & Hload' & Hs1 & He1).
  assert (st1' = st1) as -> by congruence.
  assert (exists evs1,
    events st1 = (events st ++ evs1)%list
    /\ (count_events is_load evs1 <= 1)%nat
    /\ count_events is_fetch evs1 = 0%nat
    /\ count_events is_cache_write evs1 = 0%nat) as (evs1 & Hev1 & Hl1 & Hf1 & Hw1).
  { destruct He1 as [He1 | He1].
    - exists []. rewrite app_nil_r. repeat split; auto.
    - exists [EvLoadDataset]. repeat split; auto. }
  destruct Hpaths as [(d & Hd & _) | (pd & doi & r & st2 & _ & _ & Hq & Hd)].
  - exists d, st1, evs1. repeat split; auto; try lia.
  - destruct (queryUnpaywall_log doi w st1)
      as (r' & st2' & evs2 & Hq' & Hev2 & Hl2 & Hf2 & Hw2).
    rewrite Hq in Hq'. injection Hq' as <- <-.
    exists (resolved_decision r (pd_url pd) doi), st2, (evs1 ++ evs2)%list.
    split; [exact Hd|]. split; [now rewrite Hev2, Hev1, app_assoc|].
    rewrite !count_events_app. repeat split; try lia.
    all: destruct (resolved_decision_category r (pd_url pd) doi)
           as ([Hc | [Hc | Hc]] & _); contradiction.
Qed.

(** ** Cache maintenance *)

Lemma startsWith_cacheKey doi : startsWith (cacheKey doi) "oa_cache_" = true.
Proof. reflexivity. Qed.

Lemma elem_of_keys_of (store : gmap string CacheEntry) key :
  key ∈ keys_of store <-> is_Some (store !! key).
Proof.
  unfold keys_of. rewrite list_elem_of_fmap. split.
  - intros ([k e] & -> & H). apply elem_of_map_to_list in H. now exists e.
  - intros [e H]. exists (key, e). split; [reflexivity|].
    now apply elem_of_map_to_list.
Qed.

Lemma size_foldr_delete (store : gmap string CacheEntry) keys :
  NoDup keys -> (forall key, key ∈ keys -> is_Some (store !! key)) ->
  size store = (length keys + size (foldr delete store keys))%nat.
Proof.
  induction 1 as [|key keys Hnot Hnd IH]; intros Hin; [reflexivity|].
  cbn [foldr length].
  rewrite map_size_delete_Some.
  - rewrite IH by (intros k Hk; apply Hin; now right).
    assert (size (foldr delete store keys) <> 0%nat).
    { apply (map_size_ne_0_lookup_2 _ key).
      rewrite lookup_foldr_delete_not_elem_of by exact Hnot.
      apply Hin. now left. }
    lia.
  - rewrite lookup_foldr_delete_not_elem_of by exact Hnot. apply Hin. now left.
Qed.

(** The run of [clearOACache] when the platform rejects nothing. *)
Lemma clearOACache_run bulk_fails w st :
  bulk_fails OpGet = false -> bulk_fails OpRemove = false ->
  let cacheKeys :=
    List.filter (fun key => startsWith key "oa_cache_") (keys_of (storage st)) in
  clearOACache bulk_fails w st
  = (Ok (length cacheKeys),
     MkState (academicDatabases st) (foldr delete (storage st) cacheKeys) (events st)).
Proof.
  intros Hget Hrem cacheKeys.
  unfold clearOACache, try_catch, storage_get_all, storage_remove_all, mbind, M_bind.
  rewrite Hget. cbn [fst snd]. fold cacheKeys.
  destruct (0 <? length cacheKeys)%nat eqn:Hlen.
  - now rewrite Hrem.
  - apply Nat.ltb_ge in Hlen. destruct cacheKeys; [|cbn in Hlen; lia].
    cbn. now destruct st.
Qed.

Lemma elem_of_cache_keys (store : gmap string CacheEntry) key :
  key ∈ List.filter (fun key => startsWith key "oa_cache_") (keys_of store)
  <-> startsWith key "oa_cache_" = true /\ is_Some (store !! key).
Proof.
  rewrite list_elem_of_In, filter_In, <- list_elem_of_In, elem_of_keys_of. tauto.
Qed.

(** X23.  When the platform rejects nothing, [clearOACache] removes every
    entry whose key begins with oa_cache_, keeps every other entry as it is,
    and returns the number of entries it removed. *)
Theorem clearOACache_clears (bulk_fails : StorageOp -> bool) (w : World) (st : State) :
  bulk_fails OpGet = false -> bulk_fails OpRemove = false ->
  exists n st',
    clearOACache bulk_fails w st = (Ok n, st')
    /\ (forall key,
          storage st' !! key
          = if startsWith key "oa_cache_" then None else storage st !! key)
    /\ size (storage st) = (n + size (storage st'))%nat
    /\ academicDatabases st' = academicDatabases st.
Proof.
  intros Hget Hrem. eexists _, _. split; [now apply clearOACache_run|].
  cbn [storage academicDatabases]. repeat split.
  - intros key. destruct (startsWith key "oa_cache_") eqn:Hkey.
    + destruct (storage st !! key) as [e|] eqn:He.
      * apply lookup_foldr_delete, elem_of_cache_keys. split; [exact Hkey|].
        rewrite He. now exists e.
      * rewrite lookup_foldr_delete_not_elem_of; [exact He|].
        rewrite elem_of_cache_keys. intros [_ [e He']]. congruence.
    + apply lookup_foldr_delete_not_elem_of.
      rewrite elem_of_cache_keys. intros [H _]. congruence.
  - apply size_foldr_delete.
    + apply NoDup_ListNoDup, List.NoDup_filter, NoDup_ListNoDup, NoDup_fst_map_to_list.
    + intros key Hkey. now apply elem_of_cache_keys in Hkey.
Qed.

Lemma clearOACache_clears_witness :
  exists n st',
    clearOACache (fun _ => false) Sample.world
      (MkState Sample.databases
         (<["oa_cache_10.1234/abc" := MkCacheEntry no_doi_status 0]>
            (<["settings" := MkCacheEntry no_doi_status 0]> ∅)) [])
    = (Ok n, st')
    /\ storage st' !! "oa_cache_10.1234/abc" = None
    /\ storage st' !! "settings" = Some (MkCacheEntry no_doi_status 0).
Proof.
  destruct (clearOACache_clears (fun _ => false) Sample.world
              (MkState Sample.databases
                 (<["oa_cache_10.1234/abc" := MkCacheEntry no_doi_status 0]>
                    (<["settings" := MkCacheEntry no_doi_status 0]> ∅)) [])
              eq_refl eq_refl) as (n & st' & Hrun & Hkeys & _).
  exists n, st'. split; [exact Hrun|]. split.
  - now rewrite Hkeys.
  - now rewrite Hkeys.
Defined.

(** X24.  After [clearOACache] the resolver has forgotten every answer: the
    next query for any DOI asks the registry. *)
Theorem clearOACache_forces_request (bulk_fails : StorageOp -> bool)
    (w w' : World) (st : State) (doi : option string) :
  bulk_fails OpGet = false -> bulk_fails OpRemove = false ->
  Js.truthy_opt doi = true ->
  let st1 := (clearOACache bulk_fails w st).2 in
  exists r st2 evs,
    queryUnpaywall doi w' st1 = (Ok r, st2)
    /\ events st2 = (events st1 ++ evs)%list
    /\ count_events is_fetch evs = 1%nat.
Proof.
  intros Hget Hrem Hdoi st1.
  assert (storage st1 !! cacheKey doi = None) as Hmiss.
  { subst st1. rewrite (clearOACache_run _ w st Hget Hrem). cbn [snd storage].
    destruct (storage st !! cacheKey doi) as [e|] eqn:He.
    - apply lookup_foldr_delete, elem_of_cache_keys.
      split; [apply startsWith_cacheKey|]. rewrite He. now exists e.
    - rewrite lookup_foldr_delete_not_elem_of; [exact He|].
      rewrite elem_of_cache_keys. intros [_ [e He']]. congruence. }
  clearbody st1.
  assert (exists stc evs0,
    getCachedOAStatus doi w' st1 = (Ok None, stc)
    /\ events stc = (events st1 ++ evs0)%list
    /\ forallb is_cache_access evs0 = true) as (stc & evs0 & Hc & Hev0 & Hq0).
  { unfold getCachedOAStatus. rewrite Hdoi. cbn [negb].
    unfold try_catch, storage_get, mbind, M_bind.
    destruct (storage_fails w' OpGet (cacheKey doi)).
    - eexists _, [_]. now repeat split.
    - rewrite Hmiss. eexists _, [_]. now repeat split. }
  destruct (quiet_counts evs0 Hq0) as (Hf0 & _).
  destruct (queryUnpaywall_after_miss doi w' st1 stc Hdoi Hc)
    as (r & st2 & Hq & _ & [[Hev _] | (_ & Hev & _)]);
    eexists r, st2, _; (split; [exact Hq|]);
    (split; [rewrite Hev, Hev0, <- app_assoc; reflexivity|]);
    rewrite count_events_app, Hf0; reflexivity.
Qed.

Lemma clearOACache_forces_request_witness :
  let st := MkState Sample.databases
              (<["oa_cache_10.1234/abc" := MkCacheEntry no_doi_status 1700000000000]> ∅)
              [] in
  (queryUnpaywall (Some "10.1234/abc") Sample.world st).1 = Ok no_doi_status
  /\ exists r st2 evs,
       queryUnpaywall (Some "10.1234/abc") Sample.world
         (clearOACache (fun _ => false) Sample.world st).2 = (Ok r, st2)
       /\ events st2 = (events (clearOACache (fun _ => false) Sample.world st).2 ++ evs)%list
       /\ count_events is_fetch evs = 1%nat.
Proof.
  split; [reflexivity|].
  exact (clearOACache_forces_request (fun _ => false) Sample.world Sample.world _
           (Some "10.1234/abc") eq_refl eq_refl eq_refl).
Defined.

(** X25.  [clearOACache] reports a rejected operation as nothing to clear:
    when the platform rejects the listing or the removal, the call returns 0
    and leaves the store as it was, whatever it holds. *)
Theorem clearOACache_rejected (bulk_fails : StorageOp -> bool) (w : World) (st : State) :
  bulk_fails OpGet = true \/ bulk_fails OpRemove = true ->
  clearOACache bulk_fails w st = (Ok 0%nat, st).
Proof.
  intros Hfail.
  unfold clearOACache, try_catch, storage_get_all, storage_remove_all, mbind, M_bind.
  destruct (bulk_fails OpGet) eqn:Hget; [reflexivity|].
  destruct Hfail as [?|Hrem]; [discriminate|]. cbn [fst snd].
  set (cacheKeys := List.filter _ _).
  destruct (0 <? length cacheKeys)%nat eqn:Hlen.
  - now rewrite Hrem.
  - apply Nat.ltb_ge in Hlen. destruct cacheKeys; [reflexivity|cbn in Hlen; lia].
Qed.

Lemma clearOACache_rejected_witness :
  let st := MkState Sample.databases
              (<["oa_cache_10.1234/abc" := MkCacheEntry no_doi_status 0]> ∅) [] in
  clearOACache (fun op => match op with OpRemove => true | _ => false end)
    Sample.world st = (Ok 0%nat, st).
Proof.
  intros st.
  apply (clearOACache_rejected
           (fun op => match op with OpRemove => true | _ => false end)).
  right. reflexivity.
Defined.

(** ** PDF page detection *)

Lemma search_occurs r s m cap :
  Re.search r s = Some (m, cap) -> occurs_in m s /\ Re.denotes r m.
Proof.
  induction s as [|c s IH]; cbn [Re.search].
  - destruct (Re.match_here r []) as [[[m' rest'] cap']|] eqn:E; [|discriminate].
    intros [= <- <-]. apply match_here_sound in E as [E D].
    split; [|exact D]. exists [], rest'. exact E.
  - destruct (Re.match_here r (c :: s)) as [[[m' rest'] cap']|] eqn:E.
    + intros [= <- <-]. apply match_here_sound in E as [E D].
      split; [|exact D]. exists [], rest'. exact E.
    + intros H. destruct (IH H) as [(pre & post & ->) D].
      split; [|exact D]. now exists (c :: pre), post.
Qed.

Lemma denotes_lit_chars l m : Re.denotes (Re.seqs (map Re.ch l)) m -> m = l.
Proof.
  revert m. induction l as [|c [|c' l] IH]; intros m H.
  - now inversion H.
  - now apply denotes_ch_inv in H.
  - change (Re.seqs (map Re.ch (c :: c' :: l)))
      with (Re.Seq (Re.ch c) (Re.seqs (map Re.ch (c' :: l)))) in H.
    apply denotes_seq_inv in H as (m1 & m2 & -> & H1 & H2).
    apply denotes_ch_inv in H1 as ->. now rewrite (IH _ H2).
Qed.

Lemma denotes_liti_chars l m :
  Re.denotes (Re.seqs (map Re.chi l)) m ->
  map Js.lower_char m = map Js.lower_char l.
Proof.
  assert (forall c m, Re.denotes (Re.chi c) m ->
            map Js.lower_char m = [Js.lower_char c]) as Hone.
  { intros c m0 H. apply denotes_chr_inv in H as (x & -> & Hx).
    apply Ascii.eqb_eq in Hx. cbn. now rewrite Hx. }
  revert m. induction l as [|c [|c' l] IH]; intros m H.
  - now inversion H.
  - now apply Hone.
  - change (Re.seqs (map Re.chi (c :: c' :: l)))
      with (Re.Seq (Re.chi c) (Re.seqs (map Re.chi (c' :: l)))) in H.
    apply denotes_seq_inv in H as (m1 & m2 & -> & H1 & H2).
    rewrite map_app, (Hone _ _ H1), (IH _ H2). reflexivity.
Qed.

Lemma endsWith_occurs s suffix :
  endsWith s suffix = true -> occurs_in (Js.chars suffix) (Js.chars s).
Proof.
  unfold endsWith. rewrite starts_with_spec. intros [post H].
  apply (f_equal (@rev ascii)) in H.
  rewrite rev_involutive, rev_app_distr, rev_involutive in H.
  exists (rev post), []. now rewrite app_nil_r.
Qed.

(** A piece of a lower-cased text is its own lower-casing. *)
Lemma occurs_in_lowered m l :
  occurs_in m (map Js.lower_char l) -> map Js.lower_char m = m.
Proof.
  intros (pre & post & H).
  apply map_eq_app in H as (l1 & l2 & _ & _ & H).
  apply map_eq_app in H as (l3 & l4 & _ & <- & _).
  rewrite map_map. apply map_ext. intros c. apply lower_char_idem.
Qed.

Lemma pdf_params_occurs href :
  re_test pdf_params_re (Js.toLowerCase href) = true ->
  occurs_in (Js.chars ".pdf") (Js.chars (Js.toLowerCase href)).
Proof.
  unfold re_test.
  destruct (Re.search _ _) as [[m cap]|] eqn:E; [intros _|discriminate].
  apply search_occurs in E as [Hocc D].
  apply denotes_seq_inv in D as (m1 & m2 & -> & D1 & _).
  apply denotes_liti_chars in D1.
  assert (occurs_in m1 (Js.chars (Js.toLowerCase href))) as Hocc1.
  { eapply occurs_in_trans; [|exact Hocc]. now exists [], m2. }
  rewrite chars_toLowerCase in Hocc1 |- *.
  rewrite (occurs_in_lowered _ _ Hocc1) in D1.
  change (map Js.lower_char (Js.chars ".pdf")) with (Js.chars ".pdf") in D1.
  now rewrite <- D1.
Qed.

Lemma arxiv_direct_occurs url :
  re_test arxiv_direct_re url = true ->
  occurs_in (Js.chars ".pdf") (Js.chars url).
Proof.
  unfold re_test.
  destruct (Re.search _ _) as [[m cap]|] eqn:E; [intros _|discriminate].
  apply search_occurs in E as [Hocc D].
  apply denotes_seq_inv in D as (m1 & m23 & -> & _ & D).
  apply denotes_seq_inv in D as (m2 & m3 & -> & _ & D).
  apply denotes_lit_chars in D as ->.
  eapply occurs_in_trans; [|exact Hocc].
  exists (m1 ++ m2)%list, []. now rewrite app_nil_r, <- app_assoc.
Qed.

(** X26.  On a page whose address does not contain .pdf in any letter case,
    [isPDFPage] answers from the DOM alone: the page is a PDF page exactly
    when it has an [embed] element of type application/pdf or one of the two
    viewer containers.  The number of children of the body plays no part. *)
Theorem isPDFPage_without_pdf_in_url (page : PageProbe) :
  Js.includes (Js.toLowerCase (probe_href page)) ".pdf" = false ->
  isPDFPage page
  = (0 <? pdfEmbeds page)%nat || viewerContainer page || outerContainer page.
Proof.
  intros Hurl.
  assert (forall b, (b = true ->
            occurs_in (Js.chars ".pdf") (Js.chars (Js.toLowerCase (probe_href page)))) ->
          b = false) as Hno.
  { intros [|] Hb; [|reflexivity].
    unfold Js.includes in Hurl.
    apply includes_chars_spec in Hb; [congruence|reflexivity]. }
  unfold isPDFPage.
  rewrite (Hno _ (endsWith_occurs _ _)), (Hno _ (pdf_params_occurs _)),
          (Hno _ (arxiv_direct_occurs _)).
  destruct (0 <? pdfEmbeds page)%nat, (viewerContainer page),
           (outerContainer page); cbn; now rewrite ?andb_false_r.
Qed.

Lemma isPDFPage_without_pdf_in_url_witness :
  isPDFPage (MkPageProbe "https://journal.example/article/42" 1 false false (Some 40%nat))
  = true.
Proof.
  exact (isPDFPage_without_pdf_in_url
           (MkPageProbe "https://journal.example/article/42" 1 false false (Some 40%nat))
           eq_refl).
Defined.

(** ** Keywords and main content of a page *)

Lemma length_str l : String.length (Js.str l) = length l.
Proof. induction l as [|c l IH]; cbn; [reflexivity|f_equal; exact IH]. Qed.

Lemma length_of_substring0 s n :
  length_of (substring0 s n) = Z.min (Z.max n 0) (length_of s).
Proof.
  unfold length_of, substring0.
  rewrite length_str, length_firstn.
  assert (String.length s = length (Js.chars s)) as ->
    by (rewrite <- (str_chars s) at 1; apply length_str).
  lia.
Qed.

Lemma existsb_eqb_In x seen : existsb (String.eqb x) seen = true <-> In x seen.
Proof.
  rewrite existsb_exists. split.
  - intros (y & Hy & E). apply String.eqb_eq in E. now subst.
  - intros H. exists x. split; [exact H|apply String.eqb_refl].
Qed.

Lemma distinct_spec l :
  forall seen,
    List.NoDup (distinct seen l)
    /\ forall x, In x (distinct seen l) -> ~ In x seen /\ In x l.
Proof.
  induction l as [|y l IH]; intros seen; cbn [distinct].
  - split; [constructor|intros x []].
  - destruct (existsb (String.eqb y) seen) eqn:E.
    + destruct (IH seen) as [Hnd Hin]. split; [exact Hnd|].
      intros x Hx. destruct (Hin x Hx). split; [assumption|now right].
    + destruct (IH (y :: seen)) as [Hnd Hin]. split.
      * constructor; [|exact Hnd]. intros Hy. destruct (Hin y Hy) as [Hn _].
        apply Hn. now left.
      * intros x [<- | Hx].
        -- split; [|now left]. intros Hs. apply existsb_eqb_In in Hs. congruence.
        -- destruct (Hin x Hx) as [Hn Hl]. split; [|now right].
           intros Hs. apply Hn. now right.
Qed.

(** X27.  [extractKeywordsNonDestructive] returns at most ten keywords, no
    keyword twice, each of 3 to 49 characters. *)
Theorem extractKeywordsNonDestructive_bounded (page : KeywordSources) :
  let keywords := extractKeywordsNonDestructive page in
  (length keywords <= 10)%nat
  /\ List.NoDup keywords
  /\ forall k, In k keywords -> 3 <= length_of k <= 49.
Proof.
  unfold extractKeywordsNonDestructive.
  set (all := (_ ++ _ ++ _)%list).
  set (kept := List.filter keyword_sized (distinct [] all)).
  cbn zeta. split; [|split].
  - rewrite length_firstn. lia.
  - assert (List.NoDup kept) as Hnd
      by (apply List.NoDup_filter, distinct_spec).
    rewrite <- (firstn_skipn 10 kept) in Hnd.
    now apply NoDup_app_remove_r in Hnd.
  - intros k Hk.
    assert (In k kept) as Hin.
    { rewrite <- (firstn_skipn 10 kept). apply in_or_app. now left. }
    apply filter_In in Hin as [_ Hsize].
    unfold keyword_sized in Hsize.
    apply andb_prop in Hsize as [Hsize Hhi]. apply andb_prop in Hsize as [_ Hlo].
    lia.
Qed.

Lemma collapse_spaces_single b l :
  single_spaced (collapse_spaces b l) = true
  /\ (b = true ->
      match collapse_spaces b l with
      | c :: _ => negb (Js.is_space c)
      | [] => true
      end = true).
Proof.
  revert b. induction l as [|c l IH]; intros b; [now split|].
  cbn [collapse_spaces]. destruct (Js.is_space c) eqn:Hc.
  - destruct b; [apply IH|]. split; [|discriminate].
    destruct (IH true) as [Hs Hh].
    cbn [single_spaced]. rewrite Hs, (Hh eq_refl). reflexivity.
  - destruct (IH false) as [Hs _]. split.
    + cbn [single_spaced]. now rewrite Hc, Hs.
    + intros _. now rewrite Hc.
Qed.

Lemma single_spaced_app l1 l2 :
  single_spaced (l1 ++ l2) = true ->
  single_spaced l1 = true /\ single_spaced l2 = true.
Proof.
  induction l1 as [|c l1 IH]; [now split|].
  cbn [app single_spaced]. intros H.
  apply andb_prop in H as [Hc H]. destruct (IH H) as [H1 H2].
  split; [|exact H2]. rewrite H1, andb_true_r.
  destruct (Js.is_space c); [|reflexivity].
  apply andb_prop in Hc as [Hsp Hnext]. rewrite Hsp.
  destruct l1; [reflexivity|exact Hnext].
Qed.

Lemma drop_spaces_suffix l : exists pre, l = (pre ++ Js.drop_spaces l)%list.
Proof.
  induction l as [|c l [pre IH]]; [now exists []|].
  cbn [Js.drop_spaces]. destruct (Js.is_space c).
  - exists (c :: pre). cbn. now rewrite <- IH.
  - now exists [].
Qed.

Lemma single_spaced_trim l :
  single_spaced l = true -> single_spaced (Js.trim_chars l) = true.
Proof.
  intros H. unfold Js.trim_chars.
  destruct (drop_spaces_suffix l) as [pre Hpre].
  rewrite Hpre in H. apply single_spaced_app in H as [_ H].
  destruct (drop_spaces_suffix (rev (Js.drop_spaces l))) as [pre' Hpre'].
  apply (f_equal (@rev ascii)) in Hpre'.
  rewrite rev_involutive, rev_app_distr in Hpre'.
  rewrite Hpre' in H. now apply single_spaced_app in H as [H _].
Qed.

Lemma single_spaced_clean_text text :
  single_spaced (Js.chars (clean_text text)) = true.
Proof.
  unfold clean_text, Js.trim. rewrite !chars_str.
  apply single_spaced_trim, collapse_spaces_single.
Qed.

Lemma single_spaced_substring0 s n :
  single_spaced (Js.chars s) = true ->
  single_spaced (Js.chars (substring0 s n)) = true.
Proof.
  intros H. unfold substring0. rewrite chars_str.
  rewrite <- (firstn_skipn (Z.to_nat n) (Js.chars s)) in H.
  now apply single_spaced_app in H as [H _].
Qed.

(** X28.  The content [extractMainContentHybrid] returns is empty or has
    between [MIN_CONTENT_LENGTH] and [MAX_CONTENT_LENGTH] characters, and
    whitespace occurs in it only as single spaces. *)
Theorem extractMainContentHybrid_bounds (page : ContentSources) :
  let content := extractMainContentHybrid page in
  (content = ""
   \/ CONFIG.MIN_CONTENT_LENGTH <= length_of content <= CONFIG.MAX_CONTENT_LENGTH)
  /\ single_spaced (Js.chars content) = true.
Proof.
  assert (forall text,
    (CONFIG.MIN_CONTENT_LENGTH <=? length_of (clean_text text)) = true ->
    let content := substring0 (clean_text text) CONFIG.MAX_CONTENT_LENGTH in
    CONFIG.MIN_CONTENT_LENGTH <= length_of content <= CONFIG.MAX_CONTENT_LENGTH
    /\ single_spaced (Js.chars content) = true) as Hcut.
  { intros text Hlen content. apply Z.leb_le in Hlen. split.
    - subst content. rewrite length_of_substring0.
      unfold CONFIG.MIN_CONTENT_LENGTH, CONFIG.MAX_CONTENT_LENGTH in *. lia.
    - apply single_spaced_substring0, single_spaced_clean_text. }
  unfold extractMainContentHybrid.
  destruct (first_some long_enough _) as [content|] eqn:E.
  - apply first_some_found in E as (text & _ & E).
    unfold long_enough in E.
    destruct (Js.truthy _ && _) eqn:Hok; [|discriminate].
    injection E as <-. apply andb_prop in Hok as [_ Hlen].
    destruct (Hcut text Hlen). split; [now right|assumption].
  - destruct (bodyElement page) as [body|]; [|now split; [left|]].
    destruct (CONFIG.MIN_CONTENT_LENGTH <=? _) eqn:Hlen; [|now split; [left|]].
    destruct (Hcut body Hlen). split; [now right|assumption].
Qed.

(** ** Title of a page *)

Lemma drop_spaces_fixed l :
  match l with c :: _ => Js.is_space c = false | [] => True end ->
  Js.drop_spaces l = l.
Proof. destruct l as [|c l]; [reflexivity|]. cbn. now intros ->. Qed.

Lemma drop_spaces_head l :
  match Js.drop_spaces l with c :: _ => Js.is_space c = false | [] => True end.
Proof.
  induction l as [|c l IH]; [exact I|].
  cbn [Js.drop_spaces]. destruct (Js.is_space c) eqn:E; [exact IH|exact E].
Qed.

Lemma trim_chars_idem l : Js.trim_chars (Js.trim_chars l) = Js.trim_chars l.
Proof.
  unfold Js.trim_chars.
  set (x := Js.drop_spaces l).
  set (z := Js.drop_spaces (rev x)).
  assert (Js.drop_spaces (rev z) = rev z) as Hfront.
  { apply drop_spaces_fixed.
    destruct (drop_spaces_suffix (rev x)) as [pre Hpre]. fold z in Hpre.
    apply (f_equal (@rev ascii)) in Hpre.
    rewrite rev_involutive, rev_app_distr in Hpre.
    pose proof (drop_spaces_head l) as Hx. fold x in Hx.
    destruct (rev z) as [|c y]; [exact I|].
    rewrite Hpre in Hx. exact Hx. }
  rewrite Hfront, rev_involutive.
  rewrite (drop_spaces_fixed z); [reflexivity|apply drop_spaces_head].
Qed.

Lemma trim_idem s : Js.trim (Js.trim s) = Js.trim s.
Proof. unfold Js.trim. now rewrite chars_str, trim_chars_idem. Qed.

(** X29.  [extractTitleNonDestructive] never returns an empty title, and the
    title it returns has no whitespace at either end. *)
Theorem extractTitleNonDestructive_proper (page : TitleSources) :
  let title := extractTitleNonDestructive page in
  Js.truthy title = true /\ Js.trim title = title.
Proof.
  unfold extractTitleNonDestructive.
  destruct (Js.truthy (findMetadataBySelectorsNonDestructive _)) eqn:Hmeta.
  - split; [exact Hmeta|].
    unfold findMetadataBySelectorsNonDestructive in *.
    destruct (first_some _ _) as [text|] eqn:E; [|discriminate].
    apply first_some_found in E as (el & _ & E). cbn zeta in E.
    destruct (Js.truthy (Js.trim el)); [|discriminate].
    injection E as <-. apply trim_idem.
  - destruct (Js.truthy (documentTitle page)); [|now split].
    cbn zeta. destruct (3 <? _) eqn:Hlen; [|now split].
    split; [|apply trim_idem].
    apply Z.ltb_lt in Hlen. unfold length_of in Hlen.
    destruct (Js.trim _); [cbn in Hlen; lia|reflexivity].
Qed.
